(** * oerpfs: a FUSE bridge onto OpenERP records, attachments and documents

    Shallow embedding of [oerpfs.py] (Python 2) and the properties of its
    three mount types: [OerpFSModel] (attachments), [OerpFSCsvImport]
    (CSV import) and [OerpFSDocument] (document tree), all built on the
    shared buffer table of [OerpFS].

    Conventions.
    - A Python 2 [str] used as a path, a model name or a field name is a
      [string]; a [str] used as file content or as a payload is a list of
      characters ([bytes]).
    - Python integers are [Z].
    - A method is a function from the receiver's state to an outcome and
      the state it leaves behind; the state is returned also when the
      method raises, because Python keeps the mutations made before the
      exception. *)

From Stdlib Require Import ZArith Ascii String List Lia Bool.
From stdpp Require Import gmap strings list fin_maps.

Local Open Scope Z_scope.

Abbreviation bytes := (list ascii).

(** ** Outcomes *)

(** The exception classes the code can raise. [BackendFailure] stands for
    whatever the OpenERP server raises inside a call. *)
Inductive exn : Set :=
| KeyError | IndexError | ValueError | AttributeError | TypeError
| IOError | CsvError | UnicodeEncodeError | BackendFailure.

Inductive result (A : Type) : Type :=
| Ret (a : A)
| Raise (e : exn).
Arguments Ret {A} a.
Arguments Raise {A} e.

(** A method over a receiver state [S]. *)
Definition M (S A : Type) : Type := S -> result A * S.

Definition ret {S A} (a : A) : M S A := fun s => (Ret a, s).
Definition raise {S A} (e : exn) : M S A := fun s => (Raise e, s).
Definition bind {S A B} (m : M S A) (k : A -> M S B) : M S B :=
  fun s => match m s with
           | (Ret a, s') => k a s'
           | (Raise e, s') => (Raise e, s')
           end.
Definition get {S} : M S S := fun s => (Ret s, s).
Definition put {S} (s : S) : M S unit := fun _ => (Ret tt, s).
Definition lift_result {S A} (r : result A) : M S A := fun s => (r, s).

Declare Scope py_scope.
Delimit Scope py_scope with py.
Notation "x <- m ;; k" := (bind m (fun x => k))
  (at level 100, m at next level, right associativity) : py_scope.
Notation "m ;;; k" := (bind m (fun _ => k))
  (at level 100, right associativity) : py_scope.

(** ** Python sequences *)

(** [len(s)]. *)
Definition py_len {A} (l : list A) : Z := Z.of_nat (length l).

(** A slice index clamped the way Python clamps it: a negative index
    counts from the end. *)
Definition py_index (i n : Z) : Z :=
  if i <? 0 then Z.max (i + n) 0 else Z.min i n.

(** [s[a:b]]. *)
Definition py_slice {A} (l : list A) (a b : Z) : list A :=
  let n := py_len l in
  let a' := py_index a n in
  let b' := py_index b n in
  take (Z.to_nat (b' - a')) (drop (Z.to_nat a') l).

(** [s[:b]] and [s[a:]]. *)
Definition py_slice_to {A} (l : list A) (b : Z) : list A := py_slice l 0 b.
Definition py_slice_from {A} (l : list A) (a : Z) : list A :=
  py_slice l a (py_len l).

(** [s[i]] on a list, for a non-negative literal index. *)
Definition py_item {A} (l : list A) (i : nat) : result A :=
  match l !! i with
  | Some x => Ret x
  | None => Raise IndexError
  end.

(** ** Python built-ins the code calls *)

(** [s.split(sep)] for a one-character separator: one more piece than
    there are separators, empty pieces included. *)
Fixpoint split (sep : ascii) (s : string) : list string :=
  match s with
  | EmptyString => [EmptyString]
  | String c s' =>
      if Ascii.eqb c sep then EmptyString :: split sep s'
      else match split sep s' with
           | w :: ws => String c w :: ws
           | [] => [String c EmptyString]
           end
  end.

(** [path.split('/')[1:]]. *)
Definition path_segments (path : string) : list string :=
  drop 1 (split "/" path).

(** C [isspace] in the C locale. *)
Definition isspace (c : ascii) : bool :=
  let n := nat_of_ascii c in
  (n =? 32)%nat || ((9 <=? n)%nat && (n <=? 13)%nat).

Fixpoint skip_spaces (s : string) : string :=
  match s with
  | String c s' => if isspace c then skip_spaces s' else s
  | EmptyString => s
  end.

Definition digit_val (c : ascii) : option Z :=
  let n := nat_of_ascii c in
  if (48 <=? n)%nat && (n <=? 57)%nat then Some (Z.of_nat n - 48) else None.

(** The longest run of decimal digits at the head of [s], read with the
    digits before it in [acc]; [seen] tells whether a digit was read. *)
Fixpoint read_digits (s : string) (acc : Z) (seen : bool) : Z * bool * string :=
  match s with
  | String c s' =>
      match digit_val c with
      | Some d => read_digits s' (10 * acc + d) true
      | None => (acc, seen, s)
      end
  | EmptyString => (acc, seen, s)
  end.

(** [int(s)] on a [str], base 10: blanks, an optional sign, blanks again
    (Python 2 allows them after the sign), at least one digit, blanks,
    and nothing else. [None] is [ValueError]. *)
Definition py_int (s : string) : option Z :=
  let s1 := skip_spaces s in
  let '(negative, s2) :=
    match s1 with
    | String "-"%char r => (true, r)
    | String "+"%char r => (false, r)
    | _ => (false, s1)
    end in
  let '(n, seen, rest) := read_digits (skip_spaces s2) 0 false in
  if seen then
    match skip_spaces rest with
    | EmptyString => Some (if negative : bool then - n else n)
    | _ => None
    end
  else None.

(** [str.replace(old, '')] for a non-empty [old]: every occurrence
    found scanning from the left is dropped. [skip] counts the characters
    of an occurrence still to be dropped. *)
Fixpoint remove_all (old : string) (skip : nat) (s : string) : string :=
  match s with
  | EmptyString => EmptyString
  | String c s' =>
      match skip with
      | S k => remove_all old k s'
      | O => if String.prefix old s
             then remove_all old (Nat.pred (String.length old)) s'
             else String c (remove_all old 0 s')
      end
  end.

(** [s[1:]] on a string. *)
Definition str_tail (s : string) : string :=
  match s with
  | String _ s' => s'
  | EmptyString => EmptyString
  end.

(** The bytes of a string literal. *)
Definition str_bytes (s : string) : bytes := list_ascii_of_string s.

(** ** StringIO

    [StringIO.StringIO] of the Python 2 library. [buf] is the content
    (the library's [buf] with its pending [buflist] joined), [len] the
    length the object records and [pos] the cursor. The object is dropped
    from the table in the statement after each [close()], so a closed
    object is never used and the [closed] flag is left out. *)
Record StringIO : Set := mkStringIO {
  buf : bytes;
  len : Z;
  pos : Z
}.

(** [StringIO(b)]. *)
Definition StringIO_new (b : bytes) : StringIO :=
  {| buf := b; len := py_len b; pos := 0 |}.

(** [seek(p)]: [self.pos = max(0, p)]. *)
Definition seek (s : StringIO) (p : Z) : StringIO :=
  {| buf := buf s; len := len s; pos := Z.max 0 p |}.

(** [read(n)]: up to [n] bytes from the cursor, everything when
    [n < 0]. *)
Definition sio_read (s : StringIO) (n : Z) : bytes * StringIO :=
  let newpos := if n <? 0 then len s else Z.min (pos s + n) (len s) in
  (py_slice (buf s) (pos s) newpos,
   {| buf := buf s; len := len s; pos := newpos |}).

Definition zeros (n : Z) : bytes := replicate (Z.to_nat n) zero.

(** [write(d)]. *)
Definition sio_write (s : StringIO) (d : bytes) : StringIO :=
  match d with
  | [] => s
  | _ =>
    let spos := pos s in
    let slen := len s in
    if spos =? slen then
      {| buf := buf s ++ d; len := spos + py_len d; pos := spos + py_len d |}
    else
      let padded := if slen <? spos then buf s ++ zeros (spos - slen) else buf s in
      let slen1 := if slen <? spos then spos else slen in
      let newpos := spos + py_len d in
      if spos <? slen1 then
        {| buf := py_slice_to padded spos ++ d ++ py_slice_from padded newpos;
           len := if slen1 <? newpos then newpos else slen1;
           pos := newpos |}
      else
        {| buf := padded ++ d; len := newpos; pos := newpos |}
  end.

(** [truncate(size)]: a negative size is refused; the recorded length
    becomes [size] also when the content is shorter. *)
Definition sio_truncate (s : StringIO) (size : Z) : result StringIO :=
  if size <? 0 then Raise IOError
  else Ret {| buf := py_slice_to (buf s) size;
              len := size;
              pos := if size <? pos s then size else pos s |}.

(** [getvalue()]. *)
Definition getvalue (s : StringIO) : bytes := buf s.

(** What every object the library builds satisfies: the content is never
    longer than the recorded length, and the cursor is not negative. *)
Definition sio_ok (s : StringIO) : Prop :=
  py_len (buf s) <= len s /\ 0 <= pos s.

(** The stronger condition that the recorded length is the content's
    length; [truncate] beyond the end breaks it. *)
Definition sio_exact (s : StringIO) : Prop :=
  len s = py_len (buf s) /\ 0 <= pos s.

(** ** base64

    [base64.b64encode] and [base64.b64decode] of the Python 2 library,
    that is [binascii.b2a_base64] without its final newline and
    [binascii.a2b_base64] with its error turned into [TypeError]. *)

Definition byte_val (c : ascii) : Z := Z.of_N (N_of_ascii c).
Definition chr (n : Z) : ascii := ascii_of_N (Z.to_N n).

Definition table_b2a_base64 : string :=
  "ABCDEFGHIJKLMNOPQRSTUVWXYZabcdefghijklmnopqrstuvwxyz0123456789+/".

Definition BASE64_PAD : ascii := "="%char.

(** [table_b2a_base64[n]]. *)
Definition b2a (n : Z) : ascii :=
  match String.get (Z.to_nat n) table_b2a_base64 with
  | Some c => c
  | None => zero
  end.

(** The encoder, three bytes at a time: four characters per three bytes,
    and a last group of one or two bytes padded with [=]. *)
Fixpoint b2a_base64 (data : bytes) : bytes :=
  match data with
  | [] => []
  | [x] =>
      let a := byte_val x in
      [b2a (Z.shiftr a 2); b2a (Z.shiftl (Z.land a 3) 4);
       BASE64_PAD; BASE64_PAD]
  | [x; y] =>
      let a := byte_val x in
      let b := byte_val y in
      [b2a (Z.shiftr a 2);
       b2a (Z.lor (Z.shiftl (Z.land a 3) 4) (Z.shiftr b 4));
       b2a (Z.shiftl (Z.land b 15) 2);
       BASE64_PAD]
  | x :: y :: z :: rest =>
      let a := byte_val x in
      let b := byte_val y in
      let c := byte_val z in
      b2a (Z.shiftr a 2)
      :: b2a (Z.lor (Z.shiftl (Z.land a 3) 4) (Z.shiftr b 4))
      :: b2a (Z.lor (Z.shiftl (Z.land b 15) 2) (Z.shiftr c 6))
      :: b2a (Z.land c 63)
      :: b2a_base64 rest
  end.

Fixpoint index_of (c : ascii) (s : string) (i : Z) : option Z :=
  match s with
  | EmptyString => None
  | String c' s' => if Ascii.eqb c c' then Some i else index_of c s' (i + 1)
  end.

(** [table_a2b_base64[c]]: the value of an alphabet character, 0 for the
    pad character, [None] where the table holds -1. *)
Definition table_a2b_base64 (c : ascii) : option Z :=
  if Ascii.eqb c BASE64_PAD then Some 0 else index_of c table_b2a_base64 0.

(** [binascii_find_valid(s, slen, num)]: the [num+1]-th character of [s]
    that belongs to the table. *)
Fixpoint binascii_find_valid (s : bytes) (num : nat) : option ascii :=
  match s with
  | [] => None
  | c :: s' =>
      if (byte_val c <=? 127) && bool_decide (is_Some (table_a2b_base64 c))
      then match num with
           | O => Some c
           | S k => binascii_find_valid s' k
           end
      else binascii_find_valid s' num
  end.

(** The decoder's registers. *)
Record a2b_state : Set := mk_a2b {
  leftchar : Z;
  leftbits : Z;
  quad_pos : Z
}.

(** One character that is not the pad character: it is skipped when it is
    not in the alphabet, otherwise its six bits are shifted in and a byte
    comes out once eight bits are there. *)
Definition a2b_shift (st : a2b_state) (c : ascii) : option (a2b_state * option ascii) :=
  if (127 <? byte_val c) || Ascii.eqb c "013"%char || Ascii.eqb c "010"%char
     || Ascii.eqb c " "%char
  then None
  else match table_a2b_base64 c with
       | None => None
       | Some v =>
           let quad := Z.land (quad_pos st + 1) 3 in
           let lc := Z.lor (Z.shiftl (leftchar st) 6) v in
           let lb := leftbits st + 6 in
           if 8 <=? lb then
             let lb' := lb - 8 in
             Some ({| leftchar := Z.land lc (Z.shiftl 1 lb' - 1);
                      leftbits := lb';
                      quad_pos := quad |},
                   Some (chr (Z.land (Z.shiftr lc lb') 255)))
           else
             Some ({| leftchar := lc; leftbits := lb; quad_pos := quad |}, None)
       end.

(** The decoding loop. A pad character is ignored early in a group of
    four and otherwise ends the input; what is left in the registers at
    the end of the input is the error "Incorrect padding" ([None]). *)
Fixpoint a2b_loop (input : bytes) (st : a2b_state) : option bytes :=
  match input with
  | [] => if leftbits st =? 0 then Some [] else None
  | c :: rest =>
      if Ascii.eqb c BASE64_PAD then
        if (quad_pos st <? 2)
           || ((quad_pos st =? 2)
               && negb (bool_decide (binascii_find_valid input 1 = Some BASE64_PAD)))
        then a2b_loop rest st
        else Some []
      else
        match a2b_shift st c with
        | None => a2b_loop rest st
        | Some (st', None) => a2b_loop rest st'
        | Some (st', Some x) => cons x <$> a2b_loop rest st'
        end
  end.

Definition a2b_base64 (s : bytes) : option bytes :=
  a2b_loop s {| leftchar := 0; leftbits := 0; quad_pos := 0 |}.

Definition b64encode (s : bytes) : bytes := b2a_base64 s.

Definition b64decode (s : bytes) : result bytes :=
  match a2b_base64 s with
  | Some r => Ret r
  | None => Raise TypeError
  end.

(** ** csv.reader, the [excel] dialect

    The reader of the Python 2 library with the default dialect:
    delimiter [,], the double quote as quote character, doubled inside quoted
    fields, no escape character, not strict. The reader takes its input
    line by line from the file object and runs the characters of each
    line through a state machine; the NUL character marks the end of a
    line for the machine and is refused inside one. *)

(** The lines [StringIO] hands out when iterated: each ends after its
    newline, the last one where the content ends. [cur] holds the
    current line backwards. *)
Fixpoint readlines (content : bytes) (cur : bytes) : list bytes :=
  match content with
  | [] => match cur with [] => [] | _ => [rev cur] end
  | c :: content' =>
      if Ascii.eqb c "010"%char then rev (c :: cur) :: readlines content' []
      else readlines content' (c :: cur)
  end.

Inductive ParserState : Set :=
| START_RECORD | START_FIELD | IN_FIELD | IN_QUOTED_FIELD
| QUOTE_IN_QUOTED_FIELD | EAT_CRNL.

(** The reader's registers: the state, the field being read (backwards)
    and the fields of the record read so far (backwards). *)
Record Reader : Set := mkReader {
  state : ParserState;
  field : bytes;
  fields : list string
}.

Definition field_limit : Z := 131072.
Definition quotechar : ascii := "034"%char.

Definition parse_reset : Reader :=
  {| state := START_RECORD; field := []; fields := [] |}.

Definition parse_save_field (self : Reader) : Reader :=
  {| state := state self;
     field := [];
     fields := string_of_list_ascii (rev (field self)) :: fields self |}.

Definition parse_add_char (self : Reader) (c : ascii) : result Reader :=
  if field_limit <=? py_len (field self) then Raise CsvError
  else Ret {| state := state self; field := c :: field self; fields := fields self |}.

Definition set_state (self : Reader) (s : ParserState) : Reader :=
  {| state := s; field := field self; fields := fields self |}.

Definition is_newline (c : ascii) : bool :=
  Ascii.eqb c "010"%char || Ascii.eqb c "013"%char.
Definition is_nul (c : ascii) : bool := Ascii.eqb c zero.

Definition add_char_then (self : Reader) (c : ascii) (s : ParserState) : result Reader :=
  match parse_add_char self c with
  | Ret self' => Ret (set_state self' s)
  | Raise e => Raise e
  end.

(** [parse_process_char(self, c)]. *)
Definition parse_process_char (self : Reader) (c : ascii) : result Reader :=
  let start_field (self : Reader) :=
    if is_newline c || is_nul c then
      Ret (set_state (parse_save_field self)
             (if is_nul c then START_RECORD else EAT_CRNL))
    else if Ascii.eqb c quotechar then Ret (set_state self IN_QUOTED_FIELD)
    else if Ascii.eqb c ","%char then Ret (parse_save_field self)
    else add_char_then self c IN_FIELD in
  match state self with
  | START_RECORD =>
      if is_nul c then Ret self
      else if is_newline c then Ret (set_state self EAT_CRNL)
      else start_field (set_state self START_FIELD)
  | START_FIELD => start_field self
  | IN_FIELD =>
      if is_newline c || is_nul c then
        Ret (set_state (parse_save_field self)
               (if is_nul c then START_RECORD else EAT_CRNL))
      else if Ascii.eqb c ","%char then
        Ret (set_state (parse_save_field self) START_FIELD)
      else parse_add_char self c
  | IN_QUOTED_FIELD =>
      if is_nul c then Ret self
      else if Ascii.eqb c quotechar then Ret (set_state self QUOTE_IN_QUOTED_FIELD)
      else parse_add_char self c
  | QUOTE_IN_QUOTED_FIELD =>
      if Ascii.eqb c quotechar then add_char_then self c IN_QUOTED_FIELD
      else if Ascii.eqb c ","%char then
        Ret (set_state (parse_save_field self) START_FIELD)
      else if is_newline c || is_nul c then
        Ret (set_state (parse_save_field self)
               (if is_nul c then START_RECORD else EAT_CRNL))
      else add_char_then self c IN_FIELD
  | EAT_CRNL =>
      if is_newline c then Ret self
      else if is_nul c then Ret (set_state self START_RECORD)
      else Raise CsvError
  end.

(** The characters of one line, a NUL among them being an error. *)
Fixpoint parse_line (self : Reader) (line : bytes) : result Reader :=
  match line with
  | [] => Ret self
  | c :: line' =>
      if is_nul c then Raise CsvError
      else match parse_process_char self c with
           | Ret self' => parse_line self' line'
           | Raise e => Raise e
           end
  end.

Definition is_start_record (s : ParserState) : bool :=
  match s with START_RECORD => true | _ => false end.
Definition is_in_quoted_field (s : ParserState) : bool :=
  match s with IN_QUOTED_FIELD => true | _ => false end.

(** [list(csv.reader(f))] over the lines of [f]: a record is complete
    when the machine is back at [START_RECORD] after a line; input that
    ends inside a record closes the record. *)
Fixpoint records (lines : list bytes) (self : Reader) : result (list (list string)) :=
  match lines with
  | [] =>
      if negb (py_len (field self) =? 0) || is_in_quoted_field (state self)
      then Ret [rev (fields (parse_save_field self))]
      else Ret []
  | line :: lines' =>
      match parse_line self line with
      | Raise e => Raise e
      | Ret self1 =>
          match parse_process_char self1 zero with
          | Raise e => Raise e
          | Ret self2 =>
              if is_start_record (state self2) then
                match records lines' parse_reset with
                | Ret rs => Ret (rev (fields self2) :: rs)
                | Raise e => Raise e
                end
              else records lines' self2
          end
      end
  end.

Definition csv_reader (value : StringIO) : result (list (list string)) :=
  records (readlines (py_slice_from (buf value) (pos value)) []) parse_reset.

(** ** What the file system answers *)

(** [fuse.Stat]: the three attributes the code sets or leaves at the
    library's default ([st_size] starts at 0). *)
Record Stat : Set := mkStat {
  st_mode : Z;
  st_nlink : Z;
  st_size : Z
}.

(** [stat.S_IFDIR] (octal 040000) and [stat.S_IFREG] (octal 0100000). *)
Definition S_IFDIR : Z := 16384.
Definition S_IFREG : Z := 32768.
(** The permission bits [0600], [0200] and [0000] of the source, and the
    mask [0777] of all permission bits. *)
Definition perm_rw : Z := 384.
Definition perm_w : Z := 128.
Definition perm_none : Z := 0.
Definition perm_mask : Z := 511.
(** The three read bits, [0444]. *)
Definition perm_read_bits : Z := 292.

(** What [getattr] returns: a [Stat] or a negative error number. *)
Inductive attr : Set :=
| Attr (s : Stat)
| Errno (code : Z).

Definition is_dir (s : Stat) : Prop := Z.land (st_mode s) S_IFDIR = S_IFDIR.
Definition is_reg (s : Stat) : Prop := Z.land (st_mode s) S_IFREG = S_IFREG.
Definition perms (s : Stat) : Z := Z.land (st_mode s) perm_mask.

(** ** The OpenERP database, as far as the attachment mount looks at it

    - [ir_model]: the [model] column of the rows of [ir.model].
    - [pool]: the registry; [pool.get(name)] is the model object, here
      the ids of its rows, or [None].
    - [ir_attachment]: the rows of [ir.attachment]; the id of a row is
      its position, and a deleted row leaves [None] behind.
    Nothing in the source ties the three together. *)
Record attachment : Set := mkAttachment {
  att_type : string;
  res_model : string;
  res_id : Z;
  att_name : string;
  datas_fname : option string;
  datas : option bytes
}.

Record database : Type := mkDatabase {
  ir_model : list string;
  pool : gmap string (list Z);
  ir_attachment : list (option attachment)
}.

(** The positions, from [i] on, of the rows that satisfy [p]. *)
Fixpoint positions {A} (p : A -> bool) (i : nat) (rows : list A) : list nat :=
  match rows with
  | [] => []
  | r :: rows' =>
      if p r then i :: positions p (S i) rows' else positions p (S i) rows'
  end.

(** [model_obj.search(cr, uid, [('model', '=', m)])]. *)
Definition search_model (d : database) (m : string) : list nat :=
  positions (String.eqb m) 0 (ir_model d).

(** [element_obj.search(cr, uid, [('id', '=', k)])] on the rows [ids]. *)
Definition search_id (ids : list Z) (k : Z) : list Z :=
  filter (fun i => i = k) ids.

Definition att_match (m : string) (k : Z) (n : string) (row : option attachment) : bool :=
  match row with
  | Some r => String.eqb (res_model r) m && (res_id r =? k) && String.eqb (att_name r) n
  | None => false
  end.

(** [attachment_obj.search(cr, uid, [('res_model', '=', m),
    ('res_id', '=', k), ('name', '=', n)])]. *)
Definition search_attachment (d : database) (m : string) (k : Z) (n : string) : list nat :=
  positions (att_match m k n) 0 (ir_attachment d).

(** [attachment_obj.read(cr, uid, ids, fields)]: one record per id. *)
Definition read_attachment (d : database) (ids : list nat) : list attachment :=
  omap (fun i => mjoin (ir_attachment d !! i)) ids.

(** [attachment_obj.write(cr, uid, ids, values)]: the rows listed in
    [ids] take the new values. *)
Definition write_attachment (d : database) (ids : list nat)
    (values : attachment -> attachment) : database :=
  {| ir_model := ir_model d;
     pool := pool d;
     ir_attachment :=
       imap (fun i row => if bool_decide (i ∈ ids) then values <$> row else row)
            (ir_attachment d) |}.

(** A field value read from a row is true when it is a non-empty
    string. *)
Definition truthy (v : option bytes) : bool :=
  match v with
  | Some (_ :: _) => true
  | _ => false
  end.

(** ** OerpFS: the buffer table shared by the three mount types *)

Module OerpFS.

(** [self.files]. *)
Abbreviation files := (gmap string StringIO).

Definition ENOENT : Z := 2.

(** [open(path, flags)]. *)
Definition open (path : string) : M files unit :=
  fun fs => (Ret tt, <[path := StringIO_new []]> fs).

(** [self.files[path]]. *)
Definition lookup_file (path : string) : M files StringIO :=
  fun fs => match fs !! path with
            | Some b => (Ret b, fs)
            | None => (Raise KeyError, fs)
            end.

(** [create(path, mode, fi)]. *)
Definition create (path : string) : M files unit :=
  fun fs => (Ret tt, <[path := StringIO_new []]> fs).

(** [write(path, buf, offset)]: the value returned is [-ENOENT] or
    [len(buf)]. *)
Definition write (path : string) (data : bytes) (offset : Z) : M files Z :=
  (fs <- get ;;
   if decide (is_Some (fs !! path)) then
     b <- lookup_file path ;;
     put (<[path := sio_write (seek b offset) data]> fs) ;;;
     ret (py_len data)
   else ret (- ENOENT))%py.

(** [truncate(path, length)]. *)
Definition truncate (path : string) (length : Z) : M files unit :=
  (b <- lookup_file path ;;
   b' <- lift_result (sio_truncate b length) ;;
   fs <- get ;;
   put (<[path := b']> fs))%py.

(** [release(path, fh)]. *)
Definition release (path : string) : M files unit :=
  (_ <- lookup_file path ;;
   fs <- get ;;
   put (delete path fs))%py.

(** The methods above run on an object of a subclass, whose state [S]
    holds the buffer table among other things. *)
Section Subclass.
Context {S : Type} (files_of : S -> files) (set_files : S -> files -> S).

Definition inherited {A} (m : M files A) : M S A :=
  fun st => let '(r, fs) := m (files_of st) in (r, set_files st fs).

(** [self.files[path]]. *)
Definition self_file (path : string) : M S StringIO :=
  fun st => match files_of st !! path with
            | Some b => (Ret b, st)
            | None => (Raise KeyError, st)
            end.

(** [read(path, size, offset)]. The call [self.open(path, None)] is
    dispatched on the object: it runs the [open] of the subclass,
    [self_open]. *)
Definition read (self_open : string -> M S unit)
    (path : string) (size offset : Z) : M S bytes :=
  (st <- get ;;
   (if decide (is_Some (files_of st !! path)) then ret tt else self_open path) ;;;
   b <- self_file path ;;
   let '(r, b') := sio_read (seek b offset) size in
   st' <- get ;;
   put (set_files st' (<[path := b']> (files_of st'))) ;;;
   ret r)%py.

End Subclass.

End OerpFS.

(** ** OerpFSModel: attachments of records as files *)

Module OerpFSModel.

Record state : Type := mkState {
  files : gmap string StringIO;
  db : database
}.

Definition set_files (st : state) (fs : gmap string StringIO) : state :=
  {| files := fs; db := db st |}.

(** A method of the base class run on the [files] of this object. *)
Definition inherited {A} (m : M OerpFS.files A) : M state A :=
  OerpFS.inherited files set_files m.

Definition write (path : string) (data : bytes) (offset : Z) : M state Z :=
  inherited (OerpFS.write path data offset).
Definition truncate (path : string) (length : Z) : M state unit :=
  inherited (OerpFS.truncate path length).
Definition release (path : string) : M state unit :=
  inherited (OerpFS.release path).

(** [int(s)]. *)
Definition int {S} (s : string) : M S Z :=
  match py_int s with
  | Some k => ret k
  | None => raise ValueError
  end.

Definition item {S A} (l : list A) (i : nat) : M S A := lift_result (py_item l i).

(** The size [getattr] reports:
    [datas and len(base64.b64decode(datas)) or 0]. *)
Definition payload_size {S} (v : option bytes) : M S Z :=
  match v with
  | Some (c :: s) =>
      (d <- lift_result (b64decode (c :: s)) ;; ret (py_len d))%py
  | _ => ret 0
  end.

(** [getattr(path)]. *)
Definition getattr (path : string) : M state attr :=
  (st <- get ;;
   let d := db st in
   let fakeStat := {| st_mode := Z.lor S_IFDIR perm_rw; st_nlink := 0; st_size := 0 |} in
   if String.eqb path "/" then ret (Attr fakeStat) else
   let paths := path_segments path in
   if 3 <? py_len paths then ret (Errno (- OerpFS.ENOENT)) else
   m <- item paths 0 ;;
   match search_model d m with
   | [] => ret (Errno (- OerpFS.ENOENT))
   | _ :: _ =>
     if py_len paths =? 1 then ret (Attr fakeStat) else
     match pool d !! m with
     | None => raise AttributeError
     | Some rows =>
       r <- item paths 1 ;;
       k <- int r ;;
       match search_id rows k with
       | [] => ret (Errno (- OerpFS.ENOENT))
       | _ :: _ =>
         if py_len paths =? 2 then ret (Attr fakeStat) else
         n <- item paths 2 ;;
         match search_attachment d m k n with
         | [] => ret (Errno (- OerpFS.ENOENT))
         | _ :: _ =>
           let attachment_ids := search_attachment d m k n in
           let attachment_data := read_attachment d attachment_ids in
           row <- item attachment_data 0 ;;
           size <- payload_size (datas row) ;;
           ret (Attr {| st_mode := Z.lor S_IFREG perm_rw;
                        st_nlink := 2;
                        st_size := size |})
         end
       end
     end
   end)%py.

(** [open(path, flags)]. *)
Definition open (path : string) : M state unit :=
  (inherited (OerpFS.open path) ;;;
   st <- get ;;
   let paths := path_segments path in
   m <- item paths 0 ;;
   r <- item paths 1 ;;
   k <- int r ;;
   n <- item paths 2 ;;
   let attachment_ids := search_attachment (db st) m k n in
   let attachment_data := read_attachment (db st) attachment_ids in
   row <- item attachment_data 0 ;;
   if truthy (datas row) then
     d <- lift_result (b64decode (default [] (datas row))) ;;
     put {| files := <[path := StringIO_new d]> (files st); db := db st |}
   else ret tt)%py.

(** [flush(path)]. The values written give [res_id] as the path segment
    itself; the column is an integer column and stores [int] of it, which
    is the number the search on the line before was made with. *)
Definition flush (path : string) : M state unit :=
  (b <- OerpFS.self_file files path ;;
   let value := StringIO_new (getvalue b) in
   st <- get ;;
   let paths := path_segments path in
   m <- item paths 0 ;;
   r <- item paths 1 ;;
   k <- int r ;;
   n <- item paths 2 ;;
   let attachment_ids := search_attachment (db st) m k n in
   put {| files := files st;
          db := write_attachment (db st) attachment_ids
                  (fun _ => {| att_type := "binary";
                               res_model := m;
                               res_id := k;
                               att_name := n;
                               datas_fname := Some n;
                               datas := Some (b64encode (getvalue value)) |}) |})%py.

(** [read(path, size, offset)], inherited; a path without a buffer is
    opened with the [open] above. *)
Definition read (path : string) (size offset : Z) : M state bytes :=
  OerpFS.read files set_files open path size offset.

End OerpFSModel.

(** ** OerpFSCsvImport: files copied to the root are imported *)

(** One call of [import_data(cr, uid, fields, datas, mode,
    current_module, noupdate, context)] on the model [ic_model]. *)
Record import_call : Set := mkImportCall {
  ic_model : string;
  ic_fields : list string;
  ic_datas : list (list string);
  ic_mode : string;
  ic_current_module : string;
  ic_noupdate : bool;
  ic_context : list (string * bool)
}.

Module OerpFSCsvImport.

(** The object and the server behind it: the buffer table, the names the
    registry holds, what [import_data] does with a call (the tuple it
    returns, here its first component, or the exception it raises), and
    the calls made so far. *)
Record state : Type := mkState {
  files : gmap string StringIO;
  pool : gset string;
  import_data : import_call -> result Z;
  imports : list import_call
}.

Definition with_files (st : state) (fs : gmap string StringIO) : state :=
  {| files := fs; pool := pool st; import_data := import_data st;
     imports := imports st |}.

Definition inherited {A} (m : M OerpFS.files A) : M state A :=
  OerpFS.inherited files with_files m.

(** The methods the class inherits; [open] is the one of the base
    class, so it is also the one [read] falls back on. *)
Definition open (path : string) : M state unit :=
  inherited (OerpFS.open path).
Definition create (path : string) : M state unit :=
  inherited (OerpFS.create path).
Definition read (path : string) (size offset : Z) : M state bytes :=
  OerpFS.read files with_files open path size offset.
Definition write (path : string) (data : bytes) (offset : Z) : M state Z :=
  inherited (OerpFS.write path data offset).
Definition truncate (path : string) (length : Z) : M state unit :=
  inherited (OerpFS.truncate path length).

(** [getattr(path)]. *)
Definition getattr (path : string) : M state attr :=
  (st <- get ;;
   let fakeStat := {| st_mode := Z.lor S_IFDIR perm_w; st_nlink := 0; st_size := 0 |} in
   if String.eqb path "/" then ret (Attr fakeStat)
   else if decide (is_Some (files st !! path)) then
     ret (Attr {| st_mode := Z.lor S_IFREG perm_w; st_nlink := 1; st_size := 0 |})
   else ret (Errno (- OerpFS.ENOENT)))%py.

(** [oerpObject.import_data(...)]: the call is made, and returns or
    raises as the server decides. *)
Definition call_import (c : import_call) : M state Z :=
  fun st =>
    (import_data st c,
     {| files := files st; pool := pool st; import_data := import_data st;
        imports := imports st ++ [c] |}).

Section Release.

(** [flush] as [fuse.Fuse] provides it to subclasses: [OerpFS] defines
    none, so the call at the end of [release] reaches the library. *)
Variable Fuse_flush : string -> result unit.

(** [release(path, fh)]. *)
Definition release (path : string) : M state unit :=
  (b <- OerpFS.self_file files path ;;
   let value := StringIO_new (getvalue b) in
   lines <- lift_result (csv_reader value) ;;
   let model := str_tail (remove_all ".csv" 0 path) in
   st <- get ;;
   if decide (model ∈ pool st) then
     header <- lift_result (py_item lines 0) ;;
     _ <- call_import {| ic_model := model;
                         ic_fields := header;
                         ic_datas := drop 1 lines;
                         ic_mode := "init";
                         ic_current_module := "";
                         ic_noupdate := false;
                         ic_context := [("import", true)] |} ;;
     _ <- OerpFS.self_file files path ;;
     st' <- get ;;
     put (with_files st' (delete path (files st'))) ;;;
     lift_result (Fuse_flush path)
   else raise AttributeError)%py.

End Release.

End OerpFSCsvImport.

(** ** OerpFSDocument: the document tree *)

(** A node of the document tree, as far as [getattr] looks at it:
    [our_type] and what [get_data_len] returns. *)
Record node : Set := mkNode {
  our_type : string;
  get_data_len : Z
}.

Module OerpFSDocument.

(** The object and the tree behind it: [get_uri] is
    [get_node_context(cr, uid, {}).get_uri(cr, segments)], [None] when
    nothing is found. *)
Record state : Type := mkState {
  files : gmap string StringIO;
  get_uri : list string -> option node
}.

(** [_get_node(cr, path)]. *)
Definition _get_node (st : state) (path : string) : option node :=
  let path := if String.eqb path "/" then EmptyString else path in
  get_uri st (path_segments path).

(** [getattr(path)]. *)
Definition getattr (path : string) : M state attr :=
  (st <- get ;;
   match _get_node st path with
   | None => ret (Errno (- OerpFS.ENOENT))
   | Some nd =>
     let fakeStat := {| st_mode := Z.lor S_IFREG perm_none; st_nlink := 0; st_size := 0 |} in
     if String.eqb (our_type nd) "database" || String.eqb (our_type nd) "collection" then
       ret (Attr {| st_mode := Z.lor S_IFDIR perm_rw;
                    st_nlink := st_nlink fakeStat;
                    st_size := st_size fakeStat |})
     else if String.eqb (our_type nd) "file" then
       ret (Attr {| st_mode := Z.lor S_IFREG perm_rw;
                    st_nlink := st_nlink fakeStat;
                    st_size := get_data_len nd |})
     else ret (Attr fakeStat)
   end)%py.

End OerpFSDocument.

(** ** Kernel calls on the attachment mount *)

(** Every buffer of the table is as the library builds them. *)
Definition files_ok (fs : OerpFS.files) : Prop :=
  forall p b, fs !! p = Some b -> sio_ok b.

(** The calls of the kernel that the attachment mount is modelled for. *)
Inductive call : Set :=
| CGetattr (path : string)
| COpen (path : string)
| CRead (path : string) (size offset : Z)
| CWrite (path : string) (data : bytes) (offset : Z)
| CTruncate (path : string) (length : Z)
| CFlush (path : string)
| CRelease (path : string).

(** The state a call leaves behind, whether it returns or raises. *)
Definition after (c : call) (st : OerpFSModel.state) : OerpFSModel.state :=
  match c with
  | CGetattr path => (OerpFSModel.getattr path st).2
  | COpen path => (OerpFSModel.open path st).2
  | CRead path size offset => (OerpFSModel.read path size offset st).2
  | CWrite path data offset => (OerpFSModel.write path data offset st).2
  | CTruncate path length => (OerpFSModel.truncate path length st).2
  | CFlush path => (OerpFSModel.flush path st).2
  | CRelease path => (OerpFSModel.release path st).2
  end.

Definition after_all (cs : list call) (st : OerpFSModel.state) : OerpFSModel.state :=
  foldl (fun st c => after c st) st cs.

(** * The properties as their descriptions state them *)

(** ** What a positioned write is, in the words of a file system

    Written from the description of [write], not from the code: the bytes
    before [offset] are kept (the buffer is first lengthened with zero
    bytes when it ends before [offset]), then come the bytes supplied,
    then whatever the buffer held beyond the overwritten range. Writing
    no bytes changes nothing. *)
Definition splice (old : bytes) (offset : Z) (data : bytes) : bytes :=
  match data with
  | [] => old
  | _ => take (Z.to_nat offset) old ++ zeros (offset - py_len old)
         ++ data ++ drop (Z.to_nat (offset + py_len data)) old
  end.

(** [write] as its description has it: on a path without a buffer the
    call answers [-ENOENT] and changes nothing; on a path with a buffer it
    answers the number of bytes supplied, and the bytes supplied are then
    in the buffer at [offset]. *)
Definition write_at_offset (fs : OerpFS.files) (path : string)
    (data : bytes) (offset : Z) : Prop :=
  match fs !! path with
  | None => OerpFS.write path data offset fs = (Ret (- OerpFS.ENOENT), fs)
  | Some b =>
      exists b', OerpFS.write path data offset fs
                 = (Ret (py_len data), <[path := b']> fs)
                 /\ py_slice (getvalue b') offset (offset + py_len data) = data
  end.

(** The table after [create("/f")], [write("/f", "abc", 0)] and
    [truncate("/f", 10)]: the recorded length is 10, the content still
    three bytes. *)
Definition hole_files : OerpFS.files :=
  {[ "/f" := {| buf := str_bytes "abc"; len := 10; pos := 3 |} ]}.

(** The size a payload column stands for: the length of what it decodes
    to, and 0 when the column is empty. *)
Definition decoded_size (v : option bytes) (size : Z) : Prop :=
  match v with
  | Some (c :: s) => exists d, b64decode (c :: s) = Ret d /\ size = py_len d
  | _ => size = 0
  end.

Definition regular_file (size : Z) : attr :=
  Attr {| st_mode := Z.lor S_IFREG perm_rw; st_nlink := 2; st_size := size |}.

(** [getattr] on a path of three segments as its description has it: a
    regular file of the payload's size exactly when an attachment with
    the path's coordinates exists, and [-ENOENT] otherwise. *)
Definition file_attr_by_attachment (st : OerpFSModel.state) (path : string) : Prop :=
  forall m r k n,
    path_segments path = [m; r; n] -> py_int r = Some k ->
    match read_attachment (OerpFSModel.db st)
            (search_attachment (OerpFSModel.db st) m k n) with
    | row :: _ =>
        forall size, decoded_size (datas row) size ->
                     (OerpFSModel.getattr path st).1 = Ret (regular_file size)
    | [] => (OerpFSModel.getattr path st).1 = Ret (Errno (- OerpFS.ENOENT))
    end.

(** A database where [res.partner] is a model without rows, and an
    attachment still names its record 7. *)
Definition orphan_db : database :=
  {| ir_model := ["res.partner"];
     pool := {[ "res.partner" := [] ]};
     ir_attachment :=
       [Some {| att_type := "binary"; res_model := "res.partner"; res_id := 7;
                att_name := "doc.txt"; datas_fname := Some "doc.txt";
                datas := Some (str_bytes "aGVsbG8=") |}] |}.

(** A database with one partner, record 7, and one attachment of it. *)
Definition partner_db : database :=
  {| ir_model := ["res.partner"];
     pool := {[ "res.partner" := [7] ]};
     ir_attachment :=
       [Some {| att_type := "binary"; res_model := "res.partner"; res_id := 7;
                att_name := "doc.txt"; datas_fname := Some "doc.txt";
                datas := Some (str_bytes "aGVsbG8=") |}] |}.

(** [occurs old s]: [old] is found somewhere in [s]. *)
Fixpoint occurs (old s : string) : bool :=
  match s with
  | EmptyString => String.prefix old s
  | String _ s' => String.prefix old s || occurs old s'
  end.

(** After [release] the path has no buffer. *)
Definition discarded_after_release (Fuse_flush : string -> result unit)
    (st : OerpFSCsvImport.state) (path : string) : Prop :=
  OerpFSCsvImport.files (OerpFSCsvImport.release Fuse_flush path st).2 !! path = None.

(** [release] of the file [name ++ ".csv"] makes one call of
    [import_data], on the model [name], with the first row as fields and
    the other rows as data, in mode [init]. *)
Definition imported_once (Fuse_flush : string -> result unit)
    (st : OerpFSCsvImport.state) (name : string) : Prop :=
  let path := String "/" (name +:+ ".csv") in
  forall b lines,
    OerpFSCsvImport.files st !! path = Some b ->
    csv_reader (StringIO_new (getvalue b)) = Ret lines ->
    exists call,
      OerpFSCsvImport.imports (OerpFSCsvImport.release Fuse_flush path st).2
      = OerpFSCsvImport.imports st ++ [call]
      /\ head lines = Some (ic_fields call)
      /\ ic_datas call = drop 1 lines
      /\ ic_model call = name
      /\ ic_mode call = "init".

(** Bytes written to a path are not what a read of the path returns. *)
Definition nothing_read_back (st : OerpFSCsvImport.state) (path : string) : Prop :=
  forall data, data <> [] ->
    ((OerpFSCsvImport.write path data 0 ;;;
      OerpFSCsvImport.read path (py_len data) 0)%py st).1 <> Ret data.

Definition LF : string := String "010"%char EmptyString.

(** The file of the description: a header and two rows. *)
Definition contact_csv : bytes :=
  str_bytes ("name,age" +:+ LF +:+ "Alice,30" +:+ LF +:+ "Bob,40" +:+ LF).

(** A mount where [/contact.csv] holds [content] and the server answers
    every import with [outcome]. *)
Definition contact_mount (content : bytes) (outcome : result Z) : OerpFSCsvImport.state :=
  {| OerpFSCsvImport.files := {[ "/contact.csv" := StringIO_new content ]};
     OerpFSCsvImport.pool := {[ "contact" ]};
     OerpFSCsvImport.import_data := fun _ => outcome;
     OerpFSCsvImport.imports := [] |}.

(** [fuse.Fuse] has no [flush]: the attribute lookup fails. *)
Definition no_flush : string -> result unit := fun _ => Raise AttributeError.

(** *** Exhaustive checks over bytes

    The 256 characters, and the checks the round-trip proof runs over
    them. *)
Definition all_ascii : list ascii := map ascii_of_nat (seq 0 256).

Definition a2b_state_eqb (s t : a2b_state) : bool :=
  (leftchar s =? leftchar t) && (leftbits s =? leftbits t)
  && (quad_pos s =? quad_pos t).

Definition a2b_start : a2b_state :=
  {| leftchar := 0; leftbits := 0; quad_pos := 0 |}.

(** [a2b_shift st c] consumes [c], goes to [st'] and gives out [o]. *)
Definition shifts_to (st : a2b_state) (c : ascii) (st' : a2b_state)
    (o : option ascii) : bool :=
  negb (Ascii.eqb c BASE64_PAD) &&
  match a2b_shift st c, o with
  | Some (st1, None), None => a2b_state_eqb st1 st'
  | Some (st1, Some x), Some y => a2b_state_eqb st1 st' && Ascii.eqb x y
  | _, _ => false
  end.

(** The four characters that encode the bytes [x], [y], [z]. *)
Definition enc0 (x : ascii) : ascii := b2a (Z.shiftr (byte_val x) 2).
Definition enc1 (x y : ascii) : ascii :=
  b2a (Z.lor (Z.shiftl (Z.land (byte_val x) 3) 4) (Z.shiftr (byte_val y) 4)).
Definition enc2 (y z : ascii) : ascii :=
  b2a (Z.lor (Z.shiftl (Z.land (byte_val y) 15) 2) (Z.shiftr (byte_val z) 6)).
Definition enc3 (z : ascii) : ascii := b2a (Z.land (byte_val z) 63).

(** The registers after the second and the third character of a group. *)
Definition after1 (y : ascii) : a2b_state :=
  {| leftchar := Z.shiftr (byte_val y) 4; leftbits := 4; quad_pos := 2 |}.
Definition after2 (z : ascii) : a2b_state :=
  {| leftchar := Z.shiftr (byte_val z) 6; leftbits := 2; quad_pos := 3 |}.

Definition check_first (x : ascii) : bool :=
  shifts_to a2b_start (enc0 x)
    {| leftchar := Z.shiftr (byte_val x) 2; leftbits := 6; quad_pos := 1 |} None.
Definition check_second (x y : ascii) : bool :=
  shifts_to {| leftchar := Z.shiftr (byte_val x) 2; leftbits := 6; quad_pos := 1 |}
    (enc1 x y) (after1 y) (Some x).
Definition check_third (y z : ascii) : bool :=
  shifts_to (after1 y) (enc2 y z) (after2 z) (Some y).
Definition check_fourth (z : ascii) : bool :=
  shifts_to (after2 z) (enc3 z) a2b_start (Some z).
Definition check_one (x : ascii) : bool :=
  bool_decide (a2b_base64 (b2a_base64 [x]) = Some [x]).
Definition check_two (x y : ascii) : bool :=
  bool_decide (a2b_base64 (b2a_base64 [x; y]) = Some [x; y]).


(** * The rest of the code *)

(** ** More built-ins *)

(** The character of a decimal digit. *)
Definition digit_char (d : Z) : ascii := chr (48 + d).

(** The decimal digits of [n], most significant first, put before [acc];
    [fuel] bounds the number of digits. *)
Fixpoint digits_of (fuel : nat) (n : Z) (acc : string) : string :=
  match fuel with
  | O => acc
  | S fuel' =>
      let acc' := String (digit_char (n mod 10)) acc in
      if n <? 10 then acc' else digits_of fuel' (n / 10) acc'
  end.

(** [str(n)] on an integer: a minus sign for a negative number, then the
    decimal digits. The number of binary digits bounds the number of
    decimal ones. *)
Definition py_str (n : Z) : string :=
  let fuel := S (Z.to_nat (Z.log2 (Z.abs n))) in
  if n <? 0 then String "-" (digits_of fuel (- n) EmptyString)
  else digits_of fuel n EmptyString.

(** [sep.join(l)]. *)
Fixpoint join (sep : string) (l : list string) : string :=
  match l with
  | [] => EmptyString
  | [s] => s
  | s :: l' => s +:+ sep +:+ join sep l'
  end.

(** The server hands the names of models and attachments out as
    [unicode]; a character of the string stands for the code point of the
    same number. [str(u)] encodes with the ASCII codec, which raises
    [UnicodeEncodeError] at a code point above 127. *)
Definition is_ascii (c : ascii) : bool := (nat_of_ascii c <? 128)%nat.

Definition ascii_only (u : string) : bool :=
  forallb is_ascii (list_ascii_of_string u).

Definition str_of_unicode (u : string) : result string :=
  if ascii_only u then Ret u else Raise UnicodeEncodeError.

(** The loop [for x in names: yield fuse.Direntry(str(x))]: the entries
    yielded, and how the loop ends. *)
Fixpoint yield_names (names : list string) : list string * result unit :=
  match names with
  | [] => ([], Ret tt)
  | u :: names' =>
      match str_of_unicode u with
      | Raise e => ([], Raise e)
      | Ret s =>
          let '(yielded, ending) := yield_names names' in (s :: yielded, ending)
      end
  end.

(** ** The base class on its own *)

(** [read] on an object of the base class itself: [self.open] is the
    [open] of the base class. *)
Definition base_read (path : string) (size offset : Z) : M OerpFS.files bytes :=
  OerpFS.read (fun fs => fs) (fun _ fs => fs) OerpFS.open path size offset.

(** ** More of the attachment table *)

Definition att_of_record (m : string) (k : Z) (row : option attachment) : bool :=
  match row with
  | Some r => String.eqb (res_model r) m && (res_id r =? k)
  | None => false
  end.

(** [attachment_obj.search(cr, uid, [('res_model', '=', m),
    ('res_id', '=', k)])]. *)
Definition search_record_attachments (d : database) (m : string) (k : Z) : list nat :=
  positions (att_of_record m k) 0 (ir_attachment d).


(** [attachment_obj.create(cr, uid, values)]: a new row after the
    others. *)
Definition create_attachment (d : database) (row : attachment) : database :=
  {| ir_model := ir_model d;
     pool := pool d;
     ir_attachment := ir_attachment d ++ [Some row] |}.

(** ** The other methods of OerpFSModel *)

Module OerpFSModelRest.
Import OerpFSModel.


Section Server.

(** [create] and [rename] hand the record id to the server as the path
    segment, a string, for the integer column [res_id]. What the server
    stores for a string is the server's matter: [integer_column] is the
    number stored, or the exception raised. *)
Variable integer_column : string -> result Z.

(** [create(path, mode, fi)]. *)
Definition create (path : string) : M state unit :=
  (inherited (OerpFS.create path) ;;;
   st <- get ;;
   let paths := path_segments path in
   m <- item paths 0 ;;
   r <- item paths 1 ;;
   n <- item paths 2 ;;
   k <- lift_result (integer_column r) ;;
   put {| files := files st;
          db := create_attachment (db st)
                  {| att_type := "binary"; res_model := m; res_id := k;
                     att_name := n; datas_fname := None; datas := None |} |})%py.

(** [rename(old_path, new_path)]. *)
Definition rename (old_path new_path : string) : M state unit :=
  (st <- get ;;
   let old_paths := path_segments old_path in
   let new_paths := path_segments new_path in
   m <- item old_paths 0 ;;
   r <- item old_paths 1 ;;
   k <- int r ;;
   n <- item old_paths 2 ;;
   let attachment_ids := search_attachment (db st) m k n in
   m' <- item new_paths 0 ;;
   r' <- item new_paths 1 ;;
   n' <- item new_paths 2 ;;
   k' <- lift_result (integer_column r') ;;
   put {| files := files st;
          db := write_attachment (db st) attachment_ids
                  (fun row => {| att_type := att_type row;
                                 res_model := m';
                                 res_id := k';
                                 att_name := n';
                                 datas_fname := Some n';
                                 datas := datas row |}) |})%py.

End Server.

(** [readdir(path, offset)]: the names yielded, and how the generator
    ends. The two entries [.] and [..] are yielded before anything is
    looked up, so they are there also when a lookup raises; the names of
    models and attachments go through [str] one by one, so the names
    before a name that [str] refuses are yielded as well. *)
Definition readdir (path : string) (st : state) : list string * result unit :=
  let dots := ["."; ".."] in
  let paths := path_segments path in
  if String.eqb path "/" then
    let '(names, ending) := yield_names (ir_model (db st)) in
    (dots ++ names, ending)
  else if py_len paths =? 1 then
    match py_item paths 0 with
    | Raise e => (dots, Raise e)
    | Ret m =>
        match pool (db st) !! m with
        | None => (dots, Raise AttributeError)
        | Some rows => (dots ++ map py_str rows, Ret tt)
        end
    end
  else
    match py_item paths 0 with
    | Raise e => (dots, Raise e)
    | Ret m =>
        match py_item paths 1 with
        | Raise e => (dots, Raise e)
        | Ret r =>
            match py_int r with
            | None => (dots, Raise ValueError)
            | Some k =>
                let attachment_ids := search_record_attachments (db st) m k in
                let '(names, ending) :=
                  yield_names (map att_name (read_attachment (db st) attachment_ids)) in
                (dots ++ names, ending)
            end
        end
    end.

End OerpFSModelRest.

(** ** The other method of OerpFSCsvImport *)

Module OerpFSCsvImportRest.
Import OerpFSCsvImport.

(** [readdir(path, offset)]: the keys of [self.files] after the two
    dots, in the order of the table. *)
Definition readdir (path : string) (st : state) : list string * result unit :=
  (["."; ".."] ++ (map_to_list (files st)).*1, Ret tt).

End OerpFSCsvImportRest.

(** ** Sequences of calls, for the statements about them *)

(** The chunks of a file written one after the other, each at the offset
    where the one before ended, as a copy does. *)
Fixpoint write_all (path : string) (chunks : list bytes) (offset : Z)
    : M OerpFS.files unit :=
  match chunks with
  | [] => ret tt
  | c :: chunks' =>
      (_ <- OerpFS.write path c offset ;;
       write_all path chunks' (offset + py_len c))%py
  end.

(** The directory that [getattr] of the attachment mount answers with. *)
Definition directory : attr :=
  Attr {| st_mode := Z.lor S_IFDIR perm_rw; st_nlink := 0; st_size := 0 |}.

Definition not_found : attr := Errno (- OerpFS.ENOENT).

(** A call that is not a [flush]. *)
Definition no_flush_call (c : call) : Prop :=
  match c with
  | CFlush _ => False
  | _ => True
  end.

(** The row [flush] writes for the coordinates [m], [k], [n] and the
    content [content]. *)
Definition flushed_row (m : string) (k : Z) (n : string) (content : bytes) : attachment :=
  {| att_type := "binary"; res_model := m; res_id := k; att_name := n;
     datas_fname := Some n; datas := Some (b64encode content) |}.

(** What [open] of the attachment mount does to the path, by the database
    alone: the outcome, and the buffer it leaves at the path. *)
Definition opened (d : database) (path : string) : result unit * StringIO :=
  let empty := StringIO_new [] in
  let paths := path_segments path in
  match paths !! 0%nat, paths !! 1%nat with
  | Some m, Some r =>
      match py_int r with
      | None => (Raise ValueError, empty)
      | Some k =>
          match paths !! 2%nat with
          | None => (Raise IndexError, empty)
          | Some n =>
              match read_attachment d (search_attachment d m k n) with
              | [] => (Raise IndexError, empty)
              | row :: _ =>
                  if truthy (datas row) then
                    match b64decode (default [] (datas row)) with
                    | Ret c => (Ret tt, StringIO_new c)
                    | Raise e => (Raise e, empty)
                    end
                  else (Ret tt, empty)
              end
          end
      end
  | _, _ => (Raise IndexError, empty)
  end.

(** A server that stores [int] of the string in an integer column, as
    Python would convert it. *)
Definition int_column (s : string) : result Z :=
  match py_int s with
  | Some k => Ret k
  | None => Raise ValueError
  end.

(** The string has no slash: it is one segment of a path. *)
Fixpoint no_slash (s : string) : bool :=
  match s with
  | EmptyString => true
  | String c s' => negb (Ascii.eqb c "/") && no_slash s'
  end.

(** The regular file that [getattr] of the import mount answers with. *)
Definition csv_file : attr :=
  Attr {| st_mode := Z.lor S_IFREG perm_w; st_nlink := 1; st_size := 0 |}.

(** ** The paths of OerpFSDocument *)

(** [l[-1]]. *)
Definition py_last {A} (l : list A) : result A :=
  match last l with
  | Some x => Ret x
  | None => Raise IndexError
  end.

Module OerpFSDocumentRest.
Import OerpFSDocument.

(** ['/'.join(path.split('/')[:-1])], the path that [create] and
    [rename] look the parent up with. *)
Definition parent_path (path : string) : string :=
  join "/" (removelast (split "/" path)).

(** [path.split('/')[-1]], the name that [create] and [rename] hand to
    the tree. *)
Definition new_name (path : string) : result string :=
  py_last (split "/" path).

(** [self._get_node(cr, '/'.join(path.split('/')[:-1]))]. *)
Definition parent_node (st : state) (path : string) : option node :=
  _get_node st (parent_path path).

End OerpFSDocumentRest.
(** ** Facts about slices and StringIO *)

Section Slices.
Context {A : Type}.
Implicit Types l : list A.

Lemma py_len_app l1 l2 : py_len (l1 ++ l2) = py_len l1 + py_len l2.
Proof. unfold py_len. rewrite length_app. lia. Qed.

Lemma py_len_nonneg l : 0 <= py_len l.
Proof. unfold py_len. lia. Qed.

Lemma py_slice_nonneg l a b :
  0 <= a -> 0 <= b ->
  py_slice l a b = take (Z.to_nat b - Z.to_nat a) (drop (Z.to_nat a) l).
Proof.
  intros Ha Hb. unfold py_slice, py_index, py_len.
  destruct (Z.ltb_spec a 0); [lia|]. destruct (Z.ltb_spec b 0); [lia|].
  destruct (Z.le_gt_cases a (Z.of_nat (length l))) as [Hal|Hal].
  - rewrite (Z.min_l a) by lia.
    destruct (Z.le_gt_cases b (Z.of_nat (length l))) as [Hbl|Hbl].
    + rewrite Z.min_l by lia. f_equal. lia.
    + rewrite Z.min_r by lia.
      rewrite !take_ge; [done | rewrite length_drop; lia | rewrite length_drop; lia].
  - rewrite (Z.min_r a) by lia.
    rewrite !drop_ge by lia. by rewrite !take_nil.
Qed.

Lemma py_slice_to_nonneg l n : 0 <= n -> py_slice_to l n = take (Z.to_nat n) l.
Proof.
  intros Hn. unfold py_slice_to. rewrite py_slice_nonneg by lia.
  simpl. rewrite drop_0. f_equal. lia.
Qed.

Lemma py_slice_from_nonneg l n : 0 <= n -> py_slice_from l n = drop (Z.to_nat n) l.
Proof.
  intros Hn. unfold py_slice_from. rewrite py_slice_nonneg by (unfold py_len; lia).
  apply take_ge. rewrite length_drop. unfold py_len. lia.
Qed.

End Slices.

Lemma py_len_zeros n : py_len (zeros n) = Z.max 0 n.
Proof. unfold py_len, zeros. rewrite length_replicate. lia. Qed.

Lemma zeros_nonpos n : n <= 0 -> zeros n = [].
Proof. intros Hn. unfold zeros. replace (Z.to_nat n) with 0%nat by lia. done. Qed.

Lemma StringIO_new_exact b : sio_exact (StringIO_new b).
Proof. split; simpl; [done | lia]. Qed.

Lemma sio_exact_ok s : sio_exact s -> sio_ok s.
Proof. intros [H1 H2]. split; [lia | done]. Qed.

Lemma seek_ok s p : sio_ok s -> sio_ok (seek s p).
Proof. intros [H1 H2]. split; simpl; [done | lia]. Qed.

Lemma seek_exact s p : sio_exact s -> sio_exact (seek s p).
Proof. intros [H1 H2]. split; simpl; [done | lia]. Qed.

Lemma sio_read_ok s n : sio_ok s -> sio_ok (sio_read s n).2.
Proof.
  intros [H1 H2]. split; simpl; [done|].
  pose proof (py_len_nonneg (buf s)). destruct (Z.ltb_spec n 0); lia.
Qed.

Lemma sio_read_buf s n : buf (sio_read s n).2 = buf s.
Proof. done. Qed.

Lemma sio_write_ok s d : sio_ok s -> sio_ok (sio_write s d).
Proof.
  intros [H1 H2]. unfold sio_write. destruct d as [|c d]; [done|].
  set (d' := c :: d). pose proof (py_len_nonneg d') as Hd.
  destruct (Z.eqb_spec (pos s) (len s)) as [He|Hne].
  - split; cbn [buf len pos]; [rewrite py_len_app; lia | lia].
  - destruct (Z.ltb_spec (len s) (pos s)) as [Hlt|Hge].
    + destruct (Z.ltb_spec (pos s) (pos s)); [lia|].
      split; cbn [buf len pos]; [|lia].
      rewrite !py_len_app, py_len_zeros. lia.
    + destruct (Z.ltb_spec (pos s) (len s)); [|lia].
      split; cbn [buf len pos]; [|lia].
      rewrite py_slice_to_nonneg, py_slice_from_nonneg by lia.
      rewrite !py_len_app. unfold py_len in *.
      rewrite length_take, length_drop.
      destruct (Z.ltb_spec (len s) (pos s + Z.of_nat (length d'))); lia.
Qed.

Lemma sio_write_exact s d :
  sio_exact s ->
  buf (sio_write s d) = splice (buf s) (pos s) d /\ sio_exact (sio_write s d).
Proof.
  intros [H1 H2]. unfold sio_write, splice. destruct d as [|c d]; [done|].
  set (d' := c :: d). pose proof (py_len_nonneg d') as Hd.
  assert (Hlen : Z.of_nat (length (buf s)) = len s) by (unfold py_len in H1; lia).
  destruct (Z.eqb_spec (pos s) (len s)) as [He|Hne].
  - cbn [buf len pos]. split.
    + rewrite take_ge by lia. rewrite zeros_nonpos by lia.
      rewrite drop_ge by (unfold py_len in *; lia). by rewrite app_nil_r.
    + split; cbn [buf len pos]; [rewrite py_len_app; lia | lia].
  - destruct (Z.ltb_spec (len s) (pos s)) as [Hlt|Hge].
    + destruct (Z.ltb_spec (pos s) (pos s)); [lia|]. cbn [buf len pos]. split.
      * rewrite take_ge by lia. rewrite drop_ge by (unfold py_len in *; lia).
        rewrite H1, app_nil_r. by rewrite <- app_assoc.
      * split; cbn [buf len pos]; [|lia]. rewrite !py_len_app, py_len_zeros. lia.
    + destruct (Z.ltb_spec (pos s) (len s)); [|lia]. cbn [buf len pos].
      rewrite py_slice_to_nonneg, py_slice_from_nonneg by lia. split.
      * rewrite zeros_nonpos by lia. done.
      * split; cbn [buf len pos]; [|lia].
        rewrite !py_len_app. unfold py_len in *.
        rewrite length_take, length_drop.
        destruct (Z.ltb_spec (len s) (pos s + Z.of_nat (length d'))); lia.
Qed.

(** A write at the start of the buffer leaves the bytes written at its
    head, whatever the buffer held. *)
Lemma sio_write_head s d :
  sio_ok s -> pos s = 0 -> take (length d) (buf (sio_write s d)) = d.
Proof.
  intros [H1 H2] Hp. unfold sio_write. destruct d as [|c d]; [done|].
  set (d' := c :: d). rewrite Hp.
  pose proof (py_len_nonneg (buf s)) as Hb.
  destruct (Z.eqb_spec 0 (len s)) as [He|Hne].
  - cbn [buf len pos]. assert (buf s = []) as ->.
    { apply length_zero_iff_nil. unfold py_len in *. lia. }
    rewrite app_nil_l. by rewrite take_ge.
  - destruct (Z.ltb_spec (len s) 0); [lia|].
    destruct (Z.ltb_spec 0 (len s)); [|lia]. cbn [buf len pos].
    rewrite py_slice_to_nonneg by lia. rewrite take_0, app_nil_l.
    by rewrite take_app_length.
Qed.

Lemma sio_truncate_ok s n s' : sio_ok s -> sio_truncate s n = Ret s' -> sio_ok s'.
Proof.
  intros [H1 H2]. unfold sio_truncate.
  destruct (Z.ltb_spec n 0); [done|]. intros [= <-]. split; simpl.
  - rewrite py_slice_to_nonneg by lia. unfold py_len. rewrite length_take. lia.
  - destruct (Z.ltb_spec n (pos s)); lia.
Qed.

(** Reading back what a fresh buffer holds. *)
Lemma sio_read_new_head content d size :
  take (length d) content = d -> size = py_len d ->
  (sio_read (seek (StringIO_new content) 0) size).1 = d.
Proof.
  intros Hd ->. unfold sio_read, seek, StringIO_new. simpl.
  pose proof (py_len_nonneg d). pose proof (py_len_nonneg content).
  destruct (Z.ltb_spec (py_len d) 0); [lia|].
  rewrite py_slice_nonneg by lia. simpl. rewrite drop_0.
  assert (length d <= length content)%nat.
  { rewrite <- Hd at 1. rewrite length_take. lia. }
  rewrite Z.min_l by (unfold py_len; lia).
  rewrite <- Hd at 2. f_equal. unfold py_len. lia.
Qed.

(** ** The library models on known values *)

Example split_path : path_segments "/res.partner/7/doc.txt" = ["res.partner"; "7"; "doc.txt"].
Proof. reflexivity. Qed.

Example split_root : path_segments "/" = [""].
Proof. reflexivity. Qed.

Example split_empty_segment : path_segments "/a//b" = ["a"; ""; "b"].
Proof. reflexivity. Qed.

Example int_values :
  py_int "7" = Some 7 /\ py_int " 42 " = Some 42 /\ py_int "-3" = Some (-3)
  /\ py_int "+3" = Some 3 /\ py_int "007" = Some 7.
Proof. repeat split; reflexivity. Qed.

Example int_errors :
  py_int "abc" = None /\ py_int "" = None /\ py_int "7a" = None
  /\ py_int "-" = None /\ py_int "1 2" = None /\ py_int "0x10" = None.
Proof. repeat split; reflexivity. Qed.

Example replace_csv :
  remove_all ".csv" 0 "/res.partner.csv" = "/res.partner"
  /\ remove_all ".csv" 0 "/contact" = "/contact"
  /\ remove_all ".csv" 0 "/a.csvb.csv" = "/ab".
Proof. repeat split; reflexivity. Qed.

(** The test vectors of RFC 4648. *)
Example b64encode_vectors :
  b64encode (str_bytes "") = str_bytes ""
  /\ b64encode (str_bytes "f") = str_bytes "Zg=="
  /\ b64encode (str_bytes "fo") = str_bytes "Zm8="
  /\ b64encode (str_bytes "foo") = str_bytes "Zm9v"
  /\ b64encode (str_bytes "foob") = str_bytes "Zm9vYg=="
  /\ b64encode (str_bytes "fooba") = str_bytes "Zm9vYmE="
  /\ b64encode (str_bytes "foobar") = str_bytes "Zm9vYmFy".
Proof. repeat split; reflexivity. Qed.

(** The decoder skips what is not in the alphabet and refuses an input
    whose last group is cut short. *)
Example b64decode_values :
  b64decode (str_bytes "Zm9vYg==") = Ret (str_bytes "foob")
  /\ b64decode (str_bytes ("Zm9v" +:+ LF +:+ "Yg==")) = Ret (str_bytes "foob")
  /\ b64decode (str_bytes "Zm9vYg") = Raise TypeError
  /\ b64decode (str_bytes "Z") = Raise TypeError.
Proof. repeat split; reflexivity. Qed.

Example csv_contact :
  csv_reader (StringIO_new contact_csv)
  = Ret [["name"; "age"]; ["Alice"; "30"]; ["Bob"; "40"]].
Proof. reflexivity. Qed.

(** A quoted field keeps its commas, a doubled quote stands for one
    quote, and a blank line is an empty record. *)
Example csv_quoted :
  let q := String quotechar EmptyString in
  csv_reader (StringIO_new (str_bytes
    ("a," +:+ q +:+ "b,c" +:+ q +:+ LF +:+ LF +:+ q +:+ "x" +:+ q +:+ q +:+ "y" +:+ q)))
  = Ret [["a"; "b,c"]; []; ["x" +:+ q +:+ "y"]].
Proof. reflexivity. Qed.

Example csv_empty : csv_reader (StringIO_new []) = Ret [].
Proof. reflexivity. Qed.

(** A write past the end of a buffer pads with zero bytes; a write inside
    it overwrites. *)
Example StringIO_write_pads :
  getvalue (sio_write (seek (StringIO_new (str_bytes "ab")) 4) (str_bytes "x"))
  = [ "a"; "b"; zero; zero; "x" ]%char.
Proof. reflexivity. Qed.

Example StringIO_write_overwrites :
  getvalue (sio_write (seek (StringIO_new (str_bytes "abcdef")) 2) (str_bytes "XY"))
  = str_bytes "abXYef".
Proof. reflexivity. Qed.

Example StringIO_short_read :
  (sio_read (seek (StringIO_new (str_bytes "abcdef")) 4) 10).1 = str_bytes "ef".
Proof. reflexivity. Qed.

(** ** The shared buffer table *)

Lemma write_unopened fs path data offset :
  fs !! path = None ->
  OerpFS.write path data offset fs = (Ret (- OerpFS.ENOENT), fs).
Proof.
  intros Hn. unfold OerpFS.write, bind, get. simpl.
  destruct (decide (is_Some (fs !! path))) as [[b Hb]|_]; [congruence | done].
Qed.

Lemma write_opened fs path data offset b :
  fs !! path = Some b ->
  OerpFS.write path data offset fs
  = (Ret (py_len data), <[path := sio_write (seek b offset) data]> fs).
Proof.
  intros Hb. unfold OerpFS.write, bind, get, OerpFS.lookup_file. simpl.
  destruct (decide (is_Some (fs !! path))) as [_|Hn].
  - by rewrite Hb.
  - destruct Hn. by exists b.
Qed.

(** The bytes spliced in are found at the offset. *)
Lemma py_slice_splice old offset data :
  0 <= offset ->
  py_slice (splice old offset data) offset (offset + py_len data) = data.
Proof.
  intros Hoff. pose proof (py_len_nonneg data) as Hd.
  rewrite py_slice_nonneg by lia. unfold splice.
  destruct data as [|c data].
  { replace (Z.to_nat (offset + py_len []) - Z.to_nat offset)%nat with 0%nat
      by (unfold py_len; simpl; lia). done. }
  set (d := c :: data) in *.
  rewrite app_assoc.
  assert (length (take (Z.to_nat offset) old ++ zeros (offset - py_len old))
          = Z.to_nat offset) as Hpre.
  { rewrite length_app, length_take. unfold zeros, py_len.
    rewrite length_replicate. lia. }
  rewrite drop_app_length' by done.
  replace (Z.to_nat (offset + py_len d) - Z.to_nat offset)%nat with (length d)
    by (unfold py_len; lia).
  by rewrite take_app_length.
Qed.

(** C6 (as amended). On a path without a buffer [write] answers [-ENOENT]
    and leaves the table as it was. On a path whose buffer records its
    true length, and for an offset that is not negative, [write] answers
    the number of bytes supplied and the buffer then holds the bytes at
    the offset; its content is exactly the old content with the bytes
    put at the offset, overwritten where the buffer had bytes and
    appended, after zero padding, where it had none. *)
Theorem write_spec fs path data offset :
  0 <= offset ->
  (forall b, fs !! path = Some b -> sio_exact b) ->
  write_at_offset fs path data offset
  /\ (forall b, fs !! path = Some b ->
       exists b', (OerpFS.write path data offset fs).2 !! path = Some b'
                  /\ getvalue b' = splice (getvalue b) offset data
                  /\ sio_exact b').
Proof.
  intros Hoff Hex.
  assert (forall b, fs !! path = Some b ->
            getvalue (sio_write (seek b offset) data)
            = splice (getvalue b) offset data
            /\ sio_exact (sio_write (seek b offset) data)) as Hw.
  { intros b Hb.
    destruct (sio_write_exact (seek b offset) data) as [Hbuf Hex'].
    { apply seek_exact. by apply Hex. }
    split; [|done]. unfold getvalue. rewrite Hbuf. simpl. by rewrite Z.max_r. }
  split.
  - unfold write_at_offset. destruct (fs !! path) as [b|] eqn:Hb.
    + exists (sio_write (seek b offset) data). split; [by apply write_opened|].
      destruct (Hw b eq_refl) as [-> _]. by apply py_slice_splice.
    + by apply write_unopened.
  - intros b Hb. rewrite (write_opened _ _ _ _ _ Hb). cbn [snd].
    exists (sio_write (seek b offset) data).
    split; [apply lookup_insert_eq | by apply Hw].
Qed.

Lemma write_spec_witness :
  write_at_offset {[ "/f" := StringIO_new (str_bytes "abc") ]} "/f" (str_bytes "x") 5.
Proof.
  apply write_spec; [lia|].
  intros b Hb. apply lookup_singleton_Some in Hb as [_ <-].
  apply StringIO_new_exact.
Defined.

(** C6 (as stated) fails after [truncate] has lengthened a buffer: the
    library then records the new length without adding bytes, and a later
    write inside the gap lands at the end of the content, not at its
    offset. *)
Lemma write_after_truncate_off_target :
  (OerpFS.create "/f" ;;;
   _ <- OerpFS.write "/f" (str_bytes "abc") 0 ;;
   OerpFS.truncate "/f" 10)%py ∅ = (Ret tt, hole_files)
  /\ ~ write_at_offset hole_files "/f" (str_bytes "x") 5.
Proof.
  split; [by vm_compute|].
  unfold write_at_offset, hole_files. rewrite lookup_singleton_eq.
  intros [b' [Hw Hb']].
  erewrite write_opened in Hw by apply lookup_singleton_eq.
  apply (f_equal (fun r => r.2 !! "/f")) in Hw. cbn [snd] in Hw.
  rewrite !lookup_insert_eq in Hw. injection Hw as <-.
  vm_compute in Hb'. discriminate.
Qed.

(** C9. [truncate] on a path without a buffer raises [KeyError] (the
    lookup [self.files[path]] fails) and leaves the table as it was,
    where [write] on the same path answers [-ENOENT]: [truncate] has no
    guard of its own. *)
Theorem truncate_unopened fs path length :
  fs !! path = None ->
  OerpFS.truncate path length fs = (Raise KeyError, fs)
  /\ forall data offset,
       OerpFS.write path data offset fs = (Ret (- OerpFS.ENOENT), fs).
Proof.
  intros Hn. split.
  - unfold OerpFS.truncate, bind, OerpFS.lookup_file. by rewrite Hn.
  - intros. by apply write_unopened.
Qed.

Lemma truncate_unopened_witness :
  OerpFS.truncate "/partner/7/doc.txt" 0 ∅ = (Raise KeyError, ∅).
Proof.
  apply (truncate_unopened ∅ "/partner/7/doc.txt" 0). apply lookup_empty.
Defined.

(** ** base64: decoding what was encoded *)

Lemma all_ascii_complete a : In a all_ascii.
Proof.
  unfold all_ascii. rewrite <- (ascii_nat_embedding a).
  apply in_map, in_seq. pose proof (nat_ascii_bounded a). lia.
Qed.

Lemma forall_ascii (P : ascii -> bool) :
  forallb P all_ascii = true -> forall a, P a = true.
Proof. intros H a. eapply forallb_forall in H; [done | apply all_ascii_complete]. Qed.

Lemma forall_ascii2 (P : ascii -> ascii -> bool) :
  forallb (fun a => forallb (P a) all_ascii) all_ascii = true ->
  forall a b, P a b = true.
Proof.
  intros H a b. apply forall_ascii with (a := a) in H.
  by apply forall_ascii with (a := b) in H.
Qed.

Lemma check_first_all x : check_first x = true.
Proof. revert x. apply forall_ascii. by vm_compute. Qed.

Lemma check_second_all x y : check_second x y = true.
Proof. revert x y. apply forall_ascii2. by vm_compute. Qed.

Lemma check_third_all y z : check_third y z = true.
Proof. revert y z. apply forall_ascii2. by vm_compute. Qed.

Lemma check_fourth_all z : check_fourth z = true.
Proof. revert z. apply forall_ascii. by vm_compute. Qed.

Lemma check_one_all x : check_one x = true.
Proof. revert x. apply forall_ascii. by vm_compute. Qed.

Lemma check_two_all x y : check_two x y = true.
Proof. revert x y. apply forall_ascii2. by vm_compute. Qed.

Lemma a2b_state_eqb_eq s t : a2b_state_eqb s t = true -> s = t.
Proof.
  destruct s, t. unfold a2b_state_eqb. simpl.
  rewrite !andb_true_iff, !Z.eqb_eq. intros [[-> ->] ->]. done.
Qed.

(** A character that [shifts_to] accepts takes the loop one step. *)
Lemma a2b_loop_shift st c st' o rest :
  shifts_to st c st' o = true ->
  a2b_loop (c :: rest) st
  = match o with
    | Some x => cons x <$> a2b_loop rest st'
    | None => a2b_loop rest st'
    end.
Proof.
  unfold shifts_to. rewrite andb_true_iff, negb_true_iff. intros [Hpad H].
  cbn [a2b_loop]. rewrite Hpad.
  destruct (a2b_shift st c) as [[st1 [x|]]|], o as [y|]; try done.
  - apply andb_true_iff in H as [H1 H2].
    apply a2b_state_eqb_eq in H1 as ->. by apply Ascii.eqb_eq in H2 as ->.
  - by apply a2b_state_eqb_eq in H as ->.
Qed.

(** Four characters give back the three bytes they encode and leave the
    registers as they were at the start. *)
Lemma a2b_loop_group x y z rest :
  a2b_loop (enc0 x :: enc1 x y :: enc2 y z :: enc3 z :: rest) a2b_start
  = (fun r => x :: y :: z :: r) <$> a2b_loop rest a2b_start.
Proof.
  pose proof (check_first_all x) as H1. pose proof (check_second_all x y) as H2.
  pose proof (check_third_all y z) as H3. pose proof (check_fourth_all z) as H4.
  unfold check_first in H1. unfold check_second in H2.
  unfold check_third in H3. unfold check_fourth in H4.
  rewrite (a2b_loop_shift _ _ _ _ _ H1), (a2b_loop_shift _ _ _ _ _ H2).
  rewrite (a2b_loop_shift _ _ _ _ _ H3), (a2b_loop_shift _ _ _ _ _ H4).
  by destruct (a2b_loop rest a2b_start).
Qed.

Lemma list_ind3 {A} (P : list A -> Prop) :
  P [] -> (forall x, P [x]) -> (forall x y, P [x; y]) ->
  (forall x y z l, P l -> P (x :: y :: z :: l)) ->
  forall l, P l.
Proof.
  intros H0 H1 H2 H3 l.
  enough (P l /\ (forall x, P (x :: l)) /\ (forall x y, P (x :: y :: l))) by tauto.
  induction l as [|a l (IH0 & IH1 & IH2)]; [auto|].
  split; [apply IH1|]. split; [intros x; apply IH2|]. intros x y. apply H3, IH0.
Qed.

Theorem a2b_b2a_base64 data : a2b_base64 (b2a_base64 data) = Some data.
Proof.
  induction data as [|x|x y|x y z l IH] using list_ind3.
  - done.
  - pose proof (check_one_all x) as H. unfold check_one in H.
    by apply bool_decide_eq_true in H.
  - pose proof (check_two_all x y) as H. unfold check_two in H.
    by apply bool_decide_eq_true in H.
  - change (b2a_base64 (x :: y :: z :: l))
      with (enc0 x :: enc1 x y :: enc2 y z :: enc3 z :: b2a_base64 l).
    unfold a2b_base64 in *. fold a2b_start in *.
    rewrite a2b_loop_group, IH. done.
Qed.

Lemma b64decode_b64encode data : b64decode (b64encode data) = Ret data.
Proof. unfold b64decode, b64encode. by rewrite a2b_b2a_base64. Qed.

(** ** The attachment table *)

Lemma elem_of_positions {A} (p : A -> bool) k rows i :
  i ∈ positions p k rows ->
  exists r, rows !! (i - k)%nat = Some r /\ p r = true /\ (k <= i)%nat.
Proof.
  revert k. induction rows as [|r rows IH]; intros k; simpl.
  - by intros ?%elem_of_nil.
  - intros Hi.
    assert (i = k /\ p r = true \/ i ∈ positions p (S k) rows) as [[-> Hp]|Hin].
    { destruct (p r) eqn:Hp; [|by right].
      apply elem_of_cons in Hi as [->|Hi]; [by left | by right]. }
    + exists r. replace (k - k)%nat with 0%nat by lia. done.
    + destruct (IH _ Hin) as (r' & Hl & Hp & Hle). exists r'.
      replace (i - k)%nat with (S (i - S k)) by lia. split; [done|].
      split; [done | lia].
Qed.

Lemma positions_imap {A} (p : A -> bool) (g : nat -> A -> A) rows k :
  (forall i r, rows !! i = Some r -> p (g i r) = p r) ->
  positions p k (imap g rows) = positions p k rows.
Proof.
  revert g k. induction rows as [|r rows IH]; intros g k Hg; [done|].
  simpl. rewrite (Hg 0%nat r) by done.
  rewrite (IH (g ∘ S) (S k)); [done|].
  intros i r' Hr'. by apply (Hg (S i)).
Qed.

Section AttachmentWrite.
Variables (d : database) (m : string) (k : Z) (n : string) (payload : bytes).

Let values : attachment -> attachment := fun _ =>
  {| att_type := "binary"; res_model := m; res_id := k; att_name := n;
     datas_fname := Some n; datas := Some payload |}.
Let ids := search_attachment d m k n.
Let d' := write_attachment d ids values.

Lemma att_match_values a : att_match m k n (Some (values a)) = true.
Proof.
  unfold att_match, values. simpl.
  by rewrite !String.eqb_refl, Z.eqb_refl.
Qed.

Lemma matched_row i :
  i ∈ ids -> exists a, ir_attachment d !! i = Some (Some a).
Proof.
  intros Hi. apply elem_of_positions in Hi as (row & Hl & Hp & _).
  rewrite Nat.sub_0_r in Hl. destruct row as [a|]; [by exists a | done].
Qed.

(** The rows that matched the coordinates before the write are the rows
    that match them after it. *)
Lemma search_after_write : search_attachment d' m k n = ids.
Proof.
  unfold search_attachment, d', write_attachment. simpl.
  apply positions_imap. intros i row Hrow.
  case_bool_decide as Hin; [|done].
  destruct (elem_of_positions _ _ _ _ Hin) as (row' & Hl & Hp & _).
  rewrite Nat.sub_0_r in Hl. assert (row' = row) as -> by congruence.
  rewrite Hp. destruct row as [a|]; [apply att_match_values | done].
Qed.

(** The first row read after the write holds the payload written. *)
Lemma read_after_write :
  ids <> [] ->
  exists row rest, read_attachment d' ids = row :: rest /\ datas row = Some payload.
Proof.
  intros Hne.
  assert (exists i rest, ids = i :: rest) as (i & rest & Hids).
  { destruct ids; [done | eauto]. }
  assert (i ∈ ids) as Hin by (rewrite Hids; apply list_elem_of_here).
  destruct (matched_row i Hin) as [a Ha].
  unfold read_attachment. rewrite Hids. cbn [omap list_omap].
  replace (ir_attachment d' !! i) with (Some (Some (values a))).
  { cbn. eauto. }
  unfold d', write_attachment. cbn [ir_attachment].
  rewrite list_lookup_imap, Ha. cbn.
  by rewrite bool_decide_eq_true_2.
Qed.

End AttachmentWrite.

(** ** OerpFSModel *)

Import OerpFSModel.

Ltac run := unfold bind, get, put, ret, raise, item, int, lift_result, py_item,
                   inherited, OerpFS.inherited, set_files; cbn [files db fst snd].

Lemma model_write_opened st path data offset b :
  files st !! path = Some b ->
  write path data offset st
  = (Ret (py_len data),
     {| files := <[path := sio_write (seek b offset) data]> (files st);
        db := db st |}).
Proof.
  intros Hb. unfold write, inherited, OerpFS.inherited, set_files.
  by rewrite (write_opened _ _ _ _ _ Hb).
Qed.

Lemma model_release_opened st path b :
  files st !! path = Some b ->
  release path st = (Ret tt, {| files := delete path (files st); db := db st |}).
Proof.
  intros Hb. unfold release, OerpFS.release, OerpFS.lookup_file. run.
  by rewrite Hb.
Qed.

Lemma read_opened st path size offset b :
  files st !! path = Some b ->
  read path size offset st
  = (Ret (sio_read (seek b offset) size).1,
     {| files := <[path := (sio_read (seek b offset) size).2]> (files st);
        db := db st |}).
Proof.
  intros Hb. unfold read, OerpFS.read, OerpFS.self_file. run.
  destruct (decide (is_Some (files st !! path))) as [_|Hn].
  - by rewrite Hb.
  - destruct Hn. by exists b.
Qed.

Lemma flush_found st path b m r k n :
  files st !! path = Some b ->
  path_segments path = [m; r; n] -> py_int r = Some k ->
  flush path st
  = (Ret tt,
     {| files := files st;
        db := write_attachment (db st) (search_attachment (db st) m k n)
                (fun _ => {| att_type := "binary"; res_model := m; res_id := k;
                             att_name := n; datas_fname := Some n;
                             datas := Some (b64encode (buf b)) |}) |}).
Proof.
  intros Hb Hseg Hint. unfold flush, OerpFS.self_file. run.
  rewrite Hb, Hseg. cbn. rewrite Hint. by destruct st.
Qed.

Lemma b64encode_nil_inv content : b64encode content = [] -> content = [].
Proof. by destruct content as [|x [|y [|z l]]]. Qed.

Lemma open_found st path m r k n row rest content :
  path_segments path = [m; r; n] -> py_int r = Some k ->
  read_attachment (db st) (search_attachment (db st) m k n) = row :: rest ->
  datas row = Some (b64encode content) ->
  open path st
  = (Ret tt, {| files := <[path := StringIO_new content]> (files st);
                db := db st |}).
Proof.
  intros Hseg Hint Hread Hdatas. unfold open, OerpFS.open. run.
  rewrite Hseg. cbn. rewrite Hint. unfold ret. rewrite Hread. cbn. rewrite Hdatas.
  destruct (b64encode content) as [|c e] eqn:He.
  - apply b64encode_nil_inv in He as ->. done.
  - cbn. rewrite <- He, b64decode_b64encode. by rewrite insert_insert_eq.
Qed.

(** C10. [open] on a three-segment path whose coordinates match no
    attachment raises [IndexError], from taking the first element of the
    empty list that [read] returned; it does not return an error number.
    The empty buffer that the inherited [open] put in the table before
    the lookup stays there. *)
Theorem open_without_attachment st path m r k n :
  path_segments path = [m; r; n] -> py_int r = Some k ->
  search_attachment (db st) m k n = [] ->
  open path st
  = (Raise IndexError,
     {| files := <[path := StringIO_new []]> (files st); db := db st |}).
Proof.
  intros Hseg Hint Hnone. unfold open, OerpFS.open. run.
  rewrite Hseg. cbn. rewrite Hint. unfold ret. rewrite Hnone. done.
Qed.

Lemma open_without_attachment_witness :
  open "/res.partner/7/missing.txt" {| files := ∅; db := partner_db |}
  = (Raise IndexError,
     {| files := {[ "/res.partner/7/missing.txt" := StringIO_new [] ]};
        db := partner_db |}).
Proof.
  apply (open_without_attachment {| files := ∅; db := partner_db |}
           "/res.partner/7/missing.txt" "res.partner" "7" 7 "missing.txt");
    reflexivity.
Defined.

(** What [write] at offset 0, [flush], [release] and [open] leave for the
    calls [K] that follow: the buffer of the path is a fresh one holding
    what the written buffer held, and the attachment holds its encoding. *)
Lemma store_and_reload {A} (K : M state A) st path B b0 m r k n :
  path_segments path = [m; r; n] -> py_int r = Some k ->
  search_attachment (db st) m k n <> [] ->
  files st !! path = Some b0 ->
  let b1 := sio_write (seek b0 0) B in
  (write path B 0 ;;; flush path ;;; release path ;;; open path ;;; K)%py st
  = K {| files := <[path := StringIO_new (buf b1)]>
                    (delete path (<[path := b1]> (files st)));
         db := write_attachment (db st) (search_attachment (db st) m k n)
                 (fun _ => {| att_type := "binary"; res_model := m; res_id := k;
                              att_name := n; datas_fname := Some n;
                              datas := Some (b64encode (buf b1)) |}) |}.
Proof.
  intros Hseg Hint Hatt Hb0 b1.
  set (values := fun _ : attachment =>
         {| att_type := "binary"; res_model := m; res_id := k; att_name := n;
            datas_fname := Some n; datas := Some (b64encode (buf b1)) |}).
  set (d' := write_attachment (db st) (search_attachment (db st) m k n) values).
  unfold bind at 1. rewrite (model_write_opened _ _ _ _ _ Hb0). fold b1.
  unfold bind at 1.
  erewrite flush_found; [|cbn; apply lookup_insert_eq|done..]. cbn [files db].
  fold values d'.
  unfold bind at 1.
  erewrite model_release_opened by (cbn; apply lookup_insert_eq). cbn [files db].
  destruct (read_after_write (db st) m k n (b64encode (buf b1)) Hatt)
    as (row & rest & Hread & Hdatas).
  fold values d' in Hread.
  unfold bind at 1.
  erewrite (open_found _ path m r k n row rest (buf b1)); cbn [files db]; try done.
  unfold d', values. by rewrite search_after_write.
Qed.

(** C1. On the attachment mount, for a path of three segments whose
    coordinates match an attachment and which is open, writing the bytes
    [B] at offset 0, flushing, releasing, opening again and reading
    [len(B)] bytes at offset 0 gives back exactly [B]. The buffers of the
    mount are as the library builds them ([files_ok]), which holds in
    every state the mount reaches. *)
Theorem attachment_round_trip st path B m r k n :
  path_segments path = [m; r; n] -> py_int r = Some k ->
  search_attachment (db st) m k n <> [] ->
  is_Some (files st !! path) -> files_ok (files st) ->
  ((write path B 0 ;;; flush path ;;; release path ;;; open path ;;;
    read path (py_len B) 0)%py st).1 = Ret B.
Proof.
  intros Hseg Hint Hatt [b0 Hb0] Hok.
  rewrite (store_and_reload _ st path B b0 m r k n Hseg Hint Hatt Hb0).
  erewrite read_opened by (cbn; apply lookup_insert_eq). cbn [fst].
  f_equal. apply sio_read_new_head; [|done].
  apply sio_write_head; [|done].
  apply seek_ok. by apply (Hok path).
Qed.

Lemma attachment_round_trip_witness :
  ((write "/res.partner/7/doc.txt" (str_bytes "new content") 0 ;;;
    flush "/res.partner/7/doc.txt" ;;; release "/res.partner/7/doc.txt" ;;;
    open "/res.partner/7/doc.txt" ;;;
    read "/res.partner/7/doc.txt" 11 0)%py
     {| files := {[ "/res.partner/7/doc.txt" := StringIO_new (str_bytes "hello") ]};
        db := partner_db |}).1
  = Ret (str_bytes "new content").
Proof.
  apply (attachment_round_trip
           {| files := {[ "/res.partner/7/doc.txt" := StringIO_new (str_bytes "hello") ]};
              db := partner_db |}
           "/res.partner/7/doc.txt" (str_bytes "new content")
           "res.partner" "7" 7 "doc.txt").
  - reflexivity.
  - reflexivity.
  - vm_compute. discriminate.
  - exists (StringIO_new (str_bytes "hello")). apply lookup_singleton_eq.
  - intros p b Hb. cbn [files] in Hb.
    apply lookup_singleton_Some in Hb as [_ <-].
    apply sio_exact_ok, StringIO_new_exact.
Defined.

Lemma read_attachment_nil d : read_attachment d [] = [].
Proof. done. Qed.

(** [getattr] below the root, once the model and the record are found. *)
Lemma getattr_record_found st path m r k n rows :
  path_segments path = [m; r; n] -> py_int r = Some k ->
  search_model (db st) m <> [] ->
  pool (db st) !! m = Some rows ->
  search_id rows k <> [] ->
  getattr path st
  = match read_attachment (db st) (search_attachment (db st) m k n),
          search_attachment (db st) m k n with
    | _, [] => (Ret (Errno (- OerpFS.ENOENT)), st)
    | [], _ :: _ => (Raise IndexError, st)
    | row :: _, _ :: _ =>
        (size <- payload_size (datas row) ;;
         ret (Attr {| st_mode := Z.lor S_IFREG perm_rw; st_nlink := 2;
                      st_size := size |}))%py st
    end.
Proof.
  intros Hseg Hint Hmodel Hpool Hrec. unfold getattr. run.
  assert (path <> "/") as Hroot by (intros ->; done).
  apply String.eqb_neq in Hroot. rewrite Hroot, Hseg. cbn.
  destruct (search_model (db st) m) as [|i0 l0]; [done|].
  rewrite Hpool, Hint. unfold ret.
  destruct (search_id rows k) as [|i1 l1]; [done|].
  destruct (search_attachment (db st) m k n) as [|i2 l2] eqn:Hs.
  - by destruct (read_attachment (db st) []).
  - by destruct (read_attachment (db st) (i2 :: l2)).
Qed.

(** C7 (as amended). [getattr] on a path of three segments whose second
    segment is an integer, for a model that the registry holds: when the
    model has a row in [ir.model], the record exists and an attachment
    with the path's coordinates exists, the answer is a regular file
    (mode [S_IFREG | 0600]) whose size is the length of the decoded
    payload, 0 for an empty payload; when the model has no row in
    [ir.model], or the record does not exist, or no attachment has the
    coordinates, the answer is [-ENOENT]. The database is not changed. *)
Theorem getattr_file st path m r k n rows :
  path_segments path = [m; r; n] -> py_int r = Some k ->
  pool (db st) !! m = Some rows ->
  (forall row rest size,
     search_model (db st) m <> [] -> search_id rows k <> [] ->
     read_attachment (db st) (search_attachment (db st) m k n) = row :: rest ->
     decoded_size (datas row) size ->
     getattr path st = (Ret (regular_file size), st))
  /\ (search_model (db st) m = [] \/ search_id rows k = []
      \/ search_attachment (db st) m k n = [] ->
      getattr path st = (Ret (Errno (- OerpFS.ENOENT)), st)).
Proof.
  intros Hseg Hint Hpool. split.
  - intros row rest size Hmodel Hrec Hread Hsize.
    rewrite (getattr_record_found _ _ _ _ _ _ _ Hseg Hint Hmodel Hpool Hrec).
    rewrite Hread.
    destruct (search_attachment (db st) m k n) as [|i l]; [done|].
    unfold payload_size, decoded_size in *. run.
    destruct (datas row) as [[|c s]|]; try (by subst size).
    destruct Hsize as (d & -> & ->). done.
  - intros Hnone.
    destruct (search_model (db st) m) as [|i0 l0] eqn:Hmodel.
    { unfold getattr. run.
      assert (path <> "/") as Hroot by (intros ->; done).
      apply String.eqb_neq in Hroot. rewrite Hroot, Hseg. cbn.
      by rewrite Hmodel. }
    destruct (search_id rows k) as [|i1 l1] eqn:Hrec.
    { unfold getattr. run.
      assert (path <> "/") as Hroot by (intros ->; done).
      apply String.eqb_neq in Hroot. rewrite Hroot, Hseg. cbn.
      rewrite Hmodel, Hpool, Hint. unfold ret. by rewrite Hrec. }
    destruct Hnone as [?|[?|Hnone]]; [done..|].
    rewrite (getattr_record_found _ _ _ _ _ _ rows Hseg Hint); try done.
    + rewrite Hnone. by destruct (read_attachment (db st) []).
    + by rewrite Hmodel.
    + by rewrite Hrec.
Qed.

Lemma getattr_file_witness :
  getattr "/res.partner/7/doc.txt" {| files := ∅; db := partner_db |}
  = (Ret (regular_file 5), {| files := ∅; db := partner_db |}).
Proof.
  refine (proj1 (getattr_file {| files := ∅; db := partner_db |}
                   "/res.partner/7/doc.txt" "res.partner" "7" 7 "doc.txt" [7]
                   _ _ _) _ _ 5 _ _ _ _).
  - reflexivity.
  - reflexivity.
  - reflexivity.
  - vm_compute. discriminate.
  - vm_compute. discriminate.
  - reflexivity.
  - exists (str_bytes "hello"). split; reflexivity.
Defined.

(** C7 (as stated) fails on an attachment whose record is gone: the
    attachment with the path's coordinates exists, yet [getattr] answers
    [-ENOENT], because it looks for the record before the attachment. *)
Lemma getattr_orphan_attachment :
  ~ file_attr_by_attachment {| files := ∅; db := orphan_db |} "/res.partner/7/doc.txt".
Proof.
  intros H.
  specialize (H "res.partner" "7" 7 "doc.txt" eq_refl eq_refl).
  vm_compute in H.
  specialize (H 5 (ex_intro _ (str_bytes "hello") (conj eq_refl eq_refl))).
  discriminate.
Qed.

(** C2. [getattr] on a path of two or three segments whose model exists
    and whose second segment is not an integer raises [ValueError]; it
    does not return [-ENOENT]. *)
Theorem getattr_non_numeric_id st path m r rest rows :
  path_segments path = m :: r :: rest -> (length rest <= 1)%nat ->
  search_model (db st) m <> [] ->
  pool (db st) !! m = Some rows ->
  py_int r = None ->
  getattr path st = (Raise ValueError, st).
Proof.
  intros Hseg Hlen Hmodel Hpool Hint. unfold getattr. run.
  assert (path <> "/") as Hroot by (intros ->; done).
  apply String.eqb_neq in Hroot. rewrite Hroot, Hseg.
  destruct (Z.ltb_spec 3 (py_len (m :: r :: rest))) as [Hgt|_].
  { unfold py_len in Hgt. simpl in Hgt. lia. }
  cbn [lookup list_lookup].
  destruct (search_model (db st) m) as [|i0 l0]; [done|].
  destruct (Z.eqb_spec (py_len (m :: r :: rest)) 1) as [He|_].
  { unfold py_len in He. simpl in He. lia. }
  by rewrite Hpool, Hint.
Qed.

Lemma getattr_non_numeric_id_witness :
  getattr "/res.partner/abc" {| files := ∅; db := partner_db |}
  = (Raise ValueError, {| files := ∅; db := partner_db |}).
Proof.
  apply (getattr_non_numeric_id {| files := ∅; db := partner_db |}
           "/res.partner/abc" "res.partner" "abc" [] [7]).
  - reflexivity.
  - simpl. lia.
  - vm_compute. discriminate.
  - reflexivity.
  - reflexivity.
Defined.

(** A record that does not exist, by contrast, is answered with
    [-ENOENT]. *)
Lemma getattr_missing_record :
  getattr "/res.partner/8" {| files := ∅; db := partner_db |}
  = (Ret (Errno (- OerpFS.ENOENT)), {| files := ∅; db := partner_db |}).
Proof. reflexivity. Qed.

(** ** OerpFSCsvImport *)

Module CsvFacts.
Import OerpFSCsvImport.

Section WithFlush.
Variable Fuse_flush : string -> result unit.

(** [release] up to the import call. *)
Lemma release_reaches_import st path b header rows :
  files st !! path = Some b ->
  csv_reader (StringIO_new (getvalue b)) = Ret (header :: rows) ->
  str_tail (remove_all ".csv" 0 path) ∈ pool st ->
  let call := {| ic_model := str_tail (remove_all ".csv" 0 path);
                 ic_fields := header; ic_datas := rows; ic_mode := "init";
                 ic_current_module := ""; ic_noupdate := false;
                 ic_context := [("import", true)] |} in
  release Fuse_flush path st
  = match import_data st call with
    | Ret _ =>
        (Fuse_flush path,
         {| files := delete path (files st); pool := pool st;
            import_data := import_data st; imports := imports st ++ [call] |})
    | Raise e =>
        (Raise e,
         {| files := files st; pool := pool st;
            import_data := import_data st; imports := imports st ++ [call] |})
    end.
Proof.
  intros Hb Hcsv Hpool call.
  unfold release, OerpFS.self_file, call_import, with_files,
    bind, get, put, ret, raise, lift_result, py_item.
  cbn [files pool import_data imports fst snd]. rewrite Hb.
  cbn [files pool import_data imports fst snd]. rewrite Hcsv.
  cbn [files pool import_data imports fst snd].
  destruct (decide (str_tail (remove_all ".csv" 0 path) ∈ pool st)) as [_|Hn]; [|done].
  cbn. change (drop 0 rows) with rows. fold call.
  destruct (import_data st call) as [code|e]; [|done].
  rewrite Hb. cbn. by destruct (Fuse_flush path).
Qed.

(** C3 (as amended). For a buffered file whose content has a first row
    and whose model the registry holds: when [import_data] returns,
    whatever it returns, the path has no buffer after [release]; when
    [import_data] raises, [release] raises the same exception and the
    buffer table is as it was. *)
Theorem release_discards st path b header rows :
  files st !! path = Some b ->
  csv_reader (StringIO_new (getvalue b)) = Ret (header :: rows) ->
  str_tail (remove_all ".csv" 0 path) ∈ pool st ->
  let call := {| ic_model := str_tail (remove_all ".csv" 0 path);
                 ic_fields := header; ic_datas := rows; ic_mode := "init";
                 ic_current_module := ""; ic_noupdate := false;
                 ic_context := [("import", true)] |} in
  (forall code, import_data st call = Ret code ->
     files (release Fuse_flush path st).2 !! path = None)
  /\ (forall e, import_data st call = Raise e ->
        (release Fuse_flush path st).1 = Raise e
        /\ files (release Fuse_flush path st).2 = files st).
Proof.
  intros Hb Hcsv Hpool call.
  rewrite (release_reaches_import _ _ _ _ _ Hb Hcsv Hpool). fold call. split.
  - intros code ->. cbn. apply lookup_delete_eq.
  - intros e ->. done.
Qed.

End WithFlush.

Lemma release_discards_witness :
  files (release no_flush "/contact.csv" (contact_mount contact_csv (Ret 2))).2
    !! "/contact.csv" = None.
Proof.
  refine (proj1 (release_discards no_flush (contact_mount contact_csv (Ret 2))
                   "/contact.csv" (StringIO_new contact_csv)
                   ["name"; "age"] [["Alice"; "30"]; ["Bob"; "40"]] _ _ _) 2 _).
  - apply lookup_singleton_eq.
  - reflexivity.
  - vm_compute. set_solver.
  - reflexivity.
Defined.

(** C3 (as stated) fails when the import raises: [release] stops at the
    call and the buffer is still in the table. *)
Lemma release_keeps_buffer_on_failure :
  files (contact_mount contact_csv (Raise BackendFailure)) !! "/contact.csv"
  = Some (StringIO_new contact_csv)
  /\ ~ discarded_after_release no_flush
         (contact_mount contact_csv (Raise BackendFailure)) "/contact.csv".
Proof.
  split; [apply lookup_singleton_eq|].
  unfold discarded_after_release.
  erewrite (release_reaches_import no_flush _ "/contact.csv" (StringIO_new contact_csv)
              ["name"; "age"] [["Alice"; "30"]; ["Bob"; "40"]]).
  - cbn. by rewrite lookup_singleton_eq.
  - apply lookup_singleton_eq.
  - reflexivity.
  - vm_compute. set_solver.
Qed.

End CsvFacts.

(** ** Dropping the [.csv] suffix *)

Lemma prefix_cons a s1 b s2 :
  String.prefix (String a s1) (String b s2)
  = if ascii_dec a b then String.prefix s1 s2 else false.
Proof. reflexivity. Qed.

Lemma prefix_nil_r a s1 : String.prefix (String a s1) EmptyString = false.
Proof. reflexivity. Qed.

(** An occurrence of [.csv] cannot begin inside [name] and end inside the
    suffix: the suffix begins with the only dot of [.csv]. *)
Lemma prefix_csv_straddle c name :
  String.prefix ".csv" (String c name) = false ->
  String.prefix ".csv" (String c (name +:+ ".csv")) = false.
Proof.
  rewrite !prefix_cons. destruct (ascii_dec "." c) as [_|]; [|done].
  destruct name as [|c1 name]; [intros _; reflexivity|].
  change (String c1 name +:+ ".csv") with (String c1 (name +:+ ".csv")).
  rewrite !prefix_cons. destruct (ascii_dec "c" c1) as [_|]; [|done].
  destruct name as [|c2 name]; [intros _; reflexivity|].
  change (String c2 name +:+ ".csv") with (String c2 (name +:+ ".csv")).
  rewrite !prefix_cons. destruct (ascii_dec "s" c2) as [_|]; [|done].
  destruct name as [|c3 name]; [intros _; reflexivity|].
  change (String c3 name +:+ ".csv") with (String c3 (name +:+ ".csv")).
  rewrite !prefix_cons. destruct (ascii_dec "v" c3) as [_|]; [|done].
  by destruct name.
Qed.

Lemma remove_all_suffix name :
  occurs ".csv" name = false ->
  remove_all ".csv" 0 (name +:+ ".csv") = name.
Proof.
  induction name as [|c name IH]; [done|].
  cbn [occurs]. intros [Hp Ho]%orb_false_iff.
  change (String c name +:+ ".csv") with (String c (name +:+ ".csv")).
  cbn [remove_all].
  rewrite (prefix_csv_straddle _ _ Hp). by rewrite IH.
Qed.

Lemma csv_path_model name :
  occurs ".csv" name = false ->
  str_tail (remove_all ".csv" 0 (String "/" (name +:+ ".csv"))) = name.
Proof.
  intros Ho. cbn [remove_all]. rewrite prefix_cons.
  destruct (ascii_dec "." "/") as [?|_]; [done|].
  cbn [str_tail]. by apply remove_all_suffix.
Qed.

Module CsvImportFacts.
Import OerpFSCsvImport.

(** C5 (as amended). For a file [name ++ ".csv"] in the root, where
    [.csv] occurs nowhere in [name], whose buffered content parses to at
    least one row and whose model [name] the registry holds, [release]
    calls [import_data] exactly once: on the model [name], with the
    first parsed row as field names, the other parsed rows in order as
    data, and the mode [init]. *)
Theorem release_imports_once Fuse_flush st name b header rows :
  occurs ".csv" name = false ->
  files st !! String "/" (name +:+ ".csv") = Some b ->
  csv_reader (StringIO_new (getvalue b)) = Ret (header :: rows) ->
  name ∈ pool st ->
  imports (release Fuse_flush (String "/" (name +:+ ".csv")) st).2
  = imports st ++ [{| ic_model := name; ic_fields := header; ic_datas := rows;
                      ic_mode := "init"; ic_current_module := "";
                      ic_noupdate := false;
                      ic_context := [("import", true)] |}].
Proof.
  intros Ho Hb Hcsv Hpool.
  pose proof (csv_path_model name Ho) as Hm.
  rewrite (CsvFacts.release_reaches_import Fuse_flush _ _ _ _ _ Hb Hcsv)
    by (by rewrite Hm).
  rewrite Hm. by destruct (import_data st _).
Qed.

(** The example of the description: [/contact.csv] with a header and two
    rows gives one import into [contact]. *)
Lemma release_imports_once_witness :
  imports (release no_flush "/contact.csv" (contact_mount contact_csv (Ret 2))).2
  = [{| ic_model := "contact"; ic_fields := ["name"; "age"];
        ic_datas := [["Alice"; "30"]; ["Bob"; "40"]];
        ic_mode := "init"; ic_current_module := "";
        ic_noupdate := false; ic_context := [("import", true)] |}].
Proof.
  apply (release_imports_once no_flush (contact_mount contact_csv (Ret 2))
           "contact" (StringIO_new contact_csv)
           ["name"; "age"] [["Alice"; "30"]; ["Bob"; "40"]]).
  - reflexivity.
  - apply lookup_singleton_eq.
  - reflexivity.
  - vm_compute. set_solver.
Defined.

(** C5 (as stated) fails on an empty file: there is no first row, the
    lookup [lines[0]] raises [IndexError] and [import_data] is not
    called at all. *)
Lemma release_empty_file_imports_nothing :
  release no_flush "/contact.csv" (contact_mount [] (Ret 0))
  = (Raise IndexError, contact_mount [] (Ret 0))
  /\ ~ imported_once no_flush (contact_mount [] (Ret 0)) "contact".
Proof.
  assert (release no_flush "/contact.csv" (contact_mount [] (Ret 0))
          = (Raise IndexError, contact_mount [] (Ret 0))) as Hrel.
  { unfold release, OerpFS.self_file, with_files,
      bind, get, put, ret, raise, lift_result, py_item.
    cbn [files pool import_data imports fst snd contact_mount].
    rewrite lookup_singleton_eq. cbn.
    destruct (decide ("contact" ∈ ({[ "contact" ]} : gset string))) as [_|Hn];
      [done | set_solver]. }
  split; [done|].
  intros H. unfold imported_once in H.
  change (String "/" ("contact" +:+ ".csv")) with "/contact.csv" in H.
  specialize (H (StringIO_new []) [] (lookup_singleton_eq _ _) eq_refl).
  destruct H as (call & Himp & _).
  rewrite Hrel in Himp. cbn in Himp. discriminate.
Qed.

(** C4 (as amended). The import mount announces its root and its
    buffered files as write-only: [getattr] answers the root with a
    directory and every path that has a buffer with a regular file, both
    with the permission bits [0200] and no read bit, and no answer of
    [getattr] carries other permission bits. A path without a buffer,
    which is what a path is once [release] has imported it, reads as
    empty at every size and offset. Nothing else keeps [read] from a
    buffer: on a path with a buffer it returns the bytes the buffer holds
    from the offset on. *)
Theorem csv_write_only st path :
  (exists s, getattr "/" st = (Ret (Attr s), st)
     /\ st_mode s = Z.lor S_IFDIR perm_w
     /\ perms s = perm_w /\ Z.land (st_mode s) perm_read_bits = 0)
  /\ (path <> "/" -> is_Some (files st !! path) ->
      exists s, getattr path st = (Ret (Attr s), st)
        /\ st_mode s = Z.lor S_IFREG perm_w
        /\ perms s = perm_w /\ Z.land (st_mode s) perm_read_bits = 0)
  /\ (forall s, (getattr path st).1 = Ret (Attr s) ->
     perms s = perm_w /\ Z.land (st_mode s) perm_read_bits = 0)
  /\ (files st !! path = None ->
      forall size offset, (read path size offset st).1 = Ret [])
  /\ (forall b, files st !! path = Some b ->
      forall size offset,
        (read path size offset st).1 = Ret (sio_read (seek b offset) size).1).
Proof.
  split; [|split; [|split; [|split]]].
  - eexists. split; [reflexivity|]. done.
  - intros Hroot%String.eqb_neq Hb.
    exists {| st_mode := Z.lor S_IFREG perm_w; st_nlink := 1; st_size := 0 |}.
    split; [|done].
    unfold getattr, bind, get, ret. cbn. rewrite Hroot.
    by destruct (decide (is_Some (files st !! path))).
  - intros s. unfold getattr, bind, get, ret. cbn.
    destruct (String.eqb path "/"); [by intros [= <-]|].
    destruct (decide (is_Some (files st !! path))); by intros [= <-].
  - intros Hn size offset.
    unfold read, open, inherited, OerpFS.inherited, OerpFS.read, OerpFS.open,
      OerpFS.self_file, with_files, bind, get, put, ret.
    cbn [files pool import_data imports fst snd].
    destruct (decide (is_Some (files st !! path))) as [[b Hb]|_]; [congruence|].
    cbn. rewrite lookup_insert_eq. cbn. f_equal.
    unfold py_slice, py_index, py_len. cbn [length].
    by rewrite drop_nil, take_nil.
  - intros b Hb size offset.
    unfold read, OerpFS.read, OerpFS.self_file, with_files, bind, get, put, ret.
    cbn [files pool import_data imports fst snd].
    destruct (decide (is_Some (files st !! path))) as [_|Hn].
    + by rewrite Hb.
    + destruct Hn. by exists b.
Qed.

(** Before [release] the file is announced write-only; after it the path
    reads as empty. *)
Lemma csv_write_only_witness :
  (exists s, getattr "/contact.csv" (contact_mount contact_csv (Ret 2))
             = (Ret (Attr s), contact_mount contact_csv (Ret 2))
     /\ st_mode s = Z.lor S_IFREG perm_w
     /\ perms s = perm_w /\ Z.land (st_mode s) perm_read_bits = 0)
  /\ (read "/contact.csv" 100 0
        (release no_flush "/contact.csv" (contact_mount contact_csv (Ret 2))).2).1
     = Ret [].
Proof.
  split.
  - apply (proj1 (proj2 (csv_write_only (contact_mount contact_csv (Ret 2))
                           "/contact.csv"))).
    + discriminate.
    + exists (StringIO_new contact_csv). apply lookup_singleton_eq.
  - apply (proj1 (proj2 (proj2 (proj2 (csv_write_only
                    (release no_flush "/contact.csv"
                       (contact_mount contact_csv (Ret 2))).2 "/contact.csv"))))).
    reflexivity.
Defined.

(** C4 (as stated) fails while the buffer is there: [read] is the one of
    the base class and returns the bytes just written. *)
Lemma csv_buffer_is_readable :
  ((create "/contact.csv" ;;;
    _ <- write "/contact.csv" contact_csv 0 ;;
    read "/contact.csv" 8 0)%py (contact_mount [] (Ret 0))).1
  = Ret (str_bytes "name,age")
  /\ ~ nothing_read_back (contact_mount [] (Ret 0)) "/contact.csv".
Proof.
  split; [by vm_compute|].
  intros H. apply (H (str_bytes "name")); [done|]. by vm_compute.
Qed.

End CsvImportFacts.

(** ** OerpFSDocument *)

Module DocumentFacts.
Import OerpFSDocument.

(** C8. On a path that resolves to a node, [getattr] answers: a
    directory with mode [S_IFDIR | 0600] for a node of type [database]
    or [collection]; a regular file with mode [S_IFREG | 0600] and the
    size [get_data_len] returns for a node of type [file]; and for every
    other type a regular file with no permission bit, not an error. The
    object is not changed. *)
Theorem document_getattr st path nd :
  _get_node st path = Some nd ->
  (our_type nd = "database" \/ our_type nd = "collection" ->
     getattr path st
     = (Ret (Attr {| st_mode := Z.lor S_IFDIR perm_rw;
                     st_nlink := 0; st_size := 0 |}), st))
  /\ (our_type nd = "file" ->
      getattr path st
      = (Ret (Attr {| st_mode := Z.lor S_IFREG perm_rw;
                      st_nlink := 0; st_size := get_data_len nd |}), st))
  /\ (our_type nd <> "database" -> our_type nd <> "collection" ->
      our_type nd <> "file" ->
      getattr path st
      = (Ret (Attr {| st_mode := S_IFREG; st_nlink := 0; st_size := 0 |}), st)).
Proof.
  intros Hnode. unfold getattr, bind, get, ret. cbn [fst snd]. rewrite Hnode.
  split; [|split].
  - intros [->| ->]; done.
  - intros ->. done.
  - intros H1%String.eqb_neq H2%String.eqb_neq H3%String.eqb_neq.
    by rewrite H1, H2, H3.
Qed.

(** What the three answers mean bit by bit. *)
Lemma document_modes size :
  let dir := {| st_mode := Z.lor S_IFDIR perm_rw; st_nlink := 0; st_size := 0 |} in
  let reg := {| st_mode := Z.lor S_IFREG perm_rw; st_nlink := 0; st_size := size |} in
  let other := {| st_mode := S_IFREG; st_nlink := 0; st_size := 0 |} in
  (is_dir dir /\ ~ is_reg dir /\ perms dir = perm_rw)
  /\ (is_reg reg /\ ~ is_dir reg /\ perms reg = perm_rw)
  /\ (is_reg other /\ ~ is_dir other /\ perms other = perm_none).
Proof. by vm_compute. Qed.

Lemma document_getattr_witness :
  getattr "/Documents/report.pdf"
    {| files := ∅;
       get_uri := fun segs =>
         if bool_decide (segs = ["Documents"; "report.pdf"])
         then Some {| our_type := "file"; get_data_len := 2048 |}
         else None |}
  = (Ret (Attr {| st_mode := Z.lor S_IFREG perm_rw; st_nlink := 0; st_size := 2048 |}),
     {| files := ∅;
        get_uri := fun segs =>
          if bool_decide (segs = ["Documents"; "report.pdf"])
          then Some {| our_type := "file"; get_data_len := 2048 |}
          else None |}).
Proof.
  refine (proj1 (proj2 (document_getattr _ "/Documents/report.pdf"
                          {| our_type := "file"; get_data_len := 2048 |} _)) _);
    reflexivity.
Defined.

End DocumentFacts.

(** ** Every buffer the mount holds is well formed

    The condition [sio_ok] assumed of the open buffer in the round trip
    holds of every buffer in every state that calls of the kernel lead to
    from a mount without buffers. *)

Module Invariant.
Import OerpFSModel.

Lemma files_ok_empty : files_ok ∅.
Proof. intros p b. by rewrite lookup_empty. Qed.

Lemma files_ok_insert fs p b : files_ok fs -> sio_ok b -> files_ok (<[p := b]> fs).
Proof.
  intros Hfs Hb q b'. rewrite lookup_insert.
  case_decide; [by intros [= <-] | apply Hfs].
Qed.

Lemma files_ok_delete fs p : files_ok fs -> files_ok (delete p fs).
Proof.
  intros Hfs q b'. rewrite lookup_delete.
  case_decide; [done | apply Hfs].
Qed.

Lemma StringIO_new_ok b : sio_ok (StringIO_new b).
Proof. apply sio_exact_ok, StringIO_new_exact. Qed.

(** The state a method leaves has the database it found, unless it is
    [flush], and buffers that are well formed. *)
Lemma getattr_state path st : (getattr path st).2 = st.
Proof.
  unfold getattr, payload_size. run.
  repeat (case_match; unfold ret, raise, bind, lift_result in *;
          cbn [fst snd] in *; simplify_eq; try done).
Qed.

Lemma open_files_ok path st : files_ok (files st) -> files_ok (files (open path st).2).
Proof.
  intros Hok. unfold open, OerpFS.open. run.
  assert (files_ok (<[path := StringIO_new []]> (files st))) as Hok'.
  { apply files_ok_insert; [done | apply StringIO_new_ok]. }
  repeat (case_match; unfold ret, raise, bind, lift_result, put in *;
          cbn [files db fst snd] in *; simplify_eq; try done).
  apply files_ok_insert; [done | apply StringIO_new_ok].
Qed.

Lemma write_files_ok path data offset st :
  files_ok (files st) -> files_ok (files (write path data offset st).2).
Proof.
  intros Hok. unfold write, OerpFS.write, OerpFS.lookup_file. run.
  destruct (decide (is_Some (files st !! path))) as [[b Hb]|_]; [|done].
  rewrite Hb. cbn. apply files_ok_insert; [done|].
  apply sio_write_ok, seek_ok. by apply (Hok path).
Qed.

Lemma truncate_files_ok path length st :
  files_ok (files st) -> files_ok (files (truncate path length st).2).
Proof.
  intros Hok. unfold truncate, OerpFS.truncate, OerpFS.lookup_file. run.
  destruct (files st !! path) as [b|] eqn:Hb; [|done].
  destruct (sio_truncate b length) as [b'|e] eqn:Ht; [|done].
  cbn. apply files_ok_insert; [done|].
  eapply sio_truncate_ok; [by apply (Hok path) | done].
Qed.

Lemma release_files_ok path st :
  files_ok (files st) -> files_ok (files (release path st).2).
Proof.
  intros Hok. unfold release, OerpFS.release, OerpFS.lookup_file. run.
  destruct (files st !! path) as [b|]; [|done].
  cbn. by apply files_ok_delete.
Qed.

Lemma flush_files path st : files (flush path st).2 = files st.
Proof.
  unfold flush, OerpFS.self_file. run.
  repeat (case_match; unfold ret, raise, bind, lift_result, put in *;
          cbn [files db fst snd] in *; simplify_eq; try done).
Qed.

Lemma read_files_ok path size offset st :
  files_ok (files st) -> files_ok (files (read path size offset st).2).
Proof.
  intros Hok. unfold read, OerpFS.read, OerpFS.self_file.
  unfold bind at 1. unfold get at 1.
  assert (forall st1, files_ok (files st1) ->
            files_ok (files
              ((b <- (fun st : state =>
                        match files st !! path with
                        | Some b => (Ret b, st)
                        | None => (Raise KeyError, st)
                        end) ;;
                let '(r, b') := sio_read (seek b offset) size in
                st' <- get ;;
                put (set_files st' (<[path := b']> (files st'))) ;;;
                ret r)%py st1).2)) as Hrest.
  { intros st1 Hok1. run.
    destruct (files st1 !! path) as [b|] eqn:Hb; [|done].
    cbn. apply files_ok_insert; [done|].
    apply (sio_read_ok (seek b offset) size), seek_ok. by apply (Hok1 path). }
  destruct (decide (is_Some (files st !! path))) as [_|_].
  - unfold bind at 1. unfold ret at 1. by apply Hrest.
  - unfold bind at 1. pose proof (open_files_ok path st Hok) as Hopen.
    destruct (open path st) as [[[]|e] st1]; [by apply Hrest | done].
Qed.

Lemma after_files_ok c st : files_ok (files st) -> files_ok (files (after c st)).
Proof.
  intros Hok. destruct c; cbn [after].
  - by rewrite getattr_state.
  - by apply open_files_ok.
  - by apply read_files_ok.
  - by apply write_files_ok.
  - by apply truncate_files_ok.
  - by rewrite flush_files.
  - by apply release_files_ok.
Qed.

Theorem reachable_files_ok cs d :
  files_ok (files (after_all cs {| files := ∅; db := d |})).
Proof.
  unfold after_all.
  assert (files_ok (files {| files := ∅; db := d |})) as Hok
    by apply files_ok_empty.
  revert Hok. generalize {| files := ∅; db := d |}.
  induction cs as [|c cs IH]; intros st Hok; [done|].
  cbn [foldl]. apply IH. by apply after_files_ok.
Qed.

(** The round trip in the states the kernel leads to: after any calls on
    a mount that started without buffers, for a path that is open and
    whose attachment exists. *)
Corollary round_trip_after_calls cs d path B m r k n :
  let st := after_all cs {| files := ∅; db := d |} in
  path_segments path = [m; r; n] -> py_int r = Some k ->
  search_attachment (db st) m k n <> [] ->
  is_Some (files st !! path) ->
  ((write path B 0 ;;; flush path ;;; release path ;;; open path ;;;
    read path (py_len B) 0)%py st).1 = Ret B.
Proof.
  intros st Hseg Hint Hatt [b0 Hb0].
  rewrite (store_and_reload _ st path B b0 m r k n Hseg Hint Hatt Hb0).
  erewrite read_opened by (cbn; apply lookup_insert_eq). cbn [fst].
  f_equal. apply sio_read_new_head; [|done].
  apply sio_write_head; [|done].
  apply seek_ok. by apply (reachable_files_ok cs d path).
Qed.

End Invariant.

(** * The rest of the code: properties *)

(** ** The base class *)

Lemma base_read_opened fs p size offset b :
  fs !! p = Some b ->
  base_read p size offset fs
  = (Ret (sio_read (seek b offset) size).1,
     <[p := (sio_read (seek b offset) size).2]> fs).
Proof.
  intros Hb. unfold base_read, OerpFS.read, OerpFS.self_file, bind, get, put, ret.
  destruct (decide (is_Some (fs !! p))) as [_|Hn].
  - by rewrite Hb.
  - destruct Hn. by exists b.
Qed.

Lemma base_read_unopened fs p size offset :
  fs !! p = None ->
  base_read p size offset fs
  = (Ret [], <[p := (sio_read (seek (StringIO_new []) offset) size).2]> fs).
Proof.
  intros Hn. unfold base_read, OerpFS.read, OerpFS.self_file, OerpFS.open,
    bind, get, put, ret.
  destruct (decide (is_Some (fs !! p))) as [[b Hb]|_]; [congruence|].
  rewrite lookup_insert_eq. cbn [fst snd].
  assert ((sio_read (seek (StringIO_new []) offset) size).1 = []) as Hr.
  { unfold sio_read, py_slice, py_index, py_len. cbn [length buf seek StringIO_new fst].
    by rewrite drop_nil, take_nil. }
  destruct (sio_read (seek (StringIO_new []) offset) size) as [r b'].
  cbn [fst snd] in *. subst r. by rewrite insert_insert_eq.
Qed.

Lemma truncate_opened fs p n b :
  fs !! p = Some b ->
  OerpFS.truncate p n fs
  = match sio_truncate b n with
    | Ret b' => (Ret tt, <[p := b']> fs)
    | Raise e => (Raise e, fs)
    end.
Proof.
  intros Hb. unfold OerpFS.truncate, OerpFS.lookup_file, bind, get, put, lift_result.
  rewrite Hb. by destruct (sio_truncate b n).
Qed.

Lemma release_opened fs p b :
  fs !! p = Some b -> OerpFS.release p fs = (Ret tt, delete p fs).
Proof.
  intros Hb. unfold OerpFS.release, OerpFS.lookup_file, bind, get, put.
  by rewrite Hb.
Qed.

Lemma release_unopened fs p :
  fs !! p = None -> OerpFS.release p fs = (Raise KeyError, fs).
Proof.
  intros Hn. unfold OerpFS.release, OerpFS.lookup_file, bind. by rewrite Hn.
Qed.

(** What a read returns from a buffer that records its true length. *)
Lemma sio_read_window b size offset :
  sio_exact b -> 0 <= offset -> 0 <= size ->
  (sio_read (seek b offset) size).1
  = take (Z.to_nat size) (drop (Z.to_nat offset) (buf b)).
Proof.
  intros [Hlen _] Hoff Hsize. unfold sio_read, seek. cbn [buf len pos fst].
  destruct (Z.ltb_spec size 0); [lia|].
  rewrite Z.max_r by lia. pose proof (py_len_nonneg (buf b)) as Hb.
  rewrite py_slice_nonneg by lia. unfold py_len in *.
  destruct (Z.le_gt_cases (offset + size) (len b)) as [Hin|Hout].
  - rewrite Z.min_l by lia. f_equal. lia.
  - rewrite Z.min_r by lia.
    rewrite !take_ge; [done | rewrite length_drop; lia | rewrite length_drop; lia].
Qed.

(** X1. A call on one path leaves the buffer of every other path as it
    was: [open], [create], [write], [truncate], [release] and [read]
    change the table at their own path only. *)
Theorem other_buffers_untouched fs p q :
  p <> q ->
  (OerpFS.open p fs).2 !! q = fs !! q
  /\ (OerpFS.create p fs).2 !! q = fs !! q
  /\ (forall data offset, (OerpFS.write p data offset fs).2 !! q = fs !! q)
  /\ (forall n, (OerpFS.truncate p n fs).2 !! q = fs !! q)
  /\ (OerpFS.release p fs).2 !! q = fs !! q
  /\ (forall size offset, (base_read p size offset fs).2 !! q = fs !! q).
Proof.
  intros Hpq. repeat split.
  - cbn. by rewrite lookup_insert_ne.
  - cbn. by rewrite lookup_insert_ne.
  - intros data offset. destruct (fs !! p) as [b|] eqn:Hb.
    + rewrite (write_opened _ _ _ _ _ Hb). cbn. by rewrite lookup_insert_ne.
    + by rewrite (write_unopened _ _ _ _ Hb).
  - intros n. destruct (fs !! p) as [b|] eqn:Hb.
    + rewrite (truncate_opened _ _ _ _ Hb).
      destruct (sio_truncate b n); cbn; [by rewrite lookup_insert_ne | done].
    + unfold OerpFS.truncate, OerpFS.lookup_file, bind. by rewrite Hb.
  - destruct (fs !! p) as [b|] eqn:Hb.
    + rewrite (release_opened _ _ _ Hb). cbn. by rewrite lookup_delete_ne.
    + by rewrite (release_unopened _ _ Hb).
  - intros size offset. destruct (fs !! p) as [b|] eqn:Hb.
    + rewrite (base_read_opened _ _ _ _ _ Hb). cbn. by rewrite lookup_insert_ne.
    + rewrite (base_read_unopened _ _ _ _ Hb). cbn. by rewrite lookup_insert_ne.
Qed.

Lemma other_buffers_untouched_witness :
  (OerpFS.release "/a" {[ "/a" := StringIO_new []; "/b" := StringIO_new (str_bytes "kept") ]}).2
    !! "/b" = Some (StringIO_new (str_bytes "kept")).
Proof.
  refine (eq_trans (proj1 (proj2 (proj2 (proj2 (proj2
     (other_buffers_untouched
        {[ "/a" := StringIO_new []; "/b" := StringIO_new (str_bytes "kept") ]}
        "/a" "/b" _)))))) _).
  - discriminate.
  - reflexivity.
Defined.

(** X2. What is written is what is read: on an open path whose buffer
    records its true length, reading [len(data)] bytes at the offset
    where [data] was just written returns [data], for every offset that
    is not negative, inside the old content or past its end. *)
Theorem read_back_written fs p b data offset :
  fs !! p = Some b -> sio_exact b -> 0 <= offset ->
  ((_ <- OerpFS.write p data offset ;;
    base_read p (py_len data) offset)%py fs).1 = Ret data.
Proof.
  intros Hb Hex Hoff. unfold bind. rewrite (write_opened _ _ _ _ _ Hb).
  erewrite base_read_opened by apply lookup_insert_eq. cbn [fst]. f_equal.
  destruct (sio_write_exact (seek b offset) data) as [Hbuf Hex'].
  { by apply seek_exact. }
  pose proof (py_len_nonneg data) as Hd.
  rewrite sio_read_window by (done || lia).
  rewrite Hbuf. cbn [pos seek]. rewrite Z.max_r by lia.
  pose proof (py_slice_splice (buf b) offset data Hoff) as Hs.
  rewrite py_slice_nonneg in Hs by lia.
  rewrite <- Hs at 3. f_equal. lia.
Qed.

Lemma read_back_written_witness :
  ((_ <- OerpFS.write "/f" (str_bytes "xyz") 5 ;;
    base_read "/f" 3 5)%py {[ "/f" := StringIO_new (str_bytes "ab") ]}).1
  = Ret (str_bytes "xyz").
Proof.
  apply (read_back_written {[ "/f" := StringIO_new (str_bytes "ab") ]} "/f"
           (StringIO_new (str_bytes "ab")) (str_bytes "xyz") 5).
  - apply lookup_singleton_eq.
  - split; [reflexivity | simpl; lia].
  - lia.
Defined.

(** X3. A read returns the window asked for, cut short where the buffer
    ends: on a buffer that records its true length, [read(path, size,
    offset)] returns the at most [size] bytes that follow the first
    [offset] bytes, nothing when the offset is at or past the end, and it
    leaves the content as it was. *)
Theorem read_window fs p b size offset :
  fs !! p = Some b -> sio_exact b -> 0 <= offset -> 0 <= size ->
  (base_read p size offset fs).1
  = Ret (take (Z.to_nat size) (drop (Z.to_nat offset) (getvalue b)))
  /\ exists b', (base_read p size offset fs).2 = <[p := b']> fs
                /\ getvalue b' = getvalue b.
Proof.
  intros Hb Hex Hoff Hsize. rewrite (base_read_opened _ _ _ _ _ Hb). split.
  - cbn [fst]. f_equal. by apply sio_read_window.
  - eexists. split; [reflexivity | done].
Qed.

Lemma read_window_witness :
  (base_read "/f" 10 4 {[ "/f" := StringIO_new (str_bytes "abcdef") ]}).1
  = Ret (str_bytes "ef").
Proof.
  refine (proj1 (read_window {[ "/f" := StringIO_new (str_bytes "abcdef") ]} "/f"
                   (StringIO_new (str_bytes "abcdef")) 10 4 _ _ _ _)).
  - apply lookup_singleton_eq.
  - split; [reflexivity | simpl; lia].
  - lia.
  - lia.
Defined.

(** X4. [truncate] keeps at most the first [length] bytes and never adds
    any: on an open path and for a length that is not negative the
    content becomes its first [length] bytes (all of it when it is
    shorter); a negative length raises [IOError] and changes nothing. *)
Theorem truncate_content fs p b n :
  fs !! p = Some b ->
  (0 <= n ->
   exists b', OerpFS.truncate p n fs = (Ret tt, <[p := b']> fs)
              /\ getvalue b' = take (Z.to_nat n) (getvalue b))
  /\ (n < 0 -> OerpFS.truncate p n fs = (Raise IOError, fs)).
Proof.
  intros Hb. rewrite (truncate_opened _ _ _ _ Hb). unfold sio_truncate. split.
  - intros Hn. destruct (Z.ltb_spec n 0); [lia|].
    eexists. split; [reflexivity|]. cbn [getvalue buf].
    by apply py_slice_to_nonneg.
  - intros Hn. by destruct (Z.ltb_spec n 0); [|lia].
Qed.

Lemma truncate_content_witness :
  exists b', OerpFS.truncate "/f" 2 {[ "/f" := StringIO_new (str_bytes "abcdef") ]}
             = (Ret tt, <[ "/f" := b' ]> {[ "/f" := StringIO_new (str_bytes "abcdef") ]})
             /\ getvalue b' = str_bytes "ab".
Proof.
  refine (proj1 (truncate_content {[ "/f" := StringIO_new (str_bytes "abcdef") ]}
                   "/f" (StringIO_new (str_bytes "abcdef")) 2 _) _).
  - apply lookup_singleton_eq.
  - lia.
Defined.

(** X5. After [release] the path is closed for every call that needs a
    buffer: [release] takes the buffer out of the table, a [write] then
    answers [-ENOENT], and a second [release] or a [truncate] raises
    [KeyError]. *)
Theorem closed_after_release fs p b :
  fs !! p = Some b ->
  let fs' := delete p fs in
  OerpFS.release p fs = (Ret tt, fs')
  /\ (forall data offset,
        OerpFS.write p data offset fs' = (Ret (- OerpFS.ENOENT), fs'))
  /\ OerpFS.release p fs' = (Raise KeyError, fs')
  /\ (forall n, OerpFS.truncate p n fs' = (Raise KeyError, fs')).
Proof.
  intros Hb fs'.
  assert (fs' !! p = None) as Hn by apply lookup_delete_eq.
  split; [by apply (release_opened _ _ b)|]. split; [|split].
  - intros. by apply write_unopened.
  - by apply release_unopened.
  - intros n. unfold OerpFS.truncate, OerpFS.lookup_file, bind. by rewrite Hn.
Qed.

Lemma closed_after_release_witness :
  OerpFS.release "/f" (delete "/f" {[ "/f" := StringIO_new [] ]})
  = (Raise KeyError, delete "/f" {[ "/f" := StringIO_new [] ]}).
Proof.
  refine (proj1 (proj2 (proj2 (closed_after_release {[ "/f" := StringIO_new [] ]}
                                 "/f" (StringIO_new []) _)))).
  apply lookup_singleton_eq.
Defined.

Lemma write_all_exact p chunks : forall fs b,
  fs !! p = Some b -> sio_exact b ->
  exists b', (write_all p chunks (py_len (buf b)) fs) = (Ret tt, <[p := b']> fs)
             /\ buf b' = buf b ++ concat chunks /\ sio_exact b'.
Proof.
  induction chunks as [|c chunks IH]; intros fs b Hb Hex.
  - exists b. cbn. rewrite insert_id by done. by rewrite app_nil_r.
  - cbn [write_all]. unfold bind at 1. rewrite (write_opened _ _ _ _ _ Hb).
    pose proof (py_len_nonneg (buf b)) as Hlen.
    destruct (sio_write_exact (seek b (py_len (buf b))) c) as [Hbuf Hex'].
    { by apply seek_exact. }
    set (b1 := sio_write (seek b (py_len (buf b))) c) in *.
    assert (buf b1 = buf b ++ c) as Hb1.
    { rewrite Hbuf. cbn [pos seek buf]. rewrite Z.max_r by lia.
      unfold splice. destruct c as [|x c]; [by rewrite app_nil_r|].
      rewrite take_ge by (unfold py_len; lia).
      rewrite zeros_nonpos by lia.
      rewrite drop_ge by (unfold py_len; cbn [length]; lia).
      by rewrite app_nil_r. }
    destruct (IH (<[p := b1]> fs) b1) as (b' & Hrun & Hcontent & Hex'');
      [apply lookup_insert_eq | done |].
    replace (py_len (buf b) + py_len c) with (py_len (buf b1))
      by (rewrite Hb1, py_len_app; lia).
    exists b'. rewrite Hrun, insert_insert_eq. split; [done|]. split; [|done].
    rewrite Hcontent, Hb1. cbn [concat]. by rewrite app_assoc.
Qed.

(** X6. Chunks written one after the other, each at the offset where the
    one before ended, add up to their concatenation: after [create] the
    buffer holds exactly the chunks in order, however the content is cut
    into chunks. *)
Theorem sequential_writes_concatenate fs p chunks :
  exists b',
    ((_ <- OerpFS.create p ;; write_all p chunks 0)%py fs).2 !! p = Some b'
    /\ getvalue b' = concat chunks.
Proof.
  unfold bind. cbn [OerpFS.create].
  destruct (write_all_exact p chunks (<[p := StringIO_new []]> fs) (StringIO_new []))
    as (b' & Hrun & Hcontent & _);
    [apply lookup_insert_eq | apply StringIO_new_exact |].
  change (py_len (buf (StringIO_new []))) with 0 in Hrun. rewrite Hrun.
  exists b'. cbn [snd]. split; [apply lookup_insert_eq | done].
Qed.

(** X7. Reading a path that has no buffer opens it: on the base class
    the read returns no bytes and leaves an empty buffer at the path, so
    that a [write] on the path, which answered [-ENOENT] before the read,
    is accepted after it. *)
Theorem read_opens_unopened fs p size offset :
  fs !! p = None ->
  (base_read p size offset fs).1 = Ret []
  /\ (exists b', (base_read p size offset fs).2 !! p = Some b'
                 /\ getvalue b' = [])
  /\ forall data at_,
       OerpFS.write p data at_ fs = (Ret (- OerpFS.ENOENT), fs)
       /\ (OerpFS.write p data at_ (base_read p size offset fs).2).1
          = Ret (py_len data).
Proof.
  intros Hn. rewrite (base_read_unopened _ _ _ _ Hn). cbn [fst snd].
  split; [done|]. split.
  - eexists. split; [apply lookup_insert_eq | done].
  - intros data at_. split; [by apply write_unopened|].
    erewrite write_opened by apply lookup_insert_eq. done.
Qed.

Lemma read_opens_unopened_witness :
  (base_read "/never-opened" 16 0 ∅).1 = Ret [].
Proof.
  refine (proj1 (read_opens_unopened ∅ "/never-opened" 16 0 _)).
  apply lookup_empty.
Defined.

(** ** OerpFSModel: getattr *)

Module ModelFacts.
Import OerpFSModel.

Lemma positions_nil {A} (p : A -> bool) i rows :
  positions p i rows = [] <-> forall x, x ∈ rows -> p x = false.
Proof.
  revert i. induction rows as [|r rows IH]; intros i; cbn.
  - split; [by intros _ x ?%elem_of_nil | done].
  - destruct (p r) eqn:Hr.
    + split; [done|]. intros H. specialize (H r (list_elem_of_here _ _)). congruence.
    + rewrite IH. split.
      * intros H x [->|Hx]%elem_of_cons; [done | by apply H].
      * intros H x Hx. apply H. by apply list_elem_of_further.
Qed.

Lemma search_model_nil d m : search_model d m = [] <-> m ∉ ir_model d.
Proof.
  unfold search_model. rewrite positions_nil. split.
  - intros H Hin. specialize (H m Hin). by rewrite String.eqb_refl in H.
  - intros H x Hx. apply String.eqb_neq. by intros ->.
Qed.

Lemma search_id_nil rows k : search_id rows k = [] <-> k ∉ rows.
Proof.
  unfold search_id. split.
  - intros H Hin. assert (k ∈ filter (fun i => i = k) rows) as Hk
      by (by apply list_elem_of_filter).
    rewrite H in Hk. by apply elem_of_nil in Hk.
  - intros H. apply elem_of_nil_inv. intros x [-> Hx]%list_elem_of_filter. done.
Qed.

Lemma not_root path segs :
  path_segments path = segs -> segs <> [EmptyString] -> (path =? "/")%string = false.
Proof. intros <- Hne. apply String.eqb_neq. intros ->. by apply Hne. Qed.

(** X8. [getattr] does not look at the database for the root or for a
    path that is too deep: the root is a directory with mode
    [S_IFDIR | 0600], and a path of more than three segments, which
    includes a file path with a slash at its end, is answered with
    [-ENOENT] whatever the database holds. *)
Theorem getattr_depth st path :
  getattr "/" st = (Ret directory, st)
  /\ (3 < py_len (path_segments path) ->
      getattr path st = (Ret not_found, st)).
Proof.
  split; [done|]. intros Hdeep. unfold getattr. run.
  assert ((path =? "/")%string = false) as ->.
  { apply String.eqb_neq. intros ->. by vm_compute in Hdeep. }
  by apply Z.ltb_lt in Hdeep as ->.
Qed.

Lemma getattr_depth_witness :
  getattr "/res.partner/7/doc.txt/" {| files := ∅; db := partner_db |}
  = (Ret not_found, {| files := ∅; db := partner_db |}).
Proof.
  refine (proj2 (getattr_depth {| files := ∅; db := partner_db |}
                   "/res.partner/7/doc.txt/") _).
  vm_compute. reflexivity.
Defined.

Lemma getattr_model_level st path m :
  path <> "/" -> path_segments path = [m] ->
  getattr path st
  = (Ret (if bool_decide (m ∈ ir_model (db st)) then directory else not_found), st).
Proof.
  intros Hroot%String.eqb_neq Hseg. unfold getattr. run.
  rewrite Hroot, Hseg. cbn.
  case_bool_decide as Hm.
  - destruct (search_model (db st) m) eqn:Hs; [|done].
    by apply search_model_nil in Hs.
  - apply search_model_nil in Hm. by rewrite Hm.
Qed.

Lemma getattr_record_level st path m r k rows :
  path_segments path = [m; r] -> m ∈ ir_model (db st) ->
  pool (db st) !! m = Some rows -> py_int r = Some k ->
  getattr path st
  = (Ret (if bool_decide (k ∈ rows) then directory else not_found), st).
Proof.
  intros Hseg Hm Hpool Hint. unfold getattr. run.
  rewrite (not_root _ _ Hseg) by done. rewrite Hseg. cbn.
  destruct (search_model (db st) m) eqn:Hs; [by apply search_model_nil in Hs|].
  rewrite Hpool, Hint. unfold ret.
  case_bool_decide as Hk.
  - destruct (search_id rows k) eqn:Hr; [|done].
    by apply search_id_nil in Hr.
  - apply search_id_nil in Hk. by rewrite Hk.
Qed.

(** X9. The two directory levels of the attachment mount. A path of one
    segment is a directory exactly when [ir.model] has a row for the
    segment, and [-ENOENT] otherwise. A path of two segments, for a model
    that has a row and is in the registry and a second segment that is an
    integer, is a directory exactly when the model has a record with that
    id, and [-ENOENT] otherwise. *)
Theorem getattr_directories st path m :
  (path <> "/" -> path_segments path = [m] ->
   getattr path st
   = (Ret (if bool_decide (m ∈ ir_model (db st)) then directory else not_found), st))
  /\ (forall r k rows,
        path_segments path = [m; r] -> m ∈ ir_model (db st) ->
        pool (db st) !! m = Some rows -> py_int r = Some k ->
        getattr path st
        = (Ret (if bool_decide (k ∈ rows) then directory else not_found), st)).
Proof.
  split.
  - apply getattr_model_level.
  - intros r k rows. apply getattr_record_level.
Qed.

Lemma getattr_directories_witness :
  getattr "/res.partner/8" {| files := ∅; db := partner_db |}
  = (Ret not_found, {| files := ∅; db := partner_db |}).
Proof.
  refine (proj2 (getattr_directories {| files := ∅; db := partner_db |}
                   "/res.partner/8" "res.partner") "8" 8 [7] _ _ _ _).
  - reflexivity.
  - apply list_elem_of_here.
  - reflexivity.
  - reflexivity.
Defined.

(** What each call leaves of the database. *)
Lemma db_after c st : no_flush_call c -> db (after c st) = db st.
Proof.
  destruct c as [path|path|path size offset|path data offset|path n|path|path];
    cbn [after no_flush_call]; intros Hc; try done.
  - by rewrite Invariant.getattr_state.
  - unfold open, OerpFS.open. run.
    repeat (case_match; unfold ret, raise, bind, lift_result, put in *;
            cbn [files db fst snd] in *; simplify_eq; try done).
  - unfold read, OerpFS.read, OerpFS.self_file, open, OerpFS.open. run.
    repeat (case_match; unfold ret, raise, bind, lift_result, put, set_files in *;
            cbn [files db fst snd] in *; simplify_eq; try done).
  - unfold write, OerpFS.write, OerpFS.lookup_file. run.
    repeat (case_match; unfold ret, raise, bind, lift_result, put in *;
            cbn [files db fst snd] in *; simplify_eq; try done).
  - unfold truncate, OerpFS.truncate, OerpFS.lookup_file. run.
    repeat (case_match; unfold ret, raise, bind, lift_result, put in *;
            cbn [files db fst snd] in *; simplify_eq; try done).
  - unfold release, OerpFS.release, OerpFS.lookup_file. run.
    repeat (case_match; unfold ret, raise, bind, lift_result, put in *;
            cbn [files db fst snd] in *; simplify_eq; try done).
Qed.

(** X10. Nothing reaches the database without a [flush]: after any
    sequence of [getattr], [open], [read], [write], [truncate] and
    [release] calls, returning or raising, the database is the one the
    sequence started with. *)
Theorem database_needs_flush cs st :
  Forall no_flush_call cs -> db (after_all cs st) = db st.
Proof.
  unfold after_all. revert st.
  induction cs as [|c cs IH]; intros st Hcs; [done|].
  apply Forall_cons in Hcs as [Hc Hcs]. cbn [foldl].
  rewrite IH by done. by apply db_after.
Qed.

Lemma database_needs_flush_witness :
  db (after_all [COpen "/res.partner/7/doc.txt";
                 CWrite "/res.partner/7/doc.txt" (str_bytes "draft") 0;
                 CRelease "/res.partner/7/doc.txt"]
        {| files := ∅; db := partner_db |})
  = partner_db.
Proof.
  apply (database_needs_flush
           [COpen "/res.partner/7/doc.txt";
            CWrite "/res.partner/7/doc.txt" (str_bytes "draft") 0;
            CRelease "/res.partner/7/doc.txt"]
           {| files := ∅; db := partner_db |}).
  repeat constructor.
Defined.

End ModelFacts.

(** ** OerpFSModel: flush *)

Lemma positions_complete {A} (p : A -> bool) rows : forall j i x,
  rows !! i = Some x -> p x = true -> (j + i)%nat ∈ positions p j rows.
Proof.
  induction rows as [|y rows IH]; intros j i x Hi Hx; [done|].
  destruct i as [|i]; cbn [positions lookup list_lookup] in *.
  - injection Hi as ->. rewrite Hx, Nat.add_0_r. apply list_elem_of_here.
  - replace (j + S i)%nat with (S j + i)%nat by lia.
    destruct (p y); [apply list_elem_of_further|]; by eapply IH.
Qed.

Module FlushFacts.
Import OerpFSModel.

Lemma database_eta d :
  {| ir_model := ir_model d; pool := pool d; ir_attachment := ir_attachment d |} = d.
Proof. by destruct d. Qed.

Lemma state_eta st : {| files := files st; db := db st |} = st.
Proof. by destruct st. Qed.

Lemma write_attachment_none d values : write_attachment d [] values = d.
Proof.
  unfold write_attachment. rewrite <- (database_eta d) at 4. f_equal.
  apply list_eq. intros i. rewrite list_lookup_imap.
  destruct (ir_attachment d !! i) as [row|]; [|done]. cbn.
  by rewrite bool_decide_eq_false_2 by apply not_elem_of_nil.
Qed.

Lemma write_attachment_twice d ids (v : attachment) :
  write_attachment (write_attachment d ids (fun _ => v)) ids (fun _ => v)
  = write_attachment d ids (fun _ => v).
Proof.
  unfold write_attachment. cbn [ir_model pool ir_attachment]. f_equal.
  apply list_eq. intros i. rewrite !list_lookup_imap.
  destruct (ir_attachment d !! i) as [row|]; [|done]. cbn.
  case_bool_decide; [|done]. by destruct row.
Qed.

(** [flush] on a path with a buffer, by the first three segments. *)
Lemma flush_opened st path b :
  files st !! path = Some b ->
  flush path st
  = match path_segments path !! 0%nat, path_segments path !! 1%nat,
          path_segments path !! 2%nat with
    | Some m, Some r, Some n =>
        match py_int r with
        | Some k =>
            (Ret tt,
             {| files := files st;
                db := write_attachment (db st) (search_attachment (db st) m k n)
                        (fun _ => flushed_row m k n (buf b)) |})
        | None => (Raise ValueError, st)
        end
    | Some m, Some r, None =>
        match py_int r with
        | Some k => (Raise IndexError, st)
        | None => (Raise ValueError, st)
        end
    | _, _, _ => (Raise IndexError, st)
    end.
Proof.
  intros Hb. unfold flush, OerpFS.self_file. run. rewrite Hb.
  destruct (path_segments path !! 0%nat) as [m|]; [|done].
  destruct (path_segments path !! 1%nat) as [r|]; [|by destruct (path_segments path !! 2%nat)].
  destruct (py_int r) as [k|]; [|by destruct (path_segments path !! 2%nat)].
  unfold ret. by destruct (path_segments path !! 2%nat).
Qed.

Lemma flush_unopened st path :
  files st !! path = None -> flush path st = (Raise KeyError, st).
Proof. intros Hn. unfold flush, OerpFS.self_file. run. by rewrite Hn. Qed.

(** X11. A second [flush] changes nothing: [flush] twice in a row ends
    as [flush] once does, with the same result and the same state, for
    every path and every state, also when the first one raises. *)
Theorem flush_twice st path :
  (flush path ;;; flush path)%py st = flush path st.
Proof.
  unfold bind. destruct (files st !! path) as [b|] eqn:Hb.
  - rewrite (flush_opened _ _ _ Hb).
    destruct (path_segments path !! 0%nat) as [m|] eqn:H0; [|done].
    destruct (path_segments path !! 1%nat) as [r|] eqn:H1;
      [|by destruct (path_segments path !! 2%nat)].
    destruct (path_segments path !! 2%nat) as [n|] eqn:H2;
      [|by destruct (py_int r)].
    destruct (py_int r) as [k|] eqn:Hint; [|done].
    erewrite flush_opened by (cbn [files]; exact Hb).
    rewrite H0, H1, H2, Hint. cbn [files db]. do 2 f_equal.
    pose proof (search_after_write (db st) m k n (b64encode (buf b))) as Hs.
    unfold flushed_row. rewrite Hs. apply write_attachment_twice.
  - by rewrite (flush_unopened _ _ Hb).
Qed.

(** X12. A [flush] for which no attachment has the path's coordinates
    stores nothing and says nothing: it returns without error and the
    whole state, database and buffers, is as before. *)
Theorem flush_without_attachment st path b m r k n :
  files st !! path = Some b ->
  path_segments path = [m; r; n] -> py_int r = Some k ->
  search_attachment (db st) m k n = [] ->
  flush path st = (Ret tt, st).
Proof.
  intros Hb Hseg Hint Hnone. rewrite (flush_opened _ _ _ Hb), Hseg. cbn.
  rewrite Hint, Hnone, write_attachment_none. by rewrite state_eta.
Qed.

Lemma flush_without_attachment_witness :
  flush "/res.partner/7/other.txt"
    {| files := {[ "/res.partner/7/other.txt" := StringIO_new (str_bytes "lost") ]};
       db := partner_db |}
  = (Ret tt,
     {| files := {[ "/res.partner/7/other.txt" := StringIO_new (str_bytes "lost") ]};
        db := partner_db |}).
Proof.
  apply (flush_without_attachment
           {| files := {[ "/res.partner/7/other.txt" := StringIO_new (str_bytes "lost") ]};
              db := partner_db |}
           "/res.partner/7/other.txt" (StringIO_new (str_bytes "lost"))
           "res.partner" "7" 7 "other.txt").
  - apply lookup_singleton_eq.
  - reflexivity.
  - reflexivity.
  - reflexivity.
Defined.

(** X13. What [flush] stores and what it leaves alone. A [flush] of a
    path with a buffer returns, and afterwards the buffers, the models
    and the records are as they were and the attachment table has the
    rows it had: every attachment that had the path's coordinates is
    still there with the coordinates and holds a payload that decodes to
    exactly the content of the buffer, every attachment with other
    coordinates is the attachment it was, and a deleted row stays
    deleted. Read from the table after the [flush]: an attachment there
    with the path's coordinates holds the content, and any other was
    there before. *)
Theorem flush_stores_content st path b m r k n :
  files st !! path = Some b ->
  path_segments path = [m; r; n] -> py_int r = Some k ->
  let st' := (flush path st).2 in
  (flush path st).1 = Ret tt
  /\ files st' = files st
  /\ ir_model (db st') = ir_model (db st)
  /\ pool (db st') = pool (db st)
  /\ length (ir_attachment (db st')) = length (ir_attachment (db st))
  /\ (forall i row,
       ir_attachment (db st) !! i = Some (Some row) ->
       if att_match m k n (Some row)
       then exists row',
              ir_attachment (db st') !! i = Some (Some row')
              /\ att_match m k n (Some row') = true
              /\ exists e, datas row' = Some e /\ b64decode e = Ret (getvalue b)
       else ir_attachment (db st') !! i = Some (Some row))
  /\ (forall i,
       ir_attachment (db st) !! i = Some None ->
       ir_attachment (db st') !! i = Some None)
  /\ (forall i row,
       ir_attachment (db st') !! i = Some (Some row) ->
       if att_match m k n (Some row)
       then exists e, datas row = Some e /\ b64decode e = Ret (getvalue b)
       else ir_attachment (db st) !! i = Some (Some row)).
Proof.
  intros Hb Hseg Hint. rewrite (flush_opened _ _ _ Hb), Hseg.
  cbn [lookup list_lookup]. rewrite Hint. cbn [fst snd files db].
  assert (att_match m k n (Some (flushed_row m k n (buf b))) = true) as Hnew.
  { unfold flushed_row, att_match. cbn. by rewrite !String.eqb_refl, Z.eqb_refl. }
  assert (forall i old, ir_attachment (db st) !! i = Some old ->
            i ∈ search_attachment (db st) m k n <-> att_match m k n old = true)
    as Hids.
  { intros i old Hold. split.
    - intros (row & Hrow & Hp & _)%elem_of_positions.
      rewrite Nat.sub_0_r in Hrow. congruence.
    - intros Hp. by apply (positions_complete (att_match m k n) _ 0%nat i old). }
  cbn [ir_model pool ir_attachment write_attachment].
  split; [done|]. split; [done|]. split; [done|]. split; [done|].
  split; [by rewrite length_imap|]. split; [|split].
  - intros i row Hold. rewrite list_lookup_imap, Hold.
    cbn [fmap option_fmap option_map].
    destruct (att_match m k n (Some row)) eqn:Hmatch.
    + rewrite bool_decide_eq_true_2 by (by apply (Hids i (Some row))).
      exists (flushed_row m k n (buf b)). split; [done|]. split; [done|].
      eexists. split; [reflexivity|]. apply b64decode_b64encode.
    + rewrite bool_decide_eq_false_2; [done|].
      intros Hin. apply (Hids i (Some row)) in Hin; congruence.
  - intros i Hold. rewrite list_lookup_imap, Hold.
    cbn [fmap option_fmap option_map]. by case_bool_decide.
  - intros i row. rewrite list_lookup_imap.
    destruct (ir_attachment (db st) !! i) as [old|] eqn:Hold; [|done].
    cbn [fmap option_fmap option_map].
    case_bool_decide as Hin.
    + destruct old as [a|]; [|done]. cbn [fmap option_fmap option_map].
      intros [= <-]. rewrite Hnew.
      eexists. split; [reflexivity|]. apply b64decode_b64encode.
    + intros [= ->].
      destruct (att_match m k n (Some row)) eqn:Hmatch; [|done].
      destruct Hin. by apply (Hids i (Some row)).
Qed.

(** The attachment of the example holds the three bytes flushed. *)
Lemma flush_stores_content_witness :
  exists row',
    ir_attachment
      (db (flush "/res.partner/7/doc.txt"
             {| files := {[ "/res.partner/7/doc.txt" := StringIO_new (str_bytes "new") ]};
                db := partner_db |}).2) !! 0%nat = Some (Some row')
    /\ att_match "res.partner" 7 "doc.txt" (Some row') = true
    /\ exists e, datas row' = Some e /\ b64decode e = Ret (str_bytes "new").
Proof.
  pose proof (flush_stores_content
                {| files := {[ "/res.partner/7/doc.txt" := StringIO_new (str_bytes "new") ]};
                   db := partner_db |}
                "/res.partner/7/doc.txt" (StringIO_new (str_bytes "new"))
                "res.partner" "7" 7 "doc.txt"
                (lookup_singleton_eq _ _) eq_refl eq_refl)
    as (_ & _ & _ & _ & _ & Hkept & _).
  exact (Hkept 0%nat _ eq_refl).
Defined.

(** X14. The size [getattr] reports after a [flush] is the length of the
    buffer flushed: for a path whose model, record and attachment exist,
    [flush] followed by [getattr] answers a regular file whose size is
    the number of bytes the buffer holds. *)
Theorem getattr_after_flush st path b m r k n rows :
  files st !! path = Some b ->
  path_segments path = [m; r; n] -> py_int r = Some k ->
  m ∈ ir_model (db st) -> pool (db st) !! m = Some rows -> k ∈ rows ->
  search_attachment (db st) m k n <> [] ->
  ((flush path ;;; getattr path)%py st).1
  = Ret (regular_file (py_len (getvalue b))).
Proof.
  intros Hb Hseg Hint Hm Hpool Hk Hatt. unfold bind.
  rewrite (flush_opened _ _ _ Hb), Hseg. cbn [lookup list_lookup].
  rewrite Hint. cbv beta iota.
  set (d' := write_attachment _ _ _).
  rewrite (getattr_record_found _ path m r k n rows Hseg Hint);
    cbn [db files]; try done.
  2:{ by intros ?%ModelFacts.search_model_nil. }
  2:{ by intros ?%ModelFacts.search_id_nil. }
  unfold d', flushed_row.
  rewrite (search_after_write (db st) m k n (b64encode (buf b))).
  destruct (read_after_write (db st) m k n (b64encode (buf b)) Hatt)
    as (row & rest & -> & Hdatas).
  destruct (search_attachment (db st) m k n) as [|i ids]; [done|].
  rewrite Hdatas. unfold payload_size, getvalue. run.
  destruct (b64encode (buf b)) as [|c e] eqn:He.
  - apply b64encode_nil_inv in He. by rewrite He.
  - rewrite <- He, b64decode_b64encode. done.
Qed.

Lemma getattr_after_flush_witness :
  ((flush "/res.partner/7/doc.txt" ;;; getattr "/res.partner/7/doc.txt")%py
     {| files := {[ "/res.partner/7/doc.txt" := StringIO_new (str_bytes "twelve bytes") ]};
        db := partner_db |}).1
  = Ret (regular_file 12).
Proof.
  apply (getattr_after_flush
           {| files := {[ "/res.partner/7/doc.txt" := StringIO_new (str_bytes "twelve bytes") ]};
              db := partner_db |}
           "/res.partner/7/doc.txt" (StringIO_new (str_bytes "twelve bytes"))
           "res.partner" "7" 7 "doc.txt" [7]).
  - apply lookup_singleton_eq.
  - reflexivity.
  - reflexivity.
  - apply list_elem_of_here.
  - reflexivity.
  - apply list_elem_of_here.
  - vm_compute. discriminate.
Defined.

End FlushFacts.

(** ** OerpFSModel: open *)

Module OpenFacts.
Import OerpFSModel.

(** [open] looks at the database only, and touches the table at its path
    only. *)
Lemma open_opened st path :
  open path st
  = ((opened (db st) path).1,
     {| files := <[path := (opened (db st) path).2]> (files st); db := db st |}).
Proof.
  unfold open, opened, OerpFS.open. run.
  destruct (path_segments path !! 0%nat) as [m|]; [|done].
  destruct (path_segments path !! 1%nat) as [r|]; [|done].
  destruct (py_int r) as [k|]; [|done]. unfold ret.
  destruct (path_segments path !! 2%nat) as [n|]; [|done].
  destruct (read_attachment (db st) (search_attachment (db st) m k n))
    as [|row rest]; [done|].
  cbn [lookup list_lookup]. destruct (truthy (datas row)); [|done].
  destruct (b64decode (default [] (datas row))) as [c|e]; [|done].
  cbn. by rewrite insert_insert_eq.
Qed.

Lemma open_read st path size offset :
  ((open path ;;; read path size offset)%py st).1
  = match (opened (db st) path).1 with
    | Ret _ => Ret (sio_read (seek (opened (db st) path).2 offset) size).1
    | Raise e => Raise e
    end.
Proof.
  unfold bind. rewrite open_opened.
  destruct (opened (db st) path) as [[[]|e] b]; [|done]. cbn [fst snd].
  by erewrite read_opened by (cbn; apply lookup_insert_eq).
Qed.

(** X15. Every [open] fetches again, and what it fetches replaces what
    the table held. For a path whose first matching attachment holds the
    encoded [content], [open] returns and leaves at the path a fresh
    buffer with exactly [content], whatever the table held there before,
    bytes written and not yet flushed or nothing at all; a read right
    after it returns the window of [content] asked for; so the result is
    the same from every buffer table. *)
Theorem open_refetches d fs path m r k n row rest content size offset :
  path_segments path = [m; r; n] -> py_int r = Some k ->
  read_attachment d (search_attachment d m k n) = row :: rest ->
  datas row = Some (b64encode content) ->
  0 <= offset -> 0 <= size ->
  open path {| files := fs; db := d |}
  = (Ret tt, {| files := <[path := StringIO_new content]> fs; db := d |})
  /\ ((open path ;;; read path size offset)%py {| files := fs; db := d |}).1
     = Ret (take (Z.to_nat size) (drop (Z.to_nat offset) content))
  /\ forall fs2,
       ((open path ;;; read path size offset)%py {| files := fs2; db := d |}).1
       = ((open path ;;; read path size offset)%py {| files := fs; db := d |}).1.
Proof.
  intros Hseg Hint Hread Hdatas Hoff Hsize.
  assert (forall fs',
            open path {| files := fs'; db := d |}
            = (Ret tt, {| files := <[path := StringIO_new content]> fs'; db := d |}))
    as Hopen.
  { intros fs'.
    by rewrite (open_found {| files := fs'; db := d |} path m r k n row rest content). }
  assert (forall fs',
            ((open path ;;; read path size offset)%py {| files := fs'; db := d |}).1
            = Ret (take (Z.to_nat size) (drop (Z.to_nat offset) content)))
    as Hwindow.
  { intros fs'. unfold bind. rewrite Hopen.
    erewrite read_opened by (cbn; apply lookup_insert_eq). cbn [fst].
    f_equal.
    by rewrite (sio_read_window (StringIO_new content) size offset
                  (StringIO_new_exact content) Hoff Hsize). }
  split; [apply Hopen|]. split; [apply Hwindow|].
  intros fs2. by rewrite !Hwindow.
Qed.

(** Bytes written and not flushed are gone after an [open]: the read
    returns what the attachment holds. *)
Lemma open_refetches_witness :
  open "/res.partner/7/doc.txt"
    {| files := {[ "/res.partner/7/doc.txt" := StringIO_new (str_bytes "unsaved") ]};
       db := partner_db |}
  = (Ret tt,
     {| files := <["/res.partner/7/doc.txt" := StringIO_new (str_bytes "hello")]>
                   {[ "/res.partner/7/doc.txt" := StringIO_new (str_bytes "unsaved") ]};
        db := partner_db |})
  /\ ((open "/res.partner/7/doc.txt" ;;; read "/res.partner/7/doc.txt" 5 0)%py
        {| files := {[ "/res.partner/7/doc.txt" := StringIO_new (str_bytes "unsaved") ]};
           db := partner_db |}).1
     = Ret (str_bytes "hello").
Proof.
  destruct (open_refetches partner_db
              {[ "/res.partner/7/doc.txt" := StringIO_new (str_bytes "unsaved") ]}
              "/res.partner/7/doc.txt" "res.partner" "7" 7 "doc.txt"
              {| att_type := "binary"; res_model := "res.partner"; res_id := 7;
                 att_name := "doc.txt"; datas_fname := Some "doc.txt";
                 datas := Some (str_bytes "aGVsbG8=") |}
              [] (str_bytes "hello") 5 0)
    as (Hopen & Hread & _); try reflexivity; try lia.
  split; [exact Hopen | exact Hread].
Defined.

Lemma getattr_regular_inv st path size :
  getattr path st = (Ret (regular_file size), st) ->
  exists m r k n row rest,
    path_segments path = [m; r; n] /\ py_int r = Some k
    /\ read_attachment (db st) (search_attachment (db st) m k n) = row :: rest
    /\ (payload_size (datas row) st).1 = Ret size.
Proof.
  unfold getattr. run.
  destruct (path =? "/")%string; [intros [= H]; by vm_compute in H|].
  destruct (path_segments path) as [|m [|r [|n [|x l]]]] eqn:Hseg;
    cbn [lookup list_lookup].
  - done.
  - change (3 <? py_len [m]) with false. change (py_len [m] =? 1) with true.
    cbv iota.
    destruct (search_model (db st) m); intros [= H]; by vm_compute in H.
  - change (3 <? py_len [m; r]) with false.
    change (py_len [m; r] =? 1) with false.
    change (py_len [m; r] =? 2) with true. cbv iota.
    destruct (search_model (db st) m); [done|].
    destruct (pool (db st) !! m); [|done].
    destruct (py_int r); [|done]. unfold ret.
    destruct (search_id _ _); intros [= H]; by vm_compute in H.
  - change (3 <? py_len [m; r; n]) with false.
    change (py_len [m; r; n] =? 1) with false.
    change (py_len [m; r; n] =? 2) with false. cbv iota.
    destruct (search_model (db st) m); [done|].
    destruct (pool (db st) !! m); [|done].
    destruct (py_int r) as [k|] eqn:Hint; [|done]. unfold ret.
    destruct (search_id _ _); [done|].
    destruct (search_attachment (db st) m k n) as [|i ids] eqn:Hs; [done|].
    destruct (read_attachment (db st) (i :: ids)) as [|row rest] eqn:Hread; [done|].
    cbn [lookup list_lookup].
    destruct (payload_size (datas row) st) as [[sz|e] st'] eqn:Hsz; [|done].
    apply (f_equal fst) in Hsz. cbn [fst] in Hsz.
    intros Heq. unfold regular_file in Heq. simplify_eq.
    exists m, r, k, n, row, rest. by rewrite Hs.
  - replace (3 <? py_len (m :: r :: n :: x :: l)) with true; [done|].
    symmetry. apply Z.ltb_lt. unfold py_len. cbn [length]. lia.
Qed.

(** X16. The size [getattr] reports is the size of what [open] loads:
    when [getattr] answers a regular file of size [size], an [open] of
    the same path succeeds, a read of [size] bytes from the start returns
    exactly [size] bytes, and a read at offset [size] returns nothing. *)
Theorem stat_size_is_content_size st path size :
  getattr path st = (Ret (regular_file size), st) ->
  (exists content,
     ((open path ;;; read path size 0)%py st).1 = Ret content
     /\ py_len content = size)
  /\ ((open path ;;; read path 1 size)%py st).1 = Ret [].
Proof.
  intros (m & r & k & n & row & rest & Hseg & Hint & Hread & Hsz)%getattr_regular_inv.
  rewrite !open_read. unfold opened. rewrite Hseg. cbn [lookup list_lookup].
  rewrite Hint, Hread. unfold payload_size in Hsz.
  assert (exists c, (if truthy (datas row)
                     then match b64decode (default [] (datas row)) with
                          | Ret c => (Ret tt, StringIO_new c)
                          | Raise e => (Raise e, StringIO_new [])
                          end
                     else (Ret tt, StringIO_new [])) = (Ret tt, StringIO_new c)
                /\ py_len c = size) as (c & -> & Hc).
  { destruct (datas row) as [[|x s]|]; cbn in *.
    - exists []. by injection Hsz as <-.
    - revert Hsz. run. destruct (b64decode (x :: s)) as [c|e]; [|done].
      intros [= <-]. by exists c.
    - exists []. by injection Hsz as <-. }
  cbn [fst snd]. pose proof (py_len_nonneg c) as Hlen. split.
  - eexists. split; [reflexivity|].
    rewrite sio_read_window by (apply StringIO_new_exact || lia).
    cbn [buf StringIO_new]. rewrite drop_0, take_ge by (unfold py_len in *; lia).
    done.
  - f_equal. rewrite sio_read_window by (apply StringIO_new_exact || lia).
    cbn [buf StringIO_new]. rewrite drop_ge by (unfold py_len in *; lia). done.
Qed.

Lemma stat_size_is_content_size_witness :
  ((open "/res.partner/7/doc.txt" ;;; read "/res.partner/7/doc.txt" 1 5)%py
     {| files := ∅; db := partner_db |}).1 = Ret [].
Proof.
  refine (proj2 (stat_size_is_content_size {| files := ∅; db := partner_db |}
                   "/res.partner/7/doc.txt" 5 _)).
  reflexivity.
Defined.

End OpenFacts.

(** ** OerpFSModel: unlink, rename, create *)

Module AttachmentFacts.
Import OerpFSModel OerpFSModelRest.

Lemma positions_imap2 {A} (p q : A -> bool) (g : nat -> A -> A) rows k :
  (forall i r, rows !! i = Some r -> q (g i r) = p r) ->
  positions q k (imap g rows) = positions p k rows.
Proof.
  revert g k. induction rows as [|r rows IH]; intros g k Hg; [done|].
  cbn [imap positions]. rewrite (Hg 0%nat r) by done.
  rewrite (IH (g ∘ S) (S k)); [done|].
  intros i r' Hr'. by apply (Hg (S i)).
Qed.

Lemma positions_app {A} (p : A -> bool) rows x : forall i,
  positions p i (rows ++ [x])
  = positions p i rows ++ (if p x then [(i + length rows)%nat] else []).
Proof.
  induction rows as [|y rows IH]; intros i; cbn [positions app length].
  - rewrite Nat.add_0_r. by destruct (p x).
  - rewrite IH. replace (S i + length rows)%nat with (i + S (length rows))%nat by lia.
    by destruct (p y).
Qed.

Lemma matched_iff d m k n i :
  i ∈ search_attachment d m k n
  <-> exists row, ir_attachment d !! i = Some row /\ att_match m k n row = true.
Proof.
  split.
  - intros (row & Hrow & Hp & _)%elem_of_positions.
    rewrite Nat.sub_0_r in Hrow. by exists row.
  - intros (row & Hrow & Hp).
    apply (positions_complete (att_match m k n) _ 0%nat i row); done.
Qed.

Lemma att_match_eq m k n a :
  att_match m k n (Some a) = true
  <-> res_model a = m /\ res_id a = k /\ att_name a = n.
Proof.
  unfold att_match. rewrite !andb_true_iff, !String.eqb_eq, Z.eqb_eq. tauto.
Qed.

Lemma read_written d ids values sub :
  (forall i, i ∈ sub -> i ∈ ids) ->
  read_attachment (write_attachment d ids values) sub
  = map values (read_attachment d sub).
Proof.
  unfold read_attachment, write_attachment. cbn [ir_attachment].
  induction sub as [|i sub IH]; intros Hsub; [done|].
  cbn [omap list_omap]. rewrite list_lookup_imap.
  rewrite IH by (intros j Hj; apply Hsub; by apply list_elem_of_further).
  rewrite (bool_decide_eq_true_2 (i ∈ ids)) by apply Hsub, list_elem_of_here.
  by destruct (ir_attachment d !! i) as [[a|]|].
Qed.




Section Server.
Variable integer_column : string -> result Z.

Lemma rename_found st old_path new_path m r k n m' r' k' n' :
  path_segments old_path = [m; r; n] -> py_int r = Some k ->
  path_segments new_path = [m'; r'; n'] -> integer_column r' = Ret k' ->
  rename integer_column old_path new_path st
  = (Ret tt,
     {| files := files st;
        db := write_attachment (db st) (search_attachment (db st) m k n)
                (fun row => {| att_type := att_type row; res_model := m';
                               res_id := k'; att_name := n';
                               datas_fname := Some n'; datas := datas row |}) |}).
Proof.
  intros Hold Hint Hnew Hcol. unfold rename. run.
  rewrite Hold, Hnew. cbn [lookup list_lookup]. rewrite Hint. unfold ret.
  by rewrite Hcol.
Qed.

(** X18. [rename] moves the attachment, not the bytes. When no
    attachment has the new coordinates yet and the server stores for the
    new id segment the integer the segment reads as, then after [rename]
    an [open] and [read] of the new path give what an [open] and [read]
    of the old path gave before, no attachment has the old coordinates,
    and the buffer table is as it was, the buffer of the old path
    included. *)
Theorem rename_moves st old_path new_path m r k n m' r' k' n' :
  path_segments old_path = [m; r; n] -> py_int r = Some k ->
  path_segments new_path = [m'; r'; n'] ->
  integer_column r' = Ret k' -> py_int r' = Some k' ->
  search_attachment (db st) m' k' n' = [] ->
  exists st',
    rename integer_column old_path new_path st = (Ret tt, st')
    /\ files st' = files st
    /\ search_attachment (db st') m k n = []
    /\ forall size offset,
         ((open new_path ;;; read new_path size offset)%py st').1
         = ((open old_path ;;; read old_path size offset)%py st).1.
Proof.
  intros Hold Hint Hnew Hcol Hint' Hfree.
  eexists. split; [by eapply rename_found|]. cbn [files db].
  set (values := fun row : attachment =>
         {| att_type := att_type row; res_model := m'; res_id := k';
            att_name := n'; datas_fname := Some n'; datas := datas row |}).
  set (ids := search_attachment (db st) m k n).
  set (d' := write_attachment (db st) ids values).
  assert (forall row, att_match m' k' n' (Some (values row)) = true) as Hnewmatch.
  { intros row. unfold att_match, values. cbn.
    by rewrite !String.eqb_refl, Z.eqb_refl. }
  assert (forall i row, ir_attachment (db st) !! i = Some row ->
            att_match m' k' n' row = false) as Hfree'.
  { intros i row Hrow. destruct (att_match m' k' n' row) eqn:Hp; [|done].
    assert (i ∈ search_attachment (db st) m' k' n') as Hin
      by (apply matched_iff; by exists row).
    rewrite Hfree in Hin. by apply elem_of_nil in Hin. }
  assert (search_attachment d' m' k' n' = ids) as Hmoved.
  { unfold search_attachment, d', write_attachment. cbn [ir_attachment].
    apply positions_imap2. intros i row Hrow.
    case_bool_decide as Hin.
    - apply matched_iff in Hin as (row' & Hrow' & Hp).
      assert (row' = row) as -> by congruence. rewrite Hp.
      destruct row as [a|]; [apply Hnewmatch | done].
    - rewrite (Hfree' i row Hrow). destruct (att_match m k n row) eqn:Hp; [|done].
      destruct Hin. apply matched_iff. by exists row. }
  assert (search_attachment d' m k n = []) as Hgone.
  { apply elem_of_nil_inv. intros i (row & Hrow & Hp)%matched_iff.
    unfold d', write_attachment in Hrow. cbn [ir_attachment] in Hrow.
    rewrite list_lookup_imap in Hrow.
    destruct (ir_attachment (db st) !! i) as [old|] eqn:Hold'; [|done].
    cbn in Hrow. case_bool_decide as Hin; simplify_eq.
    - destruct old as [a|]; [|done].
      assert (att_match m' k' n' (Some a) = false) as Ha by (by eapply Hfree').
      (* the renamed row has the new coordinates, the old row had not *)
      apply att_match_eq in Hp as (Hm & Hk & Hn). cbn in Hm, Hk, Hn. subst.
      apply matched_iff in Hin as (row' & Hrow' & Hp').
      congruence.
    - apply Hin, matched_iff. by exists row. }
  split; [done|]. split; [done|].
  intros size offset. rewrite !OpenFacts.open_read. cbn [db].
  assert (opened d' new_path = opened (db st) old_path) as ->; [|done].
  unfold opened. rewrite Hold, Hnew. cbn [lookup list_lookup].
  rewrite Hint, Hint', Hmoved. fold ids.
  assert (read_attachment d' ids = map values (read_attachment (db st) ids)) as ->
    by (by apply read_written).
  destruct (read_attachment (db st) ids) as [|row rest]; [done|].
  cbn [map]. unfold values at 1 2. cbn [datas]. done.
Qed.

End Server.

Lemma rename_moves_witness :
  exists st',
    rename int_column "/res.partner/7/doc.txt" "/res.partner/8/new.txt"
      {| files := ∅; db := partner_db |} = (Ret tt, st')
    /\ files st' = ∅
    /\ search_attachment (db st') "res.partner" 7 "doc.txt" = []
    /\ forall size offset,
         ((open "/res.partner/8/new.txt" ;;;
           read "/res.partner/8/new.txt" size offset)%py st').1
         = ((open "/res.partner/7/doc.txt" ;;;
             read "/res.partner/7/doc.txt" size offset)%py
              {| files := ∅; db := partner_db |}).1.
Proof.
  apply (rename_moves int_column {| files := ∅; db := partner_db |}
           "/res.partner/7/doc.txt" "/res.partner/8/new.txt"
           "res.partner" "7" 7 "doc.txt" "res.partner" "8" 8 "new.txt");
    reflexivity.
Defined.

Lemma create_found integer_column st path m r k n :
  path_segments path = [m; r; n] -> integer_column r = Ret k ->
  create integer_column path st
  = (Ret tt,
     {| files := <[path := StringIO_new []]> (files st);
        db := create_attachment (db st)
                {| att_type := "binary"; res_model := m; res_id := k;
                   att_name := n; datas_fname := None; datas := None |} |}).
Proof.
  intros Hseg Hcol. unfold create, inherited, OerpFS.inherited, OerpFS.create.
  run. rewrite Hseg. cbn [lookup list_lookup]. by rewrite Hcol.
Qed.

(** X19. A file made with [create] can be stored and read back. When
    the path has three segments and the server stores for the id segment
    the integer the segment reads as, then [create], a [write] of the
    bytes [B] at offset 0, [flush], [release], [open] and a [read] of
    [len(B)] bytes at offset 0 give back exactly [B], whatever the
    database held before. *)
Theorem create_then_store integer_column st path B m r k n :
  path_segments path = [m; r; n] ->
  integer_column r = Ret k -> py_int r = Some k ->
  ((create integer_column path ;;; write path B 0 ;;; flush path ;;;
    release path ;;; open path ;;; read path (py_len B) 0)%py st).1 = Ret B.
Proof.
  intros Hseg Hcol Hint. unfold bind at 1.
  rewrite (create_found integer_column st path m r k n Hseg Hcol).
  set (st1 := {| files := <[path := StringIO_new []]> (files st); db := _ |}).
  assert (files st1 !! path = Some (StringIO_new [])) as Hb0
    by apply lookup_insert_eq.
  assert (search_attachment (db st1) m k n <> []) as Hatt.
  { unfold search_attachment, st1. cbn [db create_attachment ir_attachment].
    rewrite positions_app.
    replace (att_match m k n _) with true
      by (symmetry; by apply att_match_eq).
    by destruct (positions _ _ _). }
  rewrite (store_and_reload _ st1 path B (StringIO_new []) m r k n Hseg Hint Hatt Hb0).
  erewrite read_opened by (cbn; apply lookup_insert_eq). cbn [fst].
  f_equal. apply sio_read_new_head; [|done].
  apply sio_write_head; [|done].
  apply seek_ok, sio_exact_ok, StringIO_new_exact.
Qed.

Lemma create_then_store_witness :
  ((create int_column "/res.partner/7/new.txt" ;;;
    write "/res.partner/7/new.txt" (str_bytes "fresh") 0 ;;;
    flush "/res.partner/7/new.txt" ;;; release "/res.partner/7/new.txt" ;;;
    open "/res.partner/7/new.txt" ;;;
    read "/res.partner/7/new.txt" 5 0)%py
     {| files := ∅; db := partner_db |}).1
  = Ret (str_bytes "fresh").
Proof.
  apply (create_then_store int_column {| files := ∅; db := partner_db |}
           "/res.partner/7/new.txt" (str_bytes "fresh")
           "res.partner" "7" 7 "new.txt");
    reflexivity.
Defined.

(** X20. [create] makes the buffer before it looks at the path. On a
    path of fewer than three segments it raises [IndexError], the
    database is as it was, and an empty buffer is left at the path. *)
Theorem create_short_path integer_column st path :
  path_segments path !! 2%nat = None ->
  create integer_column path st
  = (Raise IndexError,
     {| files := <[path := StringIO_new []]> (files st); db := db st |}).
Proof.
  intros Hshort. unfold create, inherited, OerpFS.inherited, OerpFS.create.
  run. rewrite Hshort.
  destruct (path_segments path !! 0%nat) as [m|]; [|done].
  by destruct (path_segments path !! 1%nat) as [r|].
Qed.

Lemma create_short_path_witness :
  create int_column "/res.partner/7" {| files := ∅; db := partner_db |}
  = (Raise IndexError,
     {| files := <["/res.partner/7" := StringIO_new []]> ∅; db := partner_db |}).
Proof.
  apply (create_short_path int_column {| files := ∅; db := partner_db |}
           "/res.partner/7").
  reflexivity.
Defined.

End AttachmentFacts.

(** ** OerpFSModel: readdir *)

Module ReaddirFacts.
Import OerpFSModel OerpFSModelRest.

Lemma split_nonempty sep s : split sep s <> [].
Proof.
  destruct s as [|c s]; cbn; [done|].
  destruct (Ascii.eqb c sep); [done|]. by destruct (split sep s).
Qed.

Lemma split_no_slash s : no_slash s = true -> split "/" s = [s].
Proof.
  induction s as [|c s IH]; [done|]. cbn [no_slash split].
  intros [Hc Hs]%andb_true_iff. apply negb_true_iff in Hc. rewrite Hc.
  by rewrite (IH Hs).
Qed.

Lemma split_child s e :
  no_slash e = true ->
  split "/" (s +:+ "/" +:+ e) = split "/" s ++ [e].
Proof.
  intros He. induction s as [|c s IH].
  - change (split "/" (EmptyString +:+ "/" +:+ e))
      with (EmptyString :: split "/" e).
    by rewrite (split_no_slash e He).
  - change (String c s +:+ "/" +:+ e) with (String c (s +:+ "/" +:+ e)).
    cbn [split]. rewrite IH. destruct (Ascii.eqb c "/"); [done|].
    pose proof (split_nonempty "/" s). by destruct (split "/" s).
Qed.

Lemma path_segments_child path e :
  no_slash e = true ->
  path_segments (path +:+ "/" +:+ e) = path_segments path ++ [e].
Proof.
  intros He. unfold path_segments. rewrite (split_child _ _ He).
  pose proof (split_nonempty "/" path). by destruct (split "/" path).
Qed.

Lemma digit_val_digit_char d :
  0 <= d < 10 -> digit_val (digit_char d) = Some d.
Proof.
  intros Hd.
  assert (d = 0 \/ d = 1 \/ d = 2 \/ d = 3 \/ d = 4 \/ d = 5 \/ d = 6 \/ d = 7
          \/ d = 8 \/ d = 9) as Hcases by lia.
  repeat destruct Hcases as [->|Hcases]; try reflexivity. by subst.
Qed.

Lemma digit_char_plain d :
  0 <= d < 10 ->
  isspace (digit_char d) = false
  /\ Ascii.eqb (digit_char d) "/" = false
  /\ Ascii.eqb (digit_char d) "-" = false
  /\ Ascii.eqb (digit_char d) "+" = false.
Proof.
  intros Hd.
  assert (d = 0 \/ d = 1 \/ d = 2 \/ d = 3 \/ d = 4 \/ d = 5 \/ d = 6 \/ d = 7
          \/ d = 8 \/ d = 9) as Hcases by lia.
  repeat destruct Hcases as [->|Hcases]; try by vm_compute. subst. by vm_compute.
Qed.

(** The digits written are read back as the number. *)
Lemma digits_of_read fuel : forall n acc,
  0 <= n < 10 ^ Z.of_nat (S fuel) ->
  exists p, forall a seen,
    read_digits (digits_of (S fuel) n acc) a seen
    = read_digits acc (a * p + n) true.
Proof.
  induction fuel as [|fuel IH]; intros n acc Hn.
  - exists 10. intros a seen. cbn [digits_of].
    change (10 ^ Z.of_nat 1) with 10 in Hn.
    destruct (Z.ltb_spec n 10); [|lia].
    cbn [read_digits]. rewrite Z.mod_small by lia.
    rewrite digit_val_digit_char by lia. f_equal. lia.
  - change (digits_of (S (S fuel)) n acc)
      with (let acc' := String (digit_char (n mod 10)) acc in
            if n <? 10 then acc' else digits_of (S fuel) (n / 10) acc').
    cbv zeta. destruct (Z.ltb_spec n 10) as [Hlt|Hge].
    + exists 10. intros a seen. cbn [read_digits]. rewrite Z.mod_small by lia.
      rewrite digit_val_digit_char by lia. f_equal. lia.
    + destruct (IH (n / 10) (String (digit_char (n mod 10)) acc)) as [p Hp].
      { split; [apply Z.div_pos; lia|].
        apply Z.div_lt_upper_bound; [lia|].
        rewrite (Nat2Z.inj_succ (S fuel)), Z.pow_succ_r in Hn by lia. lia. }
      exists (10 * p). intros a seen. rewrite Hp. cbn [read_digits].
      pose proof (Z.mod_pos_bound n 10 ltac:(lia)).
      rewrite digit_val_digit_char by lia. f_equal.
      pose proof (Z.div_mod n 10 ltac:(lia)). lia.
Qed.

Lemma digits_of_head fuel : forall n acc,
  0 <= n ->
  exists d rest, 0 <= d < 10 /\ digits_of (S fuel) n acc = String (digit_char d) rest.
Proof.
  induction fuel as [|fuel IH]; intros n acc Hn.
  - exists (n mod 10), acc. split; [apply Z.mod_pos_bound; lia|].
    cbn [digits_of]. by destruct (n <? 10).
  - change (digits_of (S (S fuel)) n acc)
      with (let acc' := String (digit_char (n mod 10)) acc in
            if n <? 10 then acc' else digits_of (S fuel) (n / 10) acc').
    cbv zeta. destruct (Z.ltb_spec n 10) as [Hlt|Hge].
    + exists (n mod 10), acc. split; [apply Z.mod_pos_bound; lia | done].
    + apply IH. apply Z.div_pos; lia.
Qed.

Lemma digits_of_no_slash fuel : forall n acc,
  0 <= n -> no_slash acc = true -> no_slash (digits_of fuel n acc) = true.
Proof.
  induction fuel as [|fuel IH]; intros n acc Hn Hacc; [done|].
  cbn [digits_of].
  assert (no_slash (String (digit_char (n mod 10)) acc) = true) as Hacc'.
  { cbn [no_slash]. rewrite Hacc.
    destruct (digit_char_plain (n mod 10)) as (_ & -> & _);
      [apply Z.mod_pos_bound; lia | done]. }
  destruct (n <? 10); [done|]. apply IH; [apply Z.div_pos; lia | done].
Qed.

Lemma fuel_enough n :
  0 <= n -> n < 10 ^ Z.of_nat (S (Z.to_nat (Z.log2 n))).
Proof.
  intros Hn. destruct (Z.eq_dec n 0) as [->|Hne]; [done|].
  rewrite Nat2Z.inj_succ, Z2Nat.id by apply Z.log2_nonneg.
  pose proof (Z.log2_spec n ltac:(lia)) as [_ Hlt].
  eapply Z.lt_le_trans; [exact Hlt|].
  apply Z.pow_le_mono_l. pose proof (Z.log2_nonneg n). lia.
Qed.

Lemma py_int_digits s d rest n :
  s = String (digit_char d) rest -> 0 <= d < 10 ->
  read_digits s 0 false = (n, true, EmptyString) ->
  py_int s = Some n /\ py_int (String "-" s) = Some (- n).
Proof.
  intros Hs Hd Hread.
  destruct (digit_char_plain d Hd) as (Hsp & _ & Hminus & Hplus).
  assert (skip_spaces s = s) as Hskip by (rewrite Hs; cbn; by rewrite Hsp).
  split.
  - unfold py_int. rewrite Hskip.
    assert (match s with
            | String "-"%char r => (true, r)
            | String "+"%char r => (false, r)
            | _ => (false, s)
            end = (false, s)) as ->.
    { rewrite Hs. apply Ascii.eqb_neq in Hminus, Hplus.
      destruct (digit_char d) as [[] [] [] [] [] [] [] []]; done. }
    by rewrite Hskip, Hread.
  - unfold py_int. cbn [skip_spaces].
    change (isspace "-") with false. cbv iota.
    by rewrite Hskip, Hread.
Qed.

(** [int(str(n))] is [n]. *)
Lemma py_int_py_str n : py_int (py_str n) = Some n.
Proof.
  unfold py_str. destruct (Z.ltb_spec n 0) as [Hneg|Hpos].
  - set (fuel := Z.to_nat (Z.log2 (Z.abs n))).
    destruct (digits_of_head fuel (- n) EmptyString ltac:(lia)) as (d & rest & Hd & Hs).
    destruct (digits_of_read fuel (- n) EmptyString) as [p Hp].
    { unfold fuel. rewrite Z.abs_neq by lia. split; [lia|]. apply fuel_enough. lia. }
    destruct (py_int_digits _ d rest (- n) Hs Hd) as [_ ->].
    + rewrite Hp. cbn [read_digits]. do 2 f_equal.
    + f_equal. lia.
  - set (fuel := Z.to_nat (Z.log2 (Z.abs n))).
    destruct (digits_of_head fuel n EmptyString ltac:(lia)) as (d & rest & Hd & Hs).
    destruct (digits_of_read fuel n EmptyString) as [p Hp].
    { unfold fuel. rewrite Z.abs_eq by lia. split; [lia|]. apply fuel_enough. lia. }
    destruct (py_int_digits _ d rest n Hs Hd) as [-> _]; [|done].
    rewrite Hp. cbn [read_digits]. do 2 f_equal.
Qed.

Lemma py_str_no_slash n : no_slash (py_str n) = true.
Proof.
  unfold py_str. destruct (Z.ltb_spec n 0).
  - cbn [no_slash]. apply digits_of_no_slash; [lia | done].
  - apply digits_of_no_slash; [lia | done].
Qed.

Lemma segments_of_child e : no_slash e = true -> path_segments ("/" +:+ e) = [e].
Proof.
  intros He. unfold path_segments.
  change (split "/" ("/" +:+ e)) with (EmptyString :: split "/" e).
  by rewrite (split_no_slash e He).
Qed.

(** The loop over the names. *)
Lemma yield_names_ends names :
  (yield_names names).2 = Ret tt <-> forallb ascii_only names = true.
Proof.
  induction names as [|u names IH]; [done|].
  cbn [yield_names forallb]. unfold str_of_unicode.
  destruct (ascii_only u); [|done].
  destruct (yield_names names) as [yielded ending]. cbn [snd] in IH |- *.
  by rewrite IH.
Qed.

Lemma yield_names_raises names e :
  (yield_names names).2 = Raise e -> e = UnicodeEncodeError.
Proof.
  induction names as [|u names IH]; [done|].
  cbn [yield_names]. unfold str_of_unicode.
  destruct (ascii_only u); [|by intros [= <-]].
  by destruct (yield_names names) as [yielded ending].
Qed.

Lemma yield_names_lookup names : forall i u,
  (yield_names names).1 !! i = Some u
  <-> names !! i = Some u /\ forallb ascii_only (take (S i) names) = true.
Proof.
  induction names as [|v names IH]; intros i u.
  - cbn. split; [done | by intros [? _]].
  - cbn [yield_names]. unfold str_of_unicode.
    destruct (ascii_only v) eqn:Hv.
    + specialize (IH (pred i) u).
      destruct (yield_names names) as [yielded ending]. cbn [fst] in IH |- *.
      destruct i as [|i]; cbn [lookup list_lookup take forallb pred] in IH |- *.
      * rewrite Hv. rewrite take_0. cbn. split; [done | by intros [? _]].
      * rewrite Hv. cbn [andb]. exact IH.
    + cbn [fst]. split; [done|]. intros [_ Hall].
      cbn [take forallb] in Hall. by rewrite Hv in Hall.
Qed.

Lemma yield_names_elem names e : e ∈ (yield_names names).1 -> e ∈ names.
Proof.
  intros (i & Hi)%list_elem_of_lookup_1.
  apply yield_names_lookup in Hi as [Hi _]. by eapply list_elem_of_lookup_2.
Qed.

Lemma readdir_root st :
  readdir "/" st
  = ("." :: ".." :: (yield_names (ir_model (db st))).1,
     (yield_names (ir_model (db st))).2).
Proof.
  unfold readdir. change (String.eqb "/" "/") with true. cbv iota.
  by destruct (yield_names (ir_model (db st))).
Qed.

Lemma readdir_record st path m r k :
  path_segments path = [m; r] -> py_int r = Some k ->
  let names := map att_name
                 (read_attachment (db st) (search_record_attachments (db st) m k)) in
  readdir path st = ("." :: ".." :: (yield_names names).1, (yield_names names).2).
Proof.
  intros Hseg Hint names. unfold readdir.
  rewrite (ModelFacts.not_root _ _ Hseg) by done.
  rewrite Hseg. cbn [py_len length py_item lookup list_lookup].
  change (Z.of_nat 2 =? 1) with false. cbv iota. rewrite Hint. fold names.
  by destruct (yield_names names).
Qed.

(** X21. What [readdir] lists at the root, [getattr] knows as a
    directory. [readdir] of the root ends without an exception exactly
    when [str] takes every model name, that is when the names are ASCII;
    and every name it yields other than the two dots that is one segment,
    taken as a path below the root, is answered by [getattr] with a
    directory, also when the listing ends with an exception later. *)
Theorem listed_models_are_directories st e :
  ((readdir "/" st).2 = Ret tt <-> forallb ascii_only (ir_model (db st)) = true)
  /\ (e ∈ (readdir "/" st).1 -> e <> "." -> e <> ".." -> no_slash e = true ->
      getattr ("/" +:+ e) st = (Ret directory, st)).
Proof.
  rewrite readdir_root. cbn [fst snd]. split; [apply yield_names_ends|].
  intros Hin Hdot Hdots He.
  apply elem_of_cons in Hin as [->|Hin]; [done|].
  apply elem_of_cons in Hin as [->|Hin]; [done|].
  apply yield_names_elem in Hin.
  destruct e as [|c e]; [done|].
  rewrite (ModelFacts.getattr_model_level st _ (String c e)).
  - by rewrite bool_decide_eq_true_2.
  - by intros [=].
  - by apply segments_of_child.
Qed.

Lemma listed_models_are_directories_witness :
  (readdir "/" {| files := ∅; db := partner_db |}).2 = Ret tt
  /\ getattr ("/" +:+ "res.partner") {| files := ∅; db := partner_db |}
     = (Ret directory, {| files := ∅; db := partner_db |}).
Proof.
  destruct (listed_models_are_directories {| files := ∅; db := partner_db |}
              "res.partner") as [Hend Hdir].
  split; [by apply Hend|]. apply Hdir.
  - vm_compute. do 2 apply list_elem_of_further. apply list_elem_of_here.
  - discriminate.
  - discriminate.
  - reflexivity.
Defined.

(** X22. What [readdir] lists for a model, [getattr] knows as a
    directory. For a path of one segment, a model that [ir.model] and the
    registry hold, [readdir] ends without an exception, and every name it
    yields other than the two dots, put after the path and a slash, is
    answered by [getattr] with a directory: the id that [readdir] writes
    with [str] is the id that [getattr] reads with [int]. *)
Theorem listed_records_are_directories st path m rows e :
  path <> "/" -> path_segments path = [m] ->
  m ∈ ir_model (db st) -> pool (db st) !! m = Some rows ->
  (readdir path st).2 = Ret tt
  /\ (e ∈ (readdir path st).1 -> e <> "." -> e <> ".." ->
      getattr (path +:+ "/" +:+ e) st = (Ret directory, st)).
Proof.
  intros Hroot%String.eqb_neq Hseg Hm Hpool.
  assert (readdir path st = ("." :: ".." :: map py_str rows, Ret tt)) as ->.
  { unfold readdir. rewrite Hroot, Hseg. cbn. by rewrite Hpool. }
  split; [done|]. cbn [fst]. intros Hin Hdot Hdots.
  apply elem_of_cons in Hin as [->|Hin]; [done|].
  apply elem_of_cons in Hin as [->|Hin]; [done|].
  apply list_elem_of_fmap in Hin as (k & -> & Hk).
  rewrite (ModelFacts.getattr_record_level st _ m (py_str k) k rows); try done.
  - by rewrite bool_decide_eq_true_2.
  - by rewrite path_segments_child, Hseg by apply py_str_no_slash.
  - apply py_int_py_str.
Qed.

Lemma listed_records_are_directories_witness :
  (readdir "/res.partner" {| files := ∅; db := partner_db |}).2 = Ret tt
  /\ getattr ("/res.partner" +:+ "/" +:+ "7") {| files := ∅; db := partner_db |}
     = (Ret directory, {| files := ∅; db := partner_db |}).
Proof.
  destruct (listed_records_are_directories {| files := ∅; db := partner_db |}
              "/res.partner" "res.partner" [7] "7") as [Hend Hdir].
  - discriminate.
  - reflexivity.
  - apply list_elem_of_here.
  - reflexivity.
  - split; [exact Hend|]. apply Hdir.
    + vm_compute. do 2 apply list_elem_of_further. apply list_elem_of_here.
    + discriminate.
    + discriminate.
Defined.

Lemma read_attachment_elem d ids a :
  a ∈ read_attachment d ids ->
  exists i, i ∈ ids /\ ir_attachment d !! i = Some (Some a).
Proof.
  unfold read_attachment. intros (i & Hi & Ha)%list_elem_of_omap.
  exists i. split; [done|].
  destruct (ir_attachment d !! i) as [[b|]|]; cbn in Ha; by simplify_eq.
Qed.

Lemma read_attachment_matched d m k n i ids :
  search_attachment d m k n = i :: ids ->
  exists row rest, read_attachment d (i :: ids) = row :: rest.
Proof.
  intros Hs.
  assert (i ∈ search_attachment d m k n) as Hin by (rewrite Hs; apply list_elem_of_here).
  apply AttachmentFacts.matched_iff in Hin as (row & Hrow & Hp).
  destruct row as [a|]; [|done].
  unfold read_attachment. cbn [omap list_omap]. rewrite Hrow. cbn. eauto.
Qed.

(** X23. What [readdir] lists for a record is there for [getattr]. For
    a path of two segments, a model that [ir.model] and the registry hold
    and a record of the model, [readdir] ends without an exception
    exactly when [str] takes the name of every attachment of the record,
    that is when the names are ASCII; and for every name it yields other
    than the two dots that is one segment, also when the listing ends
    with an exception later, [getattr] of the path, a slash and the name
    does not answer [-ENOENT] and does not answer with a directory: what
    it returns is a regular file. *)
Theorem listed_attachments_are_files st path m r k rows e :
  path_segments path = [m; r] -> py_int r = Some k ->
  m ∈ ir_model (db st) -> pool (db st) !! m = Some rows -> k ∈ rows ->
  ((readdir path st).2 = Ret tt
   <-> forallb ascii_only
         (map att_name
            (read_attachment (db st) (search_record_attachments (db st) m k)))
       = true)
  /\ (e ∈ (readdir path st).1 -> e <> "." -> e <> ".." -> no_slash e = true ->
      forall a, (getattr (path +:+ "/" +:+ e) st).1 = Ret a ->
      exists size, a = regular_file size).
Proof.
  intros Hseg Hint Hm Hpool Hk.
  rewrite (readdir_record st path m r k Hseg Hint). cbn [fst snd].
  split; [apply yield_names_ends|]. intros Hin Hdot Hdots He a Ha.
  apply elem_of_cons in Hin as [->|Hin]; [done|].
  apply elem_of_cons in Hin as [->|Hin]; [done|].
  apply yield_names_elem in Hin.
  apply list_elem_of_fmap in Hin as (row & -> & Hrow).
  apply read_attachment_elem in Hrow as (i & Hi & Hrow).
  apply elem_of_positions in Hi as (row' & Hrow' & Hp & _).
  rewrite Nat.sub_0_r in Hrow'. assert (row' = Some row) as -> by congruence.
  assert (i ∈ search_attachment (db st) m k (att_name row)) as Hfound.
  { apply AttachmentFacts.matched_iff. exists (Some row). split; [done|].
    unfold att_of_record in Hp. unfold att_match.
    by rewrite Hp, String.eqb_refl. }
  rewrite (getattr_record_found st _ m r k (att_name row) rows) in Ha.
  - destruct (search_attachment (db st) m k (att_name row)) as [|j ids] eqn:Hs;
      [by apply elem_of_nil in Hfound|].
    destruct (read_attachment_matched _ _ _ _ _ _ Hs) as (row0 & rest & Hread).
    rewrite Hread in Ha. unfold bind, payload_size in Ha.
    destruct (datas row0) as [[|c v]|]; cbn in Ha; simplify_eq; eauto.
    unfold lift_result, bind in Ha.
    destruct (b64decode (c :: v)); cbn in Ha; simplify_eq. eauto.
  - by rewrite path_segments_child, Hseg.
  - done.
  - intros Hnil%ModelFacts.search_model_nil. done.
  - done.
  - intros Hnil%ModelFacts.search_id_nil. done.
Qed.

Lemma listed_attachments_are_files_witness :
  (readdir "/res.partner/7" {| files := ∅; db := partner_db |}).2 = Ret tt
  /\ forall a,
       (getattr ("/res.partner/7" +:+ "/" +:+ "doc.txt")
          {| files := ∅; db := partner_db |}).1 = Ret a ->
       exists size, a = regular_file size.
Proof.
  destruct (listed_attachments_are_files {| files := ∅; db := partner_db |}
              "/res.partner/7" "res.partner" "7" 7 [7] "doc.txt")
    as [Hend Hfile].
  - reflexivity.
  - reflexivity.
  - apply list_elem_of_here.
  - reflexivity.
  - apply list_elem_of_here.
  - split; [by apply Hend|]. apply Hfile.
    + vm_compute. do 2 apply list_elem_of_further. apply list_elem_of_here.
    + discriminate.
    + discriminate.
    + reflexivity.
Defined.

(** X24. How far [readdir] gets. For every path and every state the
    listing starts with [.] and [..], yielded before anything is looked
    up. When [readdir] ends with an exception other than the
    [UnicodeEncodeError] of [str], these two are all it yielded. With
    [str] the names are yielded one by one: at the root, and for a
    record, the name at a position of the rows read is yielded, at that
    position after the dots, exactly when it and all the names before it
    are ASCII, so the names before a name that [str] refuses are in the
    listing and the names from it on are not. *)
Theorem readdir_dots_first st path :
  (exists rest, (readdir path st).1 = "." :: ".." :: rest)
  /\ (forall e, (readdir path st).2 = Raise e -> e <> UnicodeEncodeError ->
       (readdir path st).1 = ["."; ".."])
  /\ (forall i u,
       (readdir "/" st).1 !! (2 + i)%nat = Some u
       <-> ir_model (db st) !! i = Some u
           /\ forallb ascii_only (take (S i) (ir_model (db st))) = true)
  /\ (forall m r k i u,
       path_segments path = [m; r] -> py_int r = Some k ->
       let names := map att_name
                      (read_attachment (db st)
                         (search_record_attachments (db st) m k)) in
       (readdir path st).1 !! (2 + i)%nat = Some u
       <-> names !! i = Some u /\ forallb ascii_only (take (S i) names) = true).
Proof.
  split; [|split; [|split]].
  - unfold readdir.
    destruct (String.eqb path "/");
      [destruct (yield_names (ir_model (db st))); cbn; eauto|].
    destruct (py_len (path_segments path) =? 1).
    + destruct (py_item (path_segments path) 0) as [m|err]; [|cbn; eauto].
      destruct (pool (db st) !! m); cbn; eauto.
    + destruct (py_item (path_segments path) 0) as [m|err]; [|cbn; eauto].
      destruct (py_item (path_segments path) 1) as [r|err]; [|cbn; eauto].
      destruct (py_int r); [|cbn; eauto].
      destruct (yield_names _); cbn; eauto.
  - intros e. unfold readdir.
    destruct (String.eqb path "/").
    { pose proof (yield_names_raises (ir_model (db st)) e) as Hraise.
      destruct (yield_names (ir_model (db st))) as [yielded ending].
      cbn [fst snd] in *. intros He Hne. by destruct Hne; apply Hraise. }
    destruct (py_len (path_segments path) =? 1).
    + destruct (py_item (path_segments path) 0) as [m|err]; [|done].
      by destruct (pool (db st) !! m).
    + destruct (py_item (path_segments path) 0) as [m|err]; [|done].
      destruct (py_item (path_segments path) 1) as [r|err]; [|done].
      destruct (py_int r) as [k|]; [|done].
      match goal with |- context [yield_names ?l] =>
        pose proof (yield_names_raises l e) as Hraise;
        destruct (yield_names l) as [yielded ending] end.
      cbn [fst snd] in *. intros He Hne. by destruct Hne; apply Hraise.
  - intros i u. rewrite readdir_root. cbn [fst].
    change (("." :: ".." :: (yield_names (ir_model (db st))).1) !! (2 + i)%nat)
      with ((yield_names (ir_model (db st))).1 !! i).
    apply yield_names_lookup.
  - intros m r k i u Hseg Hint names.
    rewrite (readdir_record st path m r k Hseg Hint). cbn [fst]. fold names.
    change (("." :: ".." :: (yield_names names).1) !! (2 + i)%nat)
      with ((yield_names names).1 !! i).
    apply yield_names_lookup.
Qed.

(** A model name that [str] refuses stops the listing after the names
    before it. *)
Lemma readdir_stops_at_non_ascii :
  readdir "/"
    {| files := ∅;
       db := {| ir_model := ["res.partner"; String "233" "t"; "res.users"];
                pool := ∅; ir_attachment := [] |} |}
  = (["."; ".."; "res.partner"], Raise UnicodeEncodeError).
Proof. reflexivity. Qed.

End ReaddirFacts.

(** ** OerpFSCsvImport: readdir, and release as a whole *)

Module CsvRestFacts.
Import OerpFSCsvImport OerpFSCsvImportRest.

Lemma listed_iff st path e :
  e ∈ (readdir path st).1 <-> e = "." \/ e = ".." \/ is_Some (files st !! e).
Proof.
  unfold readdir. cbn [fst app]. rewrite !elem_of_cons.
  assert (e ∈ (map_to_list (files st)).*1 <-> is_Some (files st !! e)) as ->; [|tauto].
  rewrite list_elem_of_fmap. split.
  - intros ([k b] & -> & Hkb). apply elem_of_map_to_list in Hkb. by exists b.
  - intros [b Hb]. exists (e, b). split; [done|]. by apply elem_of_map_to_list.
Qed.

(** X25. On the import mount the listing and [getattr] agree.
    [readdir] ends without an exception, and for every path other than
    the root and the two dots: when [readdir] yields it, [getattr]
    answers with the write-only regular file, and when [readdir] does not
    yield it, [getattr] answers [-ENOENT]. What [readdir] yields are the
    keys of the buffer table, whichever directory it is asked for. *)
Theorem listing_matches_getattr st path e :
  e <> "/" -> e <> "." -> e <> ".." ->
  (readdir path st).2 = Ret tt
  /\ (e ∈ (readdir path st).1 -> getattr e st = (Ret csv_file, st))
  /\ (e ∉ (readdir path st).1 -> getattr e st = (Ret not_found, st)).
Proof.
  intros Hroot%String.eqb_neq Hdot Hdots. split; [done|].
  rewrite listed_iff. unfold getattr. run. rewrite Hroot. split.
  - intros [->|[->|Hb]]; [done..|].
    by destruct (decide (is_Some (files st !! e))).
  - intros Hno. destruct (decide (is_Some (files st !! e))) as [Hb|_]; [|done].
    destruct Hno. by right; right.
Qed.

Lemma listing_matches_getattr_witness :
  (readdir "/" (contact_mount contact_csv (Ret 2))).2 = Ret tt
  /\ getattr "/contact.csv" (contact_mount contact_csv (Ret 2))
     = (Ret csv_file, contact_mount contact_csv (Ret 2)).
Proof.
  destruct (listing_matches_getattr (contact_mount contact_csv (Ret 2)) "/"
              "/contact.csv") as (Hend & Hfile & _); try discriminate.
  split; [exact Hend|]. apply Hfile, listed_iff. right; right.
  exists (StringIO_new contact_csv). apply lookup_singleton_eq.
Defined.

(** X26. What [release] leaves alone, on every path and in every state,
    whether it returns or raises: the buffers of the other paths, the
    registry and the server are as they were, and at most one call of
    [import_data] has been added to the calls made. *)
Theorem release_frame Fuse_flush st path q :
  q <> path ->
  let st' := (release Fuse_flush path st).2 in
  files st' !! q = files st !! q
  /\ pool st' = pool st
  /\ import_data st' = import_data st
  /\ (imports st' = imports st \/ exists c, imports st' = imports st ++ [c]).
Proof.
  intros Hq. cbv zeta.
  unfold release, OerpFS.self_file, call_import, with_files,
    bind, get, put, ret, raise, lift_result.
  cbn [files pool import_data imports fst snd].
  destruct (files st !! path) as [b|] eqn:Hb; cbn [fst snd];
    [|repeat split; by left].
  destruct (csv_reader (StringIO_new (getvalue b))) as [lines|e];
    cbn [fst snd]; [|repeat split; by left].
  destruct (decide (str_tail (remove_all ".csv" 0 path) ∈ pool st)) as [Hm|Hm];
    cbn [fst snd]; [|repeat split; by left].
  destruct (py_item lines 0) as [header|e]; cbn [fst snd];
    [|repeat split; by left].
  destruct (import_data st _) as [code|e]; cbn [files pool import_data imports fst snd];
    [|repeat split; right; eauto].
  rewrite Hb. cbn [files pool import_data imports fst snd].
  destruct (Fuse_flush path); cbn [files pool import_data imports fst snd];
    (split; [by apply lookup_delete_ne | repeat split; right; eauto]).
Qed.

Lemma release_frame_witness :
  let st' := (release no_flush "/other.csv" (contact_mount contact_csv (Ret 2))).2 in
  files st' !! "/contact.csv"
  = files (contact_mount contact_csv (Ret 2)) !! "/contact.csv"
  /\ pool st' = pool (contact_mount contact_csv (Ret 2))
  /\ import_data st' = import_data (contact_mount contact_csv (Ret 2))
  /\ (imports st' = imports (contact_mount contact_csv (Ret 2))
      \/ exists c, imports st' = imports (contact_mount contact_csv (Ret 2)) ++ [c]).
Proof.
  apply (release_frame no_flush (contact_mount contact_csv (Ret 2))
           "/other.csv" "/contact.csv").
  discriminate.
Defined.

Lemma csv_create_found st path :
  create path st = (Ret tt, with_files st (<[path := StringIO_new []]> (files st))).
Proof. done. Qed.

Lemma csv_write_found st path data offset b :
  files st !! path = Some b ->
  write path data offset st
  = (Ret (py_len data),
     with_files st (<[path := sio_write (seek b offset) data]> (files st))).
Proof.
  intros Hb. unfold write, inherited, OerpFS.inherited.
  by rewrite (write_opened _ _ _ _ _ Hb).
Qed.

(** X27. A copy into the import mount is one import and leaves no
    buffer. For a file [name ++ ".csv"] in the root, where [.csv] occurs
    nowhere in [name] and the registry holds the model [name]: when the
    bytes written parse to a header and rows and the server accepts the
    import, then [create], a [write] of the bytes at offset 0 and
    [release] end as the library's [flush] ends, the calls made are those
    made before and one more, on the model [name] with the header as
    fields and the rows as data, and the path has no buffer. *)
Theorem copy_is_one_import Fuse_flush st name content header rows code :
  occurs ".csv" name = false -> name ∈ pool st ->
  csv_reader (StringIO_new content) = Ret (header :: rows) ->
  let path := String "/" (name +:+ ".csv") in
  let call := {| ic_model := name; ic_fields := header; ic_datas := rows;
                 ic_mode := "init"; ic_current_module := "";
                 ic_noupdate := false; ic_context := [("import", true)] |} in
  import_data st call = Ret code ->
  (create path ;;; write path content 0 ;;; release Fuse_flush path)%py st
  = (Fuse_flush path,
     {| files := delete path (files st); pool := pool st;
        import_data := import_data st; imports := imports st ++ [call] |}).
Proof.
  intros Ho Hpool Hcsv path call Himp.
  pose proof (csv_path_model name Ho) as Hmodel. fold path in Hmodel.
  unfold bind at 1. rewrite csv_create_found.
  set (st1 := with_files st _).
  assert (files st1 !! path = Some (StringIO_new [])) as Hb1
    by apply lookup_insert_eq.
  unfold bind. rewrite (csv_write_found st1 path content 0 _ Hb1).
  set (b := sio_write (seek (StringIO_new []) 0) content).
  assert (getvalue b = content) as Hvalue.
  { unfold b, getvalue. by destruct content. }
  set (st2 := with_files st1 _).
  rewrite (CsvFacts.release_reaches_import Fuse_flush st2 path b header rows).
  - rewrite Hmodel. cbn [import_data st2 st1 with_files]. fold call.
    rewrite Himp. f_equal. unfold st2, st1, with_files.
    cbn [files pool import_data imports]. f_equal.
    by rewrite insert_insert_eq, delete_insert_eq.
  - apply lookup_insert_eq.
  - by rewrite Hvalue.
  - by rewrite Hmodel.
Qed.

Lemma copy_is_one_import_witness :
  let st := {| files := ∅; pool := {[ "contact" ]};
               import_data := fun _ => Ret 2; imports := [] |} in
  (create "/contact.csv" ;;; write "/contact.csv" contact_csv 0 ;;;
   release no_flush "/contact.csv")%py st
  = (no_flush "/contact.csv",
     {| files := delete "/contact.csv" (files st); pool := pool st;
        import_data := import_data st;
        imports := imports st
                   ++ [{| ic_model := "contact"; ic_fields := ["name"; "age"];
                          ic_datas := [["Alice"; "30"]; ["Bob"; "40"]];
                          ic_mode := "init"; ic_current_module := "";
                          ic_noupdate := false;
                          ic_context := [("import", true)] |}] |}).
Proof.
  intros st.
  refine (copy_is_one_import no_flush st "contact" contact_csv
            ["name"; "age"] [["Alice"; "30"]; ["Bob"; "40"]] 2 _ _ _ _).
  - reflexivity.
  - cbn. set_solver.
  - reflexivity.
  - reflexivity.
Defined.

End CsvRestFacts.

(** ** OerpFSDocument: the parent of a path *)

Module DocumentRestFacts.
Import OerpFSDocument OerpFSDocumentRest.

Lemma join_cons s w ws :
  join "/" (s :: w :: ws) = s +:+ "/" +:+ join "/" (w :: ws).
Proof. done. Qed.

(** [join] undoes [split]. *)
Lemma join_split s : join "/" (split "/" s) = s.
Proof.
  induction s as [|c s IH]; [done|]. cbn [split].
  destruct (Ascii.eqb_spec c "/") as [->|Hc].
  - pose proof (ReaddirFacts.split_nonempty "/" s) as Hne.
    destruct (split "/" s) as [|w ws]; [done|].
    rewrite join_cons, IH. done.
  - pose proof (ReaddirFacts.split_nonempty "/" s) as Hne.
    destruct (split "/" s) as [|w ws]; [done|].
    destruct ws as [|w' ws].
    + cbn in IH |- *. by rewrite IH.
    + rewrite join_cons in IH. rewrite join_cons.
      change (String c w +:+ "/" +:+ join "/" (w' :: ws))
        with (String c (w +:+ "/" +:+ join "/" (w' :: ws))).
      by rewrite IH.
Qed.

(** X28. The parent that [create] and [rename] of the document mount
    look up. For a path made of a directory path, a slash and a name
    that is one segment, the parent path they compute is the directory
    path and the name they hand to the tree is the name; for a file right
    below the root the parent path is the empty string, not [/], and it
    is looked up as the root is. *)
Theorem parent_of_child st path name :
  no_slash name = true ->
  parent_path (path +:+ "/" +:+ name) = path
  /\ new_name (path +:+ "/" +:+ name) = Ret name
  /\ parent_node st ("/" +:+ name) = _get_node st "/".
Proof.
  intros Hname. unfold parent_node, parent_path, new_name, py_last.
  rewrite (ReaddirFacts.split_child path name Hname).
  rewrite removelast_last, last_snoc, join_split.
  split; [done|]. split; [done|].
  change ("/" +:+ name) with (EmptyString +:+ "/" +:+ name).
  rewrite (ReaddirFacts.split_child EmptyString name Hname).
  by rewrite removelast_last.
Qed.

Lemma parent_of_child_witness :
  parent_path ("/Documents/2024" +:+ "/" +:+ "report.pdf") = "/Documents/2024"
  /\ new_name ("/Documents/2024" +:+ "/" +:+ "report.pdf") = Ret "report.pdf"
  /\ parent_node {| files := ∅; get_uri := fun _ => None |} ("/" +:+ "report.pdf")
     = _get_node {| files := ∅; get_uri := fun _ => None |} "/".
Proof.
  apply (parent_of_child {| files := ∅; get_uri := fun _ => None |}
           "/Documents/2024" "report.pdf").
  reflexivity.
Defined.

End DocumentRestFacts.
